(** * pymdp: fixed-point inference, Dirichlet learning and model reduction

    A shallow embedding of

    - [src/inferactively/core/inference.py]  (method dispatch),
    - [src/pymdp/algos/fpi.py]               (fixed-point iteration),
    - [src/pymdp/jax/learning.py]            (Dirichlet updates, pruning),

    together with the fragment of Python and numpy that these files rely on:
    exceptions, object identity, a store of arrays with references (object
    arrays hold references to their sub-arrays), broadcasting, boolean-mask
    and open-mesh indexing.

    Floating-point numbers are kept abstract: the scalar type [F] only has
    the operations the code uses, and every algebraic law a theorem needs is
    an explicit hypothesis of that theorem. *)

From stdpp Require Import base option list gmap sets strings pretty.
From Stdlib Require Import ZArith Lia.

Set Default Proof Using "Type".
Open Scope Z_scope.
Open Scope string_scope.
Open Scope nat_scope.
Open Scope list_scope.

(* ===================================================================== *)
(** * Part I.  Python: exceptions, results, indices, sets                *)
(* ===================================================================== *)

(** The exceptions that the embedded code, Python or numpy can raise. *)
Inductive exn : Type :=
  | NameError (name : string)
  | NotImplementedError (msg : string)
  | ValueError (msg : string)
  | IndexError (msg : string)
  | TypeError (msg : string)
  | AssertionError.

(** A computation without side effects that may raise. *)
Definition result (A : Type) : Type := exn + A.

Definition ok {A : Type} (a : A) : result A := inr a.
Definition throw {A : Type} (e : exn) : result A := inl e.

Definition rbind {A B : Type} (m : result A) (k : A -> result B) : result B :=
  match m with
  | inl e => inl e
  | inr a => k a
  end.

Declare Scope result_scope.
Delimit Scope result_scope with result.
Notation "'let?' x ':=' m 'in' k" := (rbind m (fun x => k))
  (at level 10, x name, m at level 100, k at level 200, only parsing)
  : result_scope.

Definition is_ok {A : Type} (r : result A) : bool :=
  match r with
  | inr _ => true
  | inl _ => false
  end.

(** [for x in xs: acc = body(acc, x)], stopping at the first exception. *)
Fixpoint rfold {A S : Type} (body : S -> A -> result S) (xs : list A) (acc : S)
  : result S :=
  match xs with
  | [] => ok acc
  | x :: xs' => rbind (body acc x) (rfold body xs')
  end.

Fixpoint rmap {A B : Type} (f : A -> result B) (xs : list A) : result (list B) :=
  match xs with
  | [] => ok []
  | x :: xs' => rbind (f x) (fun y => rbind (rmap f xs') (fun ys => ok (y :: ys)))
  end.

(** Python subscript on a sequence of length [n]: a negative index counts
    from the end, anything outside [-n, n) is an [IndexError]. *)
Definition norm_index (n : nat) (i : Z) : option nat :=
  if decide (0 <= i < Z.of_nat n)%Z then Some (Z.to_nat i)
  else if decide (- Z.of_nat n <= i < 0)%Z then Some (Z.to_nat (Z.of_nat n + i))
  else None.

Definition py_getitem {A : Type} (l : list A) (i : Z) : result A :=
  match norm_index (length l) i with
  | Some k =>
      match l !! k with
      | Some a => ok a
      | None => throw (IndexError "index out of range")
      end
  | None => throw (IndexError "index out of range")
  end.

(** [enumerate(xs)] *)
Definition enumerate {A : Type} (xs : list A) : list (nat * A) :=
  zip (seq 0 (length xs)) xs.

(** An entry of a list argument that holds either level numbers or, per
    factor or modality, lists of level numbers. *)
Inductive pyitem : Type :=
  | PInt (i : Z)
  | PList (l : list Z).

Definition is_int (x : pyitem) : bool :=
  match x with PInt _ => true | PList _ => false end.

Definition is_list (x : pyitem) : bool :=
  match x with PInt _ => false | PList _ => true end.

(** [assert c] *)
Definition py_assert (c : bool) : result unit :=
  if c then ok tt else throw AssertionError.

(** [set(x)] for an entry [x]. *)
Definition set_of_item (x : pyitem) : result (list Z) :=
  match x with
  | PList l => ok l
  | PInt _ => throw (TypeError "'int' object is not iterable")
  end.

(** [set(xs)] for the whole argument. *)
Definition set_of_items (xs : list pyitem) : result (list Z) :=
  rmap (fun x => match x with
                 | PInt i => ok i
                 | PList _ => throw (TypeError "unhashable type: 'list'")
                 end) xs.

(** [list(range(n))] *)
Definition py_range (n : nat) : list Z := seqZ 0 (Z.of_nat n).

(** [list(set(range(n)) - set(remove))].  The order in which a Python set
    is listed is unspecified; [elements] is likewise only known to list every
    member once. *)
Definition levels_kept (n : nat) (remove : list Z) : list Z :=
  elements ((list_to_set (py_range n) : gset Z) ∖ list_to_set remove).

(* ===================================================================== *)
(** * Part II.  numpy arrays                                             *)
(* ===================================================================== *)

(** The scalar operations the embedded code performs on array entries.
    [fgt0 x] is the comparison [x > 0]. *)
Class Scalar (F : Type) : Type := {
  fzero : F;
  fone : F;
  fadd : F -> F -> F;
  fmul : F -> F -> F;
  fgt0 : F -> bool
}.

(** Exact integers: the instance used to run the embedding on examples
    (integer pseudo-counts, one-hot beliefs). *)
#[global] Instance Z_scalar : Scalar Z := {|
  fzero := 0%Z;
  fone := 1%Z;
  fadd := Z.add;
  fmul := Z.mul;
  fgt0 := fun x => bool_decide (0 < x)%Z
|}.

(** An n-dimensional array: its shape and its entries in row-major order. *)
Record ndarray (T : Type) : Type := NdArray {
  shape : list nat;
  data : list T
}.
Arguments NdArray {T} shape data.
Arguments shape {T} _.
Arguments data {T} _.

Definition size (sh : list nat) : nat := foldr Nat.mul 1 sh.

Definition nd_wf {T : Type} (a : ndarray T) : Prop :=
  length (data a) = size (shape a).

#[global] Instance nd_wf_dec {T : Type} (a : ndarray T) : Decision (nd_wf a).
Proof. unfold nd_wf. apply _. Defined.

(** [a.shape[0]] *)
Definition shape0 {T : Type} (a : ndarray T) : result nat :=
  match shape a with
  | n :: _ => ok n
  | [] => throw (IndexError "tuple index out of range")
  end.

(** [len(a)] *)
Definition nd_len {T : Type} (a : ndarray T) : result nat :=
  match shape a with
  | n :: _ => ok n
  | [] => throw (TypeError "len() of unsized object")
  end.

(** [d] cut into [n] consecutive blocks of [sz] entries. *)
Fixpoint chunks {T : Type} (n sz : nat) (d : list T) : list (list T) :=
  match n with
  | O => []
  | S n' => take sz d :: chunks n' sz (drop sz d)
  end.

(** ** Broadcasting *)

Definition broadcast_dim (a b : nat) : option nat :=
  if decide (a = b) then Some a
  else if decide (a = 1) then Some b
  else if decide (b = 1) then Some a
  else None.

Fixpoint broadcast_aligned (s1 s2 : list nat) : option (list nat) :=
  match s1, s2 with
  | [], [] => Some []
  | a :: s1', b :: s2' =>
      match broadcast_dim a b, broadcast_aligned s1' s2' with
      | Some d, Some r => Some (d :: r)
      | _, _ => None
      end
  | _, _ => None
  end.

(** Shapes are aligned on their last axis; missing leading axes count as 1. *)
Definition pad_shape (r : nat) (s : list nat) : list nat :=
  replicate (r - length s) 1 ++ s.

Definition broadcast_shapes (s1 s2 : list nat) : option (list nat) :=
  let r := length s1 `max` length s2 in
  broadcast_aligned (pad_shape r s1) (pad_shape r s2).

(** The entries of an array of shape [src] repeated to fill shape [tgt]
    (both of the same rank, [src] broadcastable to [tgt]). *)
Fixpoint broadcast_data {T : Type} (src tgt : list nat) (d : list T) : list T :=
  match src, tgt with
  | a :: src', b :: tgt' =>
      if decide (a = b)
      then concat (map (broadcast_data src' tgt') (chunks a (size src') d))
      else concat (replicate b (broadcast_data src' tgt' d))
  | _, _ => d
  end.

Definition broadcast_to {T : Type} (tgt : list nat) (a : ndarray T) : list T :=
  broadcast_data (pad_shape (length tgt) (shape a)) tgt (data a).

(** ** Element-wise operations *)

(** [f(a)] entry by entry; also [s * a] for a Python scalar [s]. *)
Definition nd_map {T U : Type} (f : T -> U) (a : ndarray T) : ndarray U :=
  NdArray (shape a) (map f (data a)).

(** [a op b]: a new array of the broadcast shape. *)
Definition nd_zip {T U V : Type} (f : T -> U -> V)
    (a : ndarray T) (b : ndarray U) : result (ndarray V) :=
  match broadcast_shapes (shape a) (shape b) with
  | Some s => ok (NdArray s (zip_with f (broadcast_to s a) (broadcast_to s b)))
  | None => throw (ValueError "operands could not be broadcast together")
  end.

(** [a op= b]: the result is written into [a], so it must have [a]'s shape. *)
Definition nd_izip {T U : Type} (f : T -> U -> T)
    (a : ndarray T) (b : ndarray U) : result (ndarray T) :=
  match broadcast_shapes (shape a) (shape b) with
  | Some s =>
      if decide (s = shape a)
      then ok (NdArray s (zip_with f (data a) (broadcast_to s b)))
      else throw (ValueError "non-broadcastable output operand")
  | None => throw (ValueError "operands could not be broadcast together")
  end.

(** ** Boolean-mask indexing *)

(** A mask of shape [shape a[:k]] selects blocks of [a]; on the row-major
    entries each mask bit stands for a whole block. *)
Definition expand_mask (sz : nat) (m : list bool) : list bool :=
  m ≫= replicate sz.

Fixpoint select {T : Type} (m : list bool) (d : list T) : list T :=
  match m, d with
  | b :: m', x :: d' => if b then x :: select m' d' else select m' d'
  | _, _ => []
  end.

Fixpoint put {T : Type} (m : list bool) (d vs : list T) : list T :=
  match m, d with
  | true :: m', x :: d' =>
      match vs with
      | v :: vs' => v :: put m' d' vs'
      | [] => x :: put m' d' []
      end
  | false :: m', x :: d' => x :: put m' d' vs
  | _, _ => d
  end.

Definition count_true (m : list bool) : nat := length (filter (eq true) m).

Definition mask_fits {T : Type} (a : ndarray T) (m : ndarray bool) : Prop :=
  take (length (shape m)) (shape a) = shape m.

#[global] Instance mask_fits_dec {T : Type} (a : ndarray T) (m : ndarray bool) :
  Decision (mask_fits a m).
Proof. unfold mask_fits. apply _. Defined.

Definition mask_rest {T : Type} (a : ndarray T) (m : ndarray bool) : list nat :=
  drop (length (shape m)) (shape a).

(** [a[m]] *)
Definition mask_get {T : Type} (a : ndarray T) (m : ndarray bool)
  : result (ndarray T) :=
  if decide (mask_fits a m)
  then
    let rest := mask_rest a m in
    ok (NdArray (count_true (data m) :: rest)
                (select (expand_mask (size rest) (data m)) (data a)))
  else throw (IndexError "boolean index did not match indexed array").

(** [a[m] = v] *)
Definition mask_set {T : Type} (a : ndarray T) (m : ndarray bool) (v : ndarray T)
  : result (ndarray T) :=
  if decide (mask_fits a m)
  then
    let rest := mask_rest a m in
    let tgt := count_true (data m) :: rest in
    match broadcast_shapes tgt (shape v) with
    | Some s =>
        if decide (s = tgt)
        then ok (NdArray (shape a)
                   (put (expand_mask (size rest) (data m)) (data a) (broadcast_to tgt v)))
        else throw (ValueError "cannot assign the input values to the selected output values")
    | None => throw (ValueError "cannot assign the input values to the selected output values")
    end
  else throw (IndexError "boolean index did not match indexed array").

(** ** Integer indexing *)

(** [a[np.ix_(idx_0, ..., idx_{k-1})]]: the open mesh of the given levels on
    the first [k] axes, everything on the remaining ones. *)
Fixpoint ix_data {T : Type} (sh : list nat) (idxs : list (list nat)) (d : list T)
  : list T :=
  match idxs, sh with
  | idx :: idxs', n :: sh' =>
      let cs := chunks n (size sh') d in
      concat (map (fun i => ix_data sh' idxs' (default [] (cs !! i))) idx)
  | _, _ => d
  end.

Fixpoint ix_norm (sh : list nat) (idxs : list (list Z)) : result (list (list nat)) :=
  match idxs, sh with
  | [], _ => ok []
  | _ :: _, [] => throw (IndexError "too many indices for array")
  | idx :: idxs', n :: sh' =>
      match mapM (norm_index n) idx with
      | Some idx' => rbind (ix_norm sh' idxs') (fun r => ok (idx' :: r))
      | None => throw (IndexError "index is out of bounds")
      end
  end.

Definition nd_ix {T : Type} (a : ndarray T) (idxs : list (list Z))
  : result (ndarray T) :=
  rbind (ix_norm (shape a) idxs) (fun idxs' =>
    ok (NdArray (map length idxs' ++ drop (length idxs') (shape a))
                (ix_data (shape a) idxs' (data a)))).

(** [a[:, :, u]], read and written block by block: with
    [shape a = n0 :: n1 :: n2 :: rest], every one of the [n0 * n1] blocks
    holds [n2] sub-blocks of [size rest] entries, and the slice is sub-block
    [u] of each. *)
Definition sub_get {T : Type} (r u : nat) (c : list T) : list T :=
  take r (drop (u * r) c).

Definition sub_set {T : Type} (r u : nat) (c v : list T) : list T :=
  take (u * r) c ++ v ++ drop ((u + 1) * r) c.

Definition nd_axis2_get {T : Type} (a : ndarray T) (u : Z) : result (ndarray T) :=
  match shape a with
  | n0 :: n1 :: n2 :: rest =>
      match norm_index n2 u with
      | Some k =>
          ok (NdArray (n0 :: n1 :: rest)
                (concat (map (sub_get (size rest) k)
                             (chunks (n0 * n1) (n2 * size rest) (data a)))))
      | None => throw (IndexError "index is out of bounds for axis 2")
      end
  | _ => throw (IndexError "too many indices for array")
  end.

(** [a[:, :, u] = v] for [v] of the shape of the slice. *)
Definition nd_axis2_set {T : Type} (a : ndarray T) (u : Z) (v : ndarray T)
  : result (ndarray T) :=
  match shape a with
  | n0 :: n1 :: n2 :: rest =>
      match norm_index n2 u with
      | Some k =>
          if decide (shape v = n0 :: n1 :: rest)
          then ok (NdArray (shape a)
                    (concat (zip_with (sub_set (size rest) k)
                               (chunks (n0 * n1) (n2 * size rest) (data a))
                               (chunks (n0 * n1) (size rest) (data v)))))
          else throw (ValueError "could not broadcast input array")
      | None => throw (IndexError "index is out of bounds for axis 2")
      end
  | _ => throw (IndexError "too many indices for array")
  end.

(** ** Comparison and conversion *)

Section ScalarOps.
Context {F : Type} `{Scalar F}.

(** [a > 0] *)
Definition nd_gt0 (a : ndarray F) : ndarray bool := nd_map fgt0 a.

(** [m.astype("float")] *)
Definition astype_float (m : ndarray bool) : ndarray F :=
  nd_map (fun b : bool => if b then fone else fzero) m.

(** [a + b], [a * b], [s * a] *)
Definition nd_add (a b : ndarray F) : result (ndarray F) := nd_zip fadd a b.
Definition nd_mul (a b : ndarray F) : result (ndarray F) := nd_zip fmul a b.
Definition nd_scale (s : F) (a : ndarray F) : ndarray F := nd_map (fmul s) a.

(** [a += b], [a *= b] *)
Definition nd_iadd (a b : ndarray F) : result (ndarray F) := nd_izip fadd a b.
Definition nd_imul (a b : ndarray F) : result (ndarray F) := nd_izip fmul a b.

(** Modelled from the spec: [maths.spm_cross], the spec's [outer]: "builds
    the joint (Kronecker) tensor of a list of 1-D probability vectors".
    Entry [(i, j_0, ..., j_k)] of [spm_cross x [y_0; ...; y_k]] is the
    product [x[i] * y_0[j_0] * ... * y_k[j_k]], multiplied from the left. *)
Definition outer2 (x y : ndarray F) : ndarray F :=
  NdArray (shape x ++ shape y)
          (data x ≫= (fun a => map (fmul a) (data y))).

Definition spm_cross (x : ndarray F) (ys : list (ndarray F)) : ndarray F :=
  foldl outer2 x ys.
End ScalarOps.

(* ===================================================================== *)
(** * Part III.  The store and the effect monad                          *)
(* ===================================================================== *)

(** References to numpy arrays.  An array of dtype object holds references,
    so two of its entries, or two object arrays, may share a sub-array. *)
Definition loc : Type := positive.

(** What a run leaves behind besides the store: what was printed, which
    collaborator was called, and which array was indexed or normalised. *)
Inductive event : Type :=
  | Printed (text : string)
  | Called (fn : string)
  | Sliced
  | Normalized.

#[global] Instance event_eq_dec : EqDecision event.
Proof. solve_decision. Defined.

Section Store.
Context {F : Type}.

Inductive cell : Type :=
  | CArr (a : ndarray F)
  | CObj (items : list loc).

Record world : Type := World {
  heap : gmap loc cell;
  trace : list event
}.

Definition py (A : Type) : Type := world -> result A * world.

Definition ret {A : Type} (a : A) : py A := fun w => (ok a, w).

Definition raise {A : Type} (e : exn) : py A := fun w => (throw e, w).

Definition lift {A : Type} (r : result A) : py A := fun w => (r, w).

Definition bind {A B : Type} (m : py A) (k : A -> py B) : py B :=
  fun w =>
    match m w with
    | (inr a, w') => k a w'
    | (inl e, w') => (inl e, w')
    end.

Definition emit (ev : event) : py unit :=
  fun w => (ok tt, World (heap w) (trace w ++ [ev])).

(** A new object gets a reference that is not in use. *)
Definition alloc (c : cell) : py loc :=
  fun w =>
    let l := fresh (dom (heap w)) in
    (ok l, World (<[l := c]> (heap w)) (trace w)).

Definition store (l : loc) (c : cell) : py unit :=
  fun w => (ok tt, World (<[l := c]> (heap w)) (trace w)).

Definition load_arr (l : loc) : py (ndarray F) :=
  fun w =>
    match heap w !! l with
    | Some (CArr a) => (ok a, w)
    | _ => (throw (TypeError "not a numeric array"), w)
    end.

Definition load_obj (l : loc) : py (list loc) :=
  fun w =>
    match heap w !! l with
    | Some (CObj items) => (ok items, w)
    | _ => (throw (TypeError "not an object array"), w)
    end.

(** [for x in xs: body(x)] *)
Fixpoint for_each {A : Type} (xs : list A) (body : A -> py unit) : py unit :=
  match xs with
  | [] => ret tt
  | x :: xs' => bind (body x) (fun _ => for_each xs' body)
  end.

(** [for x in xs: acc = body(acc, x)] *)
Fixpoint for_fold {A S : Type} (xs : list A) (body : S -> A -> py S) (acc : S)
  : py S :=
  match xs with
  | [] => ret acc
  | x :: xs' => bind (body acc x) (for_fold xs' body)
  end.

(** [[f(x) for x in xs]] *)
Fixpoint for_map {A B : Type} (xs : list A) (f : A -> py B) : py (list B) :=
  match xs with
  | [] => ret []
  | x :: xs' =>
      bind (f x) (fun y => bind (for_map xs' f) (fun ys => ret (y :: ys)))
  end.

(** What the store holds behind a reference. *)
Definition read_arr (h : gmap loc cell) (l : loc) : option (ndarray F) :=
  match h !! l with
  | Some (CArr a) => Some a
  | _ => None
  end.

Definition read_obj (h : gmap loc cell) (l : loc) : option (list (ndarray F)) :=
  match h !! l with
  | Some (CObj items) => mapM (read_arr h) items
  | _ => None
  end.

Definition obj_items (h : gmap loc cell) (l : loc) : option (list loc) :=
  match h !! l with
  | Some (CObj items) => Some items
  | _ => None
  end.
End Store.

Arguments cell F : clear implicits.
Arguments world F : clear implicits.
Arguments py F A : clear implicits.

Declare Scope py_scope.
Delimit Scope py_scope with py.
Notation "'let*' x ':=' m 'in' k" := (bind m (fun x => k))
  (at level 10, x name, m at level 100, k at level 200, only parsing)
  : py_scope.
Notation "'do*' m 'in' k" := (bind m (fun _ => k))
  (at level 10, m at level 100, k at level 200, only parsing) : py_scope.

Section ObjectArrays.
Context {F : Type}.
Local Open Scope py_scope.

(** [copy.deepcopy] of an object array of numeric arrays.  The memo maps
    every array already copied to its copy, so an array that occurs twice
    is copied once and the copies stay shared. *)
Fixpoint deepcopy_items (items : list loc) (memo : gmap loc loc)
  : py F (list loc) :=
  match items with
  | [] => ret []
  | l :: items' =>
      match memo !! l with
      | Some l' =>
          let* r := deepcopy_items items' memo in
          ret (l' :: r)
      | None =>
          let* a := load_arr l in
          let* l' := alloc (CArr a) in
          let* r := deepcopy_items items' (<[l := l']> memo) in
          ret (l' :: r)
      end
  end.

Definition deepcopy (p : loc) : py F loc :=
  let* items := load_obj p in
  let* q := alloc (CObj items) in
  let* items' := deepcopy_items items ∅ in
  do* store q (CObj items') in
  ret q.

(** The reference held in [p[i]]. *)
Definition obj_getref (p : loc) (i : Z) : py F loc :=
  let* items := load_obj p in
  lift (py_getitem items i).

(** [p[i]] *)
Definition obj_getitem (p : loc) (i : Z) : py F (ndarray F) :=
  let* l := obj_getref p i in
  load_arr l.

(** [p[i] = a] for a newly built array [a]. *)
Definition obj_setitem (p : loc) (i : Z) (a : ndarray F) : py F unit :=
  let* items := load_obj p in
  match norm_index (length items) i with
  | Some k =>
      let* l := alloc (CArr a) in
      store p (CObj (<[k := l]> items))
  | None => raise (IndexError "index out of range")
  end.
End ObjectArrays.

(* ===================================================================== *)
(** * Part IV.  [pymdp/jax/learning.py]                                  *)
(* ===================================================================== *)

Definition newline : string := String (Ascii.ascii_of_nat 10) "".

Definition prune_prior_msg : string :=
  "Need to figure out how to re-distribute concentration parameters from pruned levels, across remaining levels".

Definition prune_A_msg : string :=
  "Need to figure out how to re-distribute concentration parameters from pruned rows/columns, across remaining rows/columns".

Definition prune_warning (f : nat) : string :=
  "Warning... removing ALL levels of factor " +:+ pretty f +:+
  " - i.e. the whole hidden state factor is being removed" +:+ newline.

Section Learning.
Context {F : Type} `{Scalar F}.
Local Open Scope py_scope.

(** What the caller passes as [obs]: an index, a one-hot vector, a tuple of
    indices or an object array of one-hot vectors. *)
Variable observation : Type.

(** [utils.process_observation] followed by [utils.to_obj_array]: the
    observation as one one-hot vector per modality. *)
Variable process_observation :
  observation -> nat -> list nat -> result (list (ndarray F)).

(** The body of [for modality in modalities] in
    [update_obs_likelihood_dirichlet]. *)
Definition update_obs_body (A obs qs : list (ndarray F)) (lr : F) (qA : loc)
    (modality : Z) : py F unit :=
  let* o := lift (py_getitem obs modality) in
  let dfda := spm_cross o qs in
  let* A_m := lift (py_getitem A modality) in
  let* dfda := lift (nd_mul dfda (astype_float (nd_gt0 A_m))) in
  let* qA_m := obj_getitem qA modality in
  let* new := lift (nd_add qA_m (nd_scale lr dfda)) in
  obj_setitem qA modality new.

(** [update_obs_likelihood_dirichlet(pA, A, obs, qs, lr, modalities)];
    [modalities = None] stands for the default ["all"]. *)
Definition update_obs_likelihood_dirichlet
    (pA : loc) (A : list (ndarray F)) (obs : observation)
    (qs : list (ndarray F)) (lr : F) (modalities : option (list Z))
  : py F loc :=
  let* pA_items := load_obj pA in
  let num_modalities := length pA_items in
  let* num_observations :=
    for_map pA_items (fun l => let* a := load_arr l in lift (shape0 a)) in
  let* obs := lift (process_observation obs num_modalities num_observations) in
  let modalities := default (py_range num_modalities) modalities in
  let* qA := deepcopy pA in
  do* for_each modalities (update_obs_body A obs qs lr qA) in
  ret qA.

(** The body of [for factor in factors] in
    [update_state_likelihood_dirichlet]. *)
Definition update_trans_body (B : list (ndarray F)) (actions : list Z)
    (qs qs_prev : list (ndarray F)) (lr : F) (qB : loc) (factor : Z)
  : py F unit :=
  let* q := lift (py_getitem qs factor) in
  let* q_prev := lift (py_getitem qs_prev factor) in
  let dfdb := spm_cross q [q_prev] in
  let* B_f := lift (py_getitem B factor) in
  let* u := lift (py_getitem actions factor) in
  let* B_fu := lift (nd_axis2_get B_f u) in
  let* dfdb := lift (nd_imul dfdb (astype_float (nd_gt0 B_fu))) in
  let* l := obj_getref qB factor in
  let* qB_f := load_arr l in
  let* u := lift (py_getitem actions factor) in
  let* view := lift (nd_axis2_get qB_f u) in
  let* view := lift (nd_iadd view (nd_scale lr dfdb)) in
  let* qB_f := lift (nd_axis2_set qB_f u view) in
  store l (CArr qB_f).

(** [update_state_likelihood_dirichlet(pB, B, actions, qs, qs_prev, lr,
    factors)] *)
Definition update_state_likelihood_dirichlet
    (pB : loc) (B : list (ndarray F)) (actions : list Z)
    (qs qs_prev : list (ndarray F)) (lr : F) (factors : option (list Z))
  : py F loc :=
  let* pB_items := load_obj pB in
  let num_factors := length pB_items in
  let* qB := deepcopy pB in
  let factors := default (py_range num_factors) factors in
  do* for_each factors (update_trans_body B actions qs qs_prev lr qB) in
  ret qB.

(** The body of [for factor in factors] in [update_state_prior_dirichlet]. *)
Definition update_prior_body (pD : loc) (qs : list (ndarray F)) (lr : F)
    (qD : loc) (factor : Z) : py F unit :=
  let* pD_f := obj_getitem pD factor in
  let idx := nd_gt0 pD_f in
  let* l := obj_getref qD factor in
  let* qD_f := load_arr l in
  let* cur := lift (mask_get qD_f idx) in
  let* q := lift (py_getitem qs factor) in
  let* q_idx := lift (mask_get q idx) in
  let* cur := lift (nd_iadd cur (nd_scale lr q_idx)) in
  let* qD_f := lift (mask_set qD_f idx cur) in
  store l (CArr qD_f).

(** [update_state_prior_dirichlet(pD, qs, lr, factors)] *)
Definition update_state_prior_dirichlet
    (pD : loc) (qs : list (ndarray F)) (lr : F) (factors : option (list Z))
  : py F loc :=
  let* pD_items := load_obj pD in
  let num_factors := length pD_items in
  let* qD := deepcopy pD in
  let factors := default (py_range num_factors) factors in
  do* for_each factors (update_prior_body pD qs lr qD) in
  ret qD.

(** ** Model reduction *)

(** [utils.norm_dist] and [utils.norm_dist_obj_arr] *)
Variable norm_dist : ndarray F -> ndarray F.
Variable norm_dist_obj_arr : list (ndarray F) -> list (ndarray F).

(** [a[levels]] and [a[np.ix_(...)]] *)
Definition slice (a : ndarray F) (idxs : list (list Z)) : py F (ndarray F) :=
  do* emit Sliced in
  lift (nd_ix a idxs).

Definition normalize (a : ndarray F) : py F (ndarray F) :=
  do* emit Normalized in
  ret (norm_dist a).

Definition normalize_obj_arr (As : list (ndarray F)) : py F (list (ndarray F)) :=
  do* emit Normalized in
  ret (norm_dist_obj_arr As).

(** [utils.is_obj_array(prior)] decides between the two forms. *)
Inductive prior_arg : Type :=
  | PlainPrior (p : ndarray F)
  | ObjPrior (ps : list (ndarray F)).

(** An object array made by [utils.obj_array] starts out filled with
    [None]. *)
Inductive prior_res : Type :=
  | PlainReduced (p : ndarray F)
  | ObjReduced (ps : list (option (ndarray F))).

(** The body of [for f, s_i in enumerate(prior)]. *)
Definition prune_prior_step (levels_to_remove : list pyitem) (dirichlet : bool)
    (st : list (option (ndarray F)) * list nat) (fs : nat * ndarray F)
  : py F (list (option (ndarray F)) * list nat) :=
  let '(reduced_prior, factors_to_remove) := st in
  let '(f, s_i) := fs in
  let* ns := lift (nd_len s_i) in
  let* item := lift (py_getitem levels_to_remove (Z.of_nat f)) in
  let* remove := lift (set_of_item item) in
  let levels_to_keep := levels_kept ns remove in
  if decide (length levels_to_keep = 0)
  then
    do* emit (Printed (prune_warning f)) in
    ret (reduced_prior, factors_to_remove ++ [f])
  else
    if negb dirichlet
    then
      let* kept := slice s_i [levels_to_keep] in
      let* kept := normalize kept in
      ret (<[f := Some kept]> reduced_prior, factors_to_remove)
    else raise (NotImplementedError prune_prior_msg).

(** [_prune_prior(prior, levels_to_remove, dirichlet)] *)
Definition _prune_prior (prior : prior_arg) (levels_to_remove : list pyitem)
    (dirichlet : bool) : py F prior_res :=
  match prior with
  | ObjPrior ps =>
      do* lift (py_assert (forallb is_list levels_to_remove)) in
      let num_factors := length ps in
      let reduced_prior := replicate num_factors None in
      let* st := for_fold (enumerate ps)
                   (prune_prior_step levels_to_remove dirichlet)
                   (reduced_prior, []) in
      let '(reduced_prior, factors_to_remove) := st in
      if decide (0 < length factors_to_remove)
      then
        let factors_to_keep :=
          levels_kept num_factors (map Z.of_nat factors_to_remove) in
        do* emit Sliced in
        let* kept := lift (rmap (py_getitem reduced_prior) factors_to_keep) in
        ret (ObjReduced kept)
      else ret (ObjReduced reduced_prior)
  | PlainPrior p =>
      do* lift (py_assert (forallb is_int levels_to_remove)) in
      let* ns := lift (nd_len p) in
      let* remove := lift (set_of_items levels_to_remove) in
      let levels_to_keep := levels_kept ns remove in
      if negb dirichlet
      then
        let* kept := slice p [levels_to_keep] in
        let* kept := normalize kept in
        ret (PlainReduced kept)
      else raise (NotImplementedError prune_prior_msg)
  end.

Inductive model_arg : Type :=
  | PlainModel (A : ndarray F)
  | ObjModel (As : list (ndarray F)).

(** The first part of [_prune_A]: the state levels to keep on every
    column axis. *)
Definition columns_to_keep (A : model_arg) (state_levels_to_prune : list pyitem)
  : result (list (list Z)) :=
  match A with
  | ObjModel As =>
      match As with
      | A_0 :: _ =>
          let num_states := drop 1 (shape A_0) in
          rmap (fun '(f, ns) =>
                  rbind (py_getitem state_levels_to_prune (Z.of_nat f)) (fun item =>
                  rbind (set_of_item item) (fun remove =>
                  ok (levels_kept ns remove))))
               (enumerate num_states)
      | [] => throw (IndexError "index 0 is out of bounds for axis 0 with size 0")
      end
  | PlainModel A =>
      match shape A with
      | _ :: num_states :: _ =>
          rbind (set_of_items state_levels_to_prune) (fun remove =>
          ok [levels_kept num_states remove])
      | _ => throw (IndexError "tuple index out of range")
      end
  end.

(** The body of [for m, A_i in enumerate(A)]. *)
Definition prune_A_step (obs_levels_to_prune : list pyitem)
    (columns_to_keep_list : list (list Z))
    (reduced_A : list (option (ndarray F))) (mA : nat * ndarray F)
  : py F (list (option (ndarray F))) :=
  let '(m, A_i) := mA in
  let* no := lift (shape0 A_i) in
  let* item := lift (py_getitem obs_levels_to_prune (Z.of_nat m)) in
  let* remove := lift (set_of_item item) in
  let rows_to_keep := levels_kept no remove in
  let* kept := slice A_i (rows_to_keep :: columns_to_keep_list) in
  ret (<[m := Some kept]> reduced_A).

(** [_prune_A(A, obs_levels_to_prune, state_levels_to_prune, dirichlet)] *)
Definition _prune_A (A : model_arg) (obs_levels_to_prune : list pyitem)
    (state_levels_to_prune : list pyitem) (dirichlet : bool)
  : py F model_arg :=
  let* columns_to_keep_list :=
    lift (columns_to_keep A state_levels_to_prune) in
  match A with
  | ObjModel As =>
      do* lift (py_assert (forallb is_list obs_levels_to_prune)) in
      let num_modalities := length As in
      let reduced_A := replicate num_modalities None in
      let* reduced_A :=
        for_fold (enumerate As)
          (prune_A_step obs_levels_to_prune columns_to_keep_list) reduced_A in
      if negb dirichlet
      then
        let* reduced_A := normalize_obj_arr (omap id reduced_A) in
        ret (ObjModel reduced_A)
      else raise (NotImplementedError prune_A_msg)
  | PlainModel A =>
      do* lift (py_assert (forallb is_int obs_levels_to_prune)) in
      let* no := lift (shape0 A) in
      let* remove := lift (set_of_items obs_levels_to_prune) in
      let rows_to_keep := levels_kept no remove in
      let* reduced_A := slice A (rows_to_keep :: columns_to_keep_list) in
      if negb dirichlet
      then
        let* reduced_A := normalize reduced_A in
        ret (PlainModel reduced_A)
      else raise (NotImplementedError prune_A_msg)
  end.
End Learning.

Arguments prior_arg F : clear implicits.
Arguments prior_res F : clear implicits.
Arguments model_arg F : clear implicits.

(* ===================================================================== *)
(** * Part V.  [inferactively/core/inference.py]                         *)
(* ===================================================================== *)

(** The module-level constants [FPI = "FPI"], ..., [CV = "CV"]. *)
Inductive method_const : Type := FPI | VMP | MMP | BP | EP | CV.

#[global] Instance method_const_eq_dec : EqDecision method_const.
Proof. solve_decision. Defined.

Definition method_name (c : method_const) : string :=
  match c with
  | FPI => "FPI"
  | VMP => "VMP"
  | MMP => "MMP"
  | BP => "BP"
  | EP => "EP"
  | CV => "CV"
  end.

(** The object passed as [method]: the very object bound to one of the six
    module-level names, or any other object, written as it prints (an equal
    string that was built at run time is another object). *)
Inductive method_arg : Type :=
  | Const (c : method_const)
  | Other (text : string).

(** [method is C]: identity of objects, not equality of strings. *)
Definition py_is (method : method_arg) (c : method_const) : bool :=
  match method with
  | Const c' => bool_decide (c' = c)
  | Other _ => false
  end.

(** [f"{method}"] *)
Definition method_str (method : method_arg) : string :=
  match method with
  | Const c => method_name c
  | Other text => text
  end.

(** A numeric array, or an object array of numeric arrays
    ([utils.is_arr_of_arr]). *)
Inductive arrays (F : Type) : Type :=
  | Single (a : ndarray F)
  | ArrOfArr (l : list (ndarray F)).
Arguments Single {F} a.
Arguments ArrOfArr {F} l.

(** [a.squeeze()] *)
Definition nd_squeeze {T : Type} (a : ndarray T) : ndarray T :=
  NdArray (filter (fun n => n ≠ 1) (shape a)) (data a).

Section Inference.
Context {F : Type} `{Scalar F}.
Local Open Scope py_scope.

(** The [Categorical] wrapper class and what the module asks of it. *)
Variable categorical : Type.
(** [utils.to_numpy(x)] for a [Categorical] [x] *)
Variable to_numpy : categorical -> arrays F.
(** [x.values.squeeze()] and [x[factor].values.squeeze()] *)
Variable values_squeeze : categorical -> ndarray F.
Variable factor_values_squeeze : categorical -> nat -> result (ndarray F).
(** [utils.to_arr_of_arr], [utils.to_categorical] *)
Variable to_arr_of_arr : ndarray F -> list (ndarray F).
Variable to_categorical : list (ndarray F) -> categorical.

(** [run_fpi] of [inferactively.core.algos], with its keyword arguments. *)
Variable kwargs : Type.
Variable run_fpi :
  arrays F -> arrays F -> list nat -> list nat -> option (list (ndarray F)) ->
  kwargs -> py F (list (ndarray F)).

Inductive model_in : Type :=
  | ModelCategorical (c : categorical)
  | ModelNumpy (a : arrays F).

Inductive obs_in : Type :=
  | ObsCategorical (c : categorical)
  | ObsInt (i : Z)
  | ObsTuple (t : list Z)
  | ObsNumpy (a : arrays F).

Inductive prior_in : Type :=
  | PriorCategorical (c : categorical)
  | PriorNumpy (a : arrays F).

Inductive posterior : Type :=
  | PosteriorNumpy (qs : list (ndarray F))
  | PosteriorCategorical (c : categorical).

(** [np.eye(n)[i]] *)
Definition eye_row (n : nat) (i : Z) : result (ndarray F) :=
  match norm_index n i with
  | Some k =>
      ok (NdArray [n] (map (fun j => if decide (j = k) then fone else fzero)
                           (seq 0 n)))
  | None => throw (IndexError "index is out of bounds for axis 0")
  end.

(** "collect model dimensions" *)
Definition model_dims (A : arrays F) : result (Z * list nat * nat * list nat) :=
  match A with
  | ArrOfArr l =>
      rbind (py_getitem l 0) (fun A_0 =>
      let n_factors := (Z.of_nat (length (shape A_0)) - 1)%Z in
      let n_states := drop 1 (shape A_0) in
      let n_modalities := length l in
      rbind (rmap shape0 l) (fun n_observations =>
      ok (n_factors, n_states, n_modalities, n_observations)))
  | Single A =>
      let n_factors := (Z.of_nat (length (shape A)) - 1)%Z in
      let n_states := drop 1 (shape A) in
      rbind (shape0 A) (fun no =>
      ok (n_factors, n_states, 1, [no]))
  end.

(** The squeezing of a [Categorical] observation. *)
Definition squeeze_obs (n_modalities : nat) (obs : arrays F) : result (arrays F) :=
  if decide (n_modalities = 1)
  then ok (match obs with
           | Single a => Single (nd_squeeze a)
           | ArrOfArr l => ArrOfArr l
           end)
  else
    match obs with
    | ArrOfArr l =>
        if decide (n_modalities <= length l)
        then ok (ArrOfArr (map nd_squeeze (take n_modalities l)
                           ++ drop n_modalities l))
        else throw (IndexError "index is out of bounds for axis 0")
    | Single a =>
        match shape a with
        | n :: _ =>
            if decide (n_modalities <= n) then ok (Single a)
            else throw (IndexError "index is out of bounds for axis 0")
        | [] => throw (IndexError "too many indices for array")
        end
    end.

(** [process_observations(obs, n_modalities, n_observations)] *)
Definition process_observations (obs : obs_in) (n_modalities : nat)
    (n_observations : list nat) : result (arrays F) :=
  match obs with
  | ObsCategorical c => squeeze_obs n_modalities (to_numpy c)
  | ObsInt i =>
      rbind (py_getitem n_observations 0) (fun n => 
      rbind (eye_row n i) (fun o => ok (Single o)))
  | ObsTuple t =>
      rbind (rmap (fun m =>
               rbind (py_getitem n_observations (Z.of_nat m)) (fun n =>
               rbind (py_getitem t (Z.of_nat m)) (fun i =>
               eye_row n i)))
             (seq 0 n_modalities)) (fun l =>
      ok (ArrOfArr l))
  | ObsNumpy a => ok a
  end.

(** [process_priors(prior, n_factors)] *)
Definition process_priors (prior : prior_in) (n_factors : Z)
  : result (list (ndarray F)) :=
  match prior with
  | PriorCategorical c =>
      if decide (n_factors < 0)%Z
      then throw (ValueError "negative dimensions are not allowed")
      else if decide (n_factors = 1)%Z
      then ok [values_squeeze c]
      else rmap (factor_values_squeeze c) (seq 0 (Z.to_nat n_factors))
  | PriorNumpy (ArrOfArr l) => ok l
  | PriorNumpy (Single a) => ok (to_arr_of_arr a)
  end.

(** Everything that [update_posterior_states] does before it looks at
    [method]: conversion of [A], the model dimensions, the formatting of the
    observation and of the prior. *)
Definition preprocess (A : model_in) (obs : obs_in) (prior : option prior_in)
  : result (arrays F * arrays F * list nat * list nat * option (list (ndarray F))) :=
  let A := match A with
           | ModelCategorical c => to_numpy c
           | ModelNumpy a => a
           end in
  rbind (model_dims A) (fun '(n_factors, n_states, n_modalities, n_observations) =>
  rbind (process_observations obs n_modalities n_observations) (fun obs =>
  rbind (match prior with
         | Some p => rbind (process_priors p n_factors) (fun p => ok (Some p))
         | None => ok None
         end) (fun prior =>
  ok (A, obs, n_observations, n_states, prior)))).

(** [update_posterior_states(A, obs, prior, return_numpy, method,
    **kwargs)] *)
Definition update_posterior_states (A : model_in) (obs : obs_in)
    (prior : option prior_in) (return_numpy : bool) (method : method_arg)
    (kw : kwargs) : py F posterior :=
  let A := match A with
           | ModelCategorical c => to_numpy c
           | ModelNumpy a => a
           end in
  let* dims := lift (model_dims A) in
  let '(n_factors, n_states, n_modalities, n_observations) := dims in
  let* obs := lift (process_observations obs n_modalities n_observations) in
  let* prior :=
    match prior with
    | Some p => let* p := lift (process_priors p n_factors) in ret (Some p)
    | None => ret None
    end in
  let* qs :=
    if py_is method FPI then
      do* emit (Called "run_fpi") in
      run_fpi A obs n_observations n_states prior kw
    else if py_is method VMP then
      raise (NotImplementedError (method_name VMP +:+ " is not implemented"))
    else if py_is method MMP then
      raise (NotImplementedError (method_name MMP +:+ " is not implemented"))
    else if py_is method BP then
      raise (NotImplementedError (method_name BP +:+ " is not implemented"))
    else if py_is method EP then
      raise (NotImplementedError (method_name EP +:+ " is not implemented"))
    else if py_is method CV then
      raise (NotImplementedError (method_name CV +:+ " is not implemented"))
    else
      raise (ValueError (method_str method +:+ " is not implemented")) in
  if return_numpy
  then ret (PosteriorNumpy qs)
  else ret (PosteriorCategorical (to_categorical qs)).
End Inference.

Arguments ModelCategorical {F categorical} c.
Arguments ModelNumpy {F categorical} a.
Arguments ObsCategorical {F categorical} c.
Arguments ObsInt {F categorical} i.
Arguments ObsTuple {F categorical} t.
Arguments ObsNumpy {F categorical} a.
Arguments PriorCategorical {F categorical} c.
Arguments PriorNumpy {F categorical} a.
Arguments PosteriorNumpy {F categorical} qs.
Arguments PosteriorCategorical {F categorical} c.

(* ===================================================================== *)
(** * Part VI.  [pymdp/algos/fpi.py]                                     *)
(* ===================================================================== *)

(** The names bound at module level in [fpi.py]: its imports and its two
    functions. *)
Definition fpi_module_names : list string :=
  ["np"; "spm_dot"; "get_joint_likelihood"; "softmax"; "calc_free_energy";
   "spm_log_single"; "spm_log_obj_array"; "to_arr_of_arr"; "obj_array_uniform";
   "chain"; "run_vanilla_fpi"; "_run_vanilla_fpi_faster"].

(** The builtins that [fpi.py] refers to. *)
Definition fpi_builtin_names : list string :=
  ["len"; "range"; "enumerate"; "list"; "tuple"; "object"; "int"].

Section Fpi.
Context {F : Type} `{Scalar F}.
Local Open Scope result_scope.

(** Floating-point and numpy operations beyond those of [Scalar]. *)
(** [x >= y] *)
Variable fge : F -> F -> bool.
(** [np.abs(x - y)] *)
Variable fabs_diff : F -> F -> F.
(** [np.ones(n) / n] *)
Variable uniform : nat -> ndarray F.
(** [a / b] *)
Variable nd_div : ndarray F -> ndarray F -> result (ndarray F).
(** [np.einsum(T, list(range(n)), [k])]: [T] summed over every axis but
    [k]. *)
Variable einsum_keep : ndarray F -> nat -> nat -> result (ndarray F).

(** The helpers imported from [pymdp.maths] and [pymdp.utils]. *)
Variable get_joint_likelihood :
  list (ndarray F) -> arrays F -> list nat -> result (ndarray F).
Variable spm_log_single : ndarray F -> result (ndarray F).
Variable spm_log_obj_array : list (ndarray F) -> result (list (ndarray F)).
Variable obj_array_uniform : list nat -> list (ndarray F).
Variable calc_free_energy :
  list (ndarray F) -> list (ndarray F) -> nat -> option (ndarray F) -> result F.
Variable spm_dot : ndarray F -> list (ndarray F) -> list Z -> result (ndarray F).
Variable softmax : ndarray F -> result (ndarray F).
Variable to_arr_of_arr : ndarray F -> list (ndarray F).

(** ** Name resolution *)

Inductive pyval : Type :=
  | VNone
  | VInt (n : Z)
  | VFloat (x : F)
  | VInts (l : list nat)
  | VArrays (a : arrays F)
  | VGlobal.

(** A name is looked up among the local variables, then at module level,
    then among the builtins. *)
Definition load_name (locals : gmap string pyval) (x : string) : result pyval :=
  match locals !! x with
  | Some v => ok v
  | None =>
      if bool_decide (x ∈ fpi_module_names ++ fpi_builtin_names)
      then ok VGlobal
      else throw (NameError x)
  end.

(** [len(v)] *)
Definition py_len (v : pyval) : result nat :=
  match v with
  | VInts l => ok (length l)
  | VArrays (ArrOfArr l) => ok (length l)
  | VArrays (Single a) => nd_len a
  | _ => throw (TypeError "object has no len()")
  end.

(** The local variables of [run_vanilla_fpi] when its body starts: its
    parameters. *)
Definition fpi_locals (A : list (ndarray F)) (obs : arrays F)
    (num_obs num_states : list nat) (prior : option (list (ndarray F)))
    (num_iter : Z) (dF dF_tol : F) : gmap string pyval :=
  list_to_map
    [("A", VArrays (ArrOfArr A)); ("obs", VArrays obs);
     ("num_obs", VInts num_obs); ("num_states", VInts num_states);
     ("prior", match prior with
               | Some p => VArrays (ArrOfArr p)
               | None => VNone
               end);
     ("num_iter", VInt num_iter); ("dF", VFloat dF); ("dF_tol", VFloat dF_tol)].

(** ** The loop of step 5 *)

Record fpi_state : Type := FpiState {
  st_qs : list (ndarray F);
  st_prev_vfe : F;
  st_dF : F;
  st_curr_iter : Z
}.

(** [a[..., None]] *)
Definition expand_last (a : ndarray F) : ndarray F :=
  NdArray (shape a ++ [1]) (data a).

(** [qs_all = qs[0]; for factor in range(n_factors-1): qs_all =
    qs_all[...,None]*qs[factor+1]] *)
Definition joint_of (qs : list (ndarray F)) (n_factors : nat)
  : result (ndarray F) :=
  let? q0 := py_getitem qs 0 in
  rfold (fun qs_all factor =>
           let? q := py_getitem qs (Z.of_nat factor + 1) in
           nd_mul (expand_last qs_all) q)
        (seq 0 (n_factors - 1)) q0.

(** [for factor, qs_i in enumerate(qs): ...]: every marginal is recomputed
    from the one tensor [LL_tensor] built before the loop. *)
Definition update_marginals (LL_tensor : ndarray F) (prior : list (ndarray F))
    (n_factors : nat) (qs : list (ndarray F)) : result (list (ndarray F)) :=
  rfold (fun qs' '(factor, qs_i) =>
           let? s := einsum_keep LL_tensor n_factors factor in
           let? qL := nd_div s qs_i in
           let? p := py_getitem prior (Z.of_nat factor) in
           let? x := nd_add qL p in
           let? q := softmax x in
           ok (<[factor := q]> qs'))
        (enumerate qs) qs.

(** One pass through the body of the [while] loop. *)
Definition fpi_iteration (likelihood : ndarray F) (prior : list (ndarray F))
    (n_factors : nat) (st : fpi_state) : result fpi_state :=
  let? qs_all := joint_of (st_qs st) n_factors in
  let? LL_tensor := nd_mul likelihood qs_all in
  let? qs := update_marginals LL_tensor prior n_factors (st_qs st) in
  let? vfe := calc_free_energy qs prior n_factors (Some likelihood) in
  let dF := fabs_diff (st_prev_vfe st) vfe in
  ok (FpiState qs vfe dF (st_curr_iter st + 1)).

(** [n] passes through the body of the loop, one after the other. *)
Definition fpi_passes (n : nat) (likelihood : ndarray F)
    (prior : list (ndarray F)) (n_factors : nat) (st : fpi_state)
  : result fpi_state :=
  Nat.iter n (fun r => rbind r (fpi_iteration likelihood prior n_factors))
    (ok st).

(** [curr_iter < num_iter and dF >= dF_tol] *)
Definition fpi_continue (num_iter : Z) (dF_tol : F) (st : fpi_state) : bool :=
  bool_decide (st_curr_iter st < num_iter)%Z && fge (st_dF st) dF_tol.

(** [while curr_iter < num_iter and dF >= dF_tol: ...].  A [while] loop has
    no bound of its own: [fuel] counts the tests of the condition that the
    run may make, and [None] says that it would need more. *)
Fixpoint fpi_while (fuel : nat) (likelihood : ndarray F)
    (prior : list (ndarray F)) (n_factors : nat) (num_iter : Z) (dF_tol : F)
    (st : fpi_state) : option (result fpi_state) :=
  match fuel with
  | O => None
  | S fuel' =>
      if fpi_continue num_iter dF_tol st
      then
        match fpi_iteration likelihood prior n_factors st with
        | inr st' => fpi_while fuel' likelihood prior n_factors num_iter dF_tol st'
        | inl e => Some (inl e)
        end
      else Some (ok st)
  end.

(** ** [run_vanilla_fpi] *)

(** Lines 53 to 149: the body after its first statement. *)
Definition fpi_after_dims (fuel : nat) (A : list (ndarray F)) (obs : arrays F)
    (num_states : list nat) (prior : option (list (ndarray F)))
    (num_iter : Z) (dF dF_tol : F) : option (result (list (ndarray F))) :=
  let n_factors := length num_states in
  let setup :=
    let? likelihood := get_joint_likelihood A obs num_states in
    let? likelihood := spm_log_single likelihood in
    let qs := map uniform num_states in
    let prior := default (obj_array_uniform num_states) prior in
    let? prior := spm_log_obj_array prior in
    let? prev_vfe := calc_free_energy qs prior n_factors None in
    ok (likelihood, qs, prior, prev_vfe) in
  match setup with
  | inl e => Some (inl e)
  | inr (likelihood, qs, prior, prev_vfe) =>
      if decide (n_factors = 1)
      then
        Some (let? qL := spm_dot likelihood qs [0%Z] in
              let? p := py_getitem prior 0 in
              let? x := nd_add qL p in
              let? q := softmax x in
              ok (to_arr_of_arr q))
      else
        match fpi_while fuel likelihood prior n_factors num_iter dF_tol
                (FpiState qs prev_vfe dF 0) with
        | Some (inr st) => Some (ok (st_qs st))
        | Some (inl e) => Some (inl e)
        | None => None
        end
  end.

(** [run_vanilla_fpi(A, obs, num_obs, num_states, prior, num_iter, dF,
    dF_tol)].  Its first statement is [n_modalities =
    len(num_observations)]. *)
Definition run_vanilla_fpi (fuel : nat) (A : list (ndarray F)) (obs : arrays F)
    (num_obs num_states : list nat) (prior : option (list (ndarray F)))
    (num_iter : Z) (dF dF_tol : F) : option (result (list (ndarray F))) :=
  let locals := fpi_locals A obs num_obs num_states prior num_iter dF dF_tol in
  match (let? v := load_name locals "num_observations" in py_len v) with
  | inl e => Some (inl e)
  | inr n_modalities =>
      fpi_after_dims fuel A obs num_states prior num_iter dF dF_tol
  end.
End Fpi.

Arguments pyval F : clear implicits.
Arguments fpi_state F : clear implicits.

(* ===================================================================== *)
(** * Part VII.  The learning rules as the specification words them      *)
(* ===================================================================== *)

(** The selection of modalities or factors, with every index brought into
    [0, n); [None] is the default ["all"]. *)
Definition selection (n : nat) (sel : option (list Z)) : option (list nat) :=
  mapM (norm_index n) (default (py_range n) sel).

Section Rules.
Context {F : Type} `{Scalar F}.

(** "mask [delta] to zero wherever [A[m]] is exactly zero" *)
Definition masked (a d : F) : F := if fgt0 a then d else fzero.

(** "[pA[m] += lr * maskedDelta]" *)
Definition obs_rule (lr : F) (p a delta : ndarray F) : ndarray F :=
  NdArray (shape p)
    (zip_with (fun x '(a, d) => fadd x (fmul lr (masked a d)))
       (data p) (zip (data a) (data delta))).

(** "only indices where [pD[f] > 0] receive [pD[f][idx] += lr *
    qs[f][idx]]" *)
Definition prior_rule (lr : F) (p q : ndarray F) : ndarray F :=
  NdArray (shape p)
    (zip_with (fun x y => if fgt0 x then fadd x (fmul lr y) else x)
       (data p) (data q)).

(** The three loops on the values of the copied arrays: what happens to
    the list of sub-arrays in one pass of each body. *)
Definition obs_step (A obs qs : list (ndarray F)) (lr : F)
    (qA : list (ndarray F)) (modality : Z) : result (list (ndarray F)) :=
  rbind (py_getitem obs modality) (fun o =>
  let dfda := spm_cross o qs in
  rbind (py_getitem A modality) (fun A_m =>
  rbind (nd_mul dfda (astype_float (nd_gt0 A_m))) (fun dfda =>
  rbind (py_getitem qA modality) (fun qA_m =>
  rbind (nd_add qA_m (nd_scale lr dfda)) (fun new =>
  match norm_index (length qA) modality with
  | Some k => ok (<[k := new]> qA)
  | None => throw (IndexError "index out of range")
  end))))).

Definition trans_step (B : list (ndarray F)) (actions : list Z)
    (qs qs_prev : list (ndarray F)) (lr : F)
    (qB : list (ndarray F)) (factor : Z) : result (list (ndarray F)) :=
  rbind (py_getitem qs factor) (fun q =>
  rbind (py_getitem qs_prev factor) (fun q_prev =>
  let dfdb := spm_cross q [q_prev] in
  rbind (py_getitem B factor) (fun B_f =>
  rbind (py_getitem actions factor) (fun u =>
  rbind (nd_axis2_get B_f u) (fun B_fu =>
  rbind (nd_imul dfdb (astype_float (nd_gt0 B_fu))) (fun dfdb =>
  rbind (py_getitem qB factor) (fun qB_f =>
  rbind (nd_axis2_get qB_f u) (fun view =>
  rbind (nd_iadd view (nd_scale lr dfdb)) (fun view =>
  rbind (nd_axis2_set qB_f u view) (fun qB_f =>
  match norm_index (length qB) factor with
  | Some k => ok (<[k := qB_f]> qB)
  | None => throw (IndexError "index out of range")
  end)))))))))).

Definition prior_step (pD qs : list (ndarray F)) (lr : F)
    (qD : list (ndarray F)) (factor : Z) : result (list (ndarray F)) :=
  rbind (py_getitem pD factor) (fun pD_f =>
  let idx := nd_gt0 pD_f in
  rbind (py_getitem qD factor) (fun qD_f =>
  rbind (mask_get qD_f idx) (fun cur =>
  rbind (py_getitem qs factor) (fun q =>
  rbind (mask_get q idx) (fun q_idx =>
  rbind (nd_iadd cur (nd_scale lr q_idx)) (fun cur =>
  rbind (mask_set qD_f idx cur) (fun qD_f =>
  match norm_index (length qD) factor with
  | Some k => ok (<[k := qD_f]> qD)
  | None => throw (IndexError "index out of range")
  end))))))).

(** The index on the third axis that the action [u] names in [p]. *)
Definition action_slot (p : ndarray F) (u : Z) : option nat :=
  match shape p with
  | _ :: _ :: n2 :: _ => norm_index n2 u
  | _ => None
  end.

(** Well-shaped arguments: as many model tensors and observations as
    Dirichlet tensors, and for every modality a sufficient statistic and a
    model tensor of the shape of the Dirichlet tensor. *)
Definition obs_args_ok (pA A obs qs : list (ndarray F)) : bool :=
  bool_decide (length A = length pA) && bool_decide (length obs = length pA) &&
  forallb (fun '(p, (a, o)) =>
             bool_decide (nd_wf p) && bool_decide (nd_wf a) &&
             bool_decide (nd_wf o) && bool_decide (shape a = shape p) &&
             bool_decide (shape (spm_cross o qs) = shape p) &&
             bool_decide (shape p ≠ []))
          (zip pA (zip A obs)) &&
  forallb (fun q => bool_decide (nd_wf q)) qs.

(** For every factor a prior vector and a belief of one shape. *)
Definition prior_args_ok (pD qs : list (ndarray F)) : bool :=
  bool_decide (length qs = length pD) &&
  forallb (fun '(p, q) =>
             bool_decide (nd_wf p) && bool_decide (nd_wf q) &&
             bool_decide (shape q = shape p))
          (zip pD qs).

(** For every factor an action, and tensors [pB[f]] and [B[f]] of one
    shape [(n0, n1, n2)] for beliefs of lengths [n0] and [n1]. *)
Definition trans_args_ok (pB B : list (ndarray F)) (actions : list Z)
    (qs qs_prev : list (ndarray F)) : bool :=
  bool_decide (length B = length pB) && bool_decide (length actions = length pB) &&
  bool_decide (length qs = length pB) && bool_decide (length qs_prev = length pB) &&
  forallb (fun '(p, (b, (u, (q, q')))) =>
             bool_decide (nd_wf p) && bool_decide (nd_wf b) &&
             bool_decide (nd_wf q) && bool_decide (nd_wf q') &&
             bool_decide (shape b = shape p) &&
             match shape p with
             | [n0; n1; n2] =>
                 bool_decide (shape q = [n0]) && bool_decide (shape q' = [n1]) &&
                 bool_decide (is_Some (norm_index n2 u))
             | _ => false
             end)
          (zip pB (zip B (zip actions (zip qs qs_prev)))).
End Rules.

(** ** What the store holds *)

Section StoreInvariants.
Context {F : Type}.

(** The object array behind [q] holds the references [items], and behind
    these are the arrays [vals]. *)
Definition holds (h : gmap loc (cell F)) (q : loc) (items : list loc)
    (vals : list (ndarray F)) : Prop :=
  h !! q = Some (CObj items) /\
  Forall2 (fun l v => h !! l = Some (CArr v)) items vals.

(** Every object of [w0] is in [w] as it was, and the trace is that of
    [w0]. *)
Definition extends (w0 w : world F) : Prop :=
  (forall l : loc, is_Some (heap w0 !! l) -> heap w !! l = heap w0 !! l) /\
  trace w = trace w0.
End StoreInvariants.

(** ** Pruning requests *)

Definition is_printed (ev : event) : bool :=
  match ev with
  | Printed _ => true
  | _ => false
  end.

Section Requests.
Context {F : Type}.

(** The request removes every level of factor [f], whose vector is [s_i]. *)
Definition removes_all (levels_to_remove : list pyitem) (fs : nat * ndarray F)
  : bool :=
  match shape (snd fs), levels_to_remove !! fst fs with
  | n :: _, Some (PList l) => bool_decide (levels_kept n l = [])
  | _, _ => false
  end.

(** A request on a multi-factor prior in the form that the docstring
    asks for: one list of levels per factor, and every factor a vector. *)
Definition prune_prior_args_ok (ps : list (ndarray F))
    (levels_to_remove : list pyitem) : bool :=
  forallb is_list levels_to_remove &&
  bool_decide (length ps <= length levels_to_remove) &&
  forallb (fun s : ndarray F => bool_decide (shape s ≠ [])) ps.

(** A request on a single vector: level numbers, and the prior a vector. *)
Definition prune_plain_args_ok (p : ndarray F) (levels_to_remove : list pyitem)
  : bool :=
  forallb is_int levels_to_remove && bool_decide (shape p ≠ []).
End Requests.

(* ===================================================================== *)
(** * Part VII, continued.  More of the three files                    *)
(* ===================================================================== *)

(** ** [_prune_B] of [learning.py] *)

(** [a.shape[2]] *)
Definition shape2 {T : Type} (a : ndarray T) : result nat :=
  match shape a with
  | _ :: _ :: n :: _ => ok n
  | _ => throw (IndexError "tuple index out of range")
  end.

Section Transitions.
Context {F : Type}.
Local Open Scope py_scope.

(** [utils.norm_dist] and [utils.norm_dist_obj_arr] *)
Variable norm_dist : ndarray F -> ndarray F.
Variable norm_dist_obj_arr : list (ndarray F) -> list (ndarray F).

(** The first part of [_prune_B] for an object array: the control levels
    to keep, factor by factor. *)
Definition slices_to_keep_list (Bs : list (ndarray F))
    (action_levels_to_prune : list pyitem) : result (list (list Z)) :=
  rbind (rmap shape2 Bs) (fun num_controls =>
  rmap (fun '(c, nc) =>
          rbind (py_getitem action_levels_to_prune (Z.of_nat c)) (fun item =>
          rbind (set_of_item item) (fun remove =>
          ok (levels_kept nc remove))))
       (enumerate num_controls)).

(** The same for a single tensor. *)
Definition slices_to_keep (B : ndarray F) (action_levels_to_prune : list pyitem)
  : result (list Z) :=
  rbind (shape2 B) (fun num_controls =>
  rbind (set_of_items action_levels_to_prune) (fun remove =>
  ok (levels_kept num_controls remove))).

(** The body of [for f, B_f in enumerate(B)]. *)
Definition prune_B_step (state_levels_to_prune : list pyitem)
    (slices : list (list Z))
    (reduced_B : list (option (ndarray F))) (fB : nat * ndarray F)
  : py F (list (option (ndarray F))) :=
  let '(f, B_f) := fB in
  let* ns := lift (shape0 B_f) in
  let* item := lift (py_getitem state_levels_to_prune (Z.of_nat f)) in
  let* remove := lift (set_of_item item) in
  let states_to_keep := levels_kept ns remove in
  let* slices_f := lift (py_getitem slices (Z.of_nat f)) in
  let* kept := slice B_f [states_to_keep; states_to_keep; slices_f] in
  ret (<[f := Some kept]> reduced_B).

(** [_prune_B(B, state_levels_to_prune, action_levels_to_prune,
    dirichlet)].  The source tests [utils.is_obj_array(B)] twice, once for
    the control levels and once for the rest; both tests are the one
    [match] here. *)
Definition _prune_B (B : model_arg F) (state_levels_to_prune : list pyitem)
    (action_levels_to_prune : list pyitem) (dirichlet : bool)
  : py F (model_arg F) :=
  match B with
  | ObjModel Bs =>
      let* slices := lift (slices_to_keep_list Bs action_levels_to_prune) in
      do* lift (py_assert (forallb is_list state_levels_to_prune)) in
      let num_factors := length Bs in
      let reduced_B := replicate num_factors None in
      let* reduced_B :=
        for_fold (enumerate Bs)
          (prune_B_step state_levels_to_prune slices) reduced_B in
      if negb dirichlet
      then
        let* reduced_B :=
          normalize_obj_arr norm_dist_obj_arr (omap id reduced_B) in
        ret (ObjModel reduced_B)
      else raise (NotImplementedError prune_A_msg)
  | PlainModel B =>
      let* slices := lift (slices_to_keep B action_levels_to_prune) in
      do* lift (py_assert (forallb is_int state_levels_to_prune)) in
      let* ns := lift (shape0 B) in
      let* remove := lift (set_of_items state_levels_to_prune) in
      let states_to_keep := levels_kept ns remove in
      let* reduced_B := slice B [states_to_keep; states_to_keep; slices] in
      if negb dirichlet
      then
        let* reduced_B := normalize norm_dist reduced_B in
        ret (PlainModel reduced_B)
      else raise (NotImplementedError prune_A_msg)
  end.
End Transitions.

(** ** [_run_vanilla_fpi_faster] of [fpi.py] *)

(** What the caller passes as [n_observations] and [n_states]: the
    docstring allows "int or list of ints". *)
Inductive dims : Type :=
  | DimInt (n : Z)
  | DimList (l : list nat).

(** [len(d)] succeeds on a list only, and what it measures then is the
    list. *)
Definition dims_list (d : dims) : result (list nat) :=
  match d with
  | DimList l => ok l
  | DimInt _ => throw (TypeError "object of type 'int' has no len()")
  end.

(** [a.reshape(s)] *)
Definition nd_reshape {T : Type} (a : ndarray T) (s : list nat)
  : result (ndarray T) :=
  if decide (size (shape a) = size s) then ok (NdArray s (data a))
  else throw (ValueError "cannot reshape array").

(** [s = np.ones(np.ndim(L), dtype=int); s[factor] = len(q)] *)
Definition axis_shape {T : Type} (L q : ndarray T) (factor : nat)
  : result (list nat) :=
  rbind (nd_len q) (fun n =>
  if decide (factor < length (shape L))
  then ok (<[factor := n]> (replicate (length (shape L)) 1))
  else throw (IndexError "index is out of bounds for axis 0")).

Section FpiFaster.
Context {F : Type} `{Scalar F}.
Local Open Scope result_scope.

(** Floating-point and numpy operations beyond those of [Scalar]. *)
(** [x >= y] *)
Variable fge : F -> F -> bool.
(** [np.abs(x - y)] *)
Variable fabs_diff : F -> F -> F.
(** [1.0 / x] *)
Variable frecip : F -> F.
(** [np.log(a + 1e-16)] *)
Variable log_eps : ndarray F -> ndarray F.
(** [np.ones(n) / n] *)
Variable uniform : nat -> ndarray F.
(** [np.sum(a, axes)] *)
Variable sum_axes : ndarray F -> list nat -> result (ndarray F).

(** The helpers imported from [pymdp.maths]. *)
Variable get_joint_likelihood :
  arrays F -> arrays F -> list nat -> result (ndarray F).
Variable calc_free_energy :
  list (ndarray F) -> list (ndarray F) -> nat -> option (ndarray F) -> result F.
Variable spm_dot : ndarray F -> list (ndarray F) -> list Z -> result (ndarray F).
Variable softmax : ndarray F -> result (ndarray F).

(** The body of the first inner loop, [for factor in factor_order]: the
    marginal of [factor] is multiplied into [L].  The loop variable stays
    bound when the loop is over; it is the second component. *)
Definition multiply_in (qs : list (ndarray F))
    (st : ndarray F * option nat) (factor : nat)
  : result (ndarray F * option nat) :=
  let '(L, _) := st in
  let? q := py_getitem qs (Z.of_nat factor) in
  let? s := axis_shape L q factor in
  let? x := nd_reshape q s in
  let? L := nd_imul L x in
  ok (L, Some factor).

(** The body of the second inner loop, [for f in factor_order]: it reads and
    writes [qs[factor]], with [factor] as the first loop left it, and uses
    [f] for the axes to sum over only.  (The second assignment to [temp]
    repeats the first and is not used.)  Reading a local variable that was
    never bound raises [UnboundLocalError], a [NameError]. *)
Definition marginal_out (L : ndarray F) (prior : list (ndarray F))
    (n_factors : nat) (factor : option nat) (qs : list (ndarray F)) (f : nat)
  : result (list (ndarray F)) :=
  match factor with
  | None => throw (NameError "factor")
  | Some factor =>
      let? q := py_getitem qs (Z.of_nat factor) in
      let? s := axis_shape L q factor in
      let? x := nd_reshape (nd_map frecip q) s in
      let? temp := nd_mul L x in
      let dims2sum := filter (fun d => d ≠ f) (seq 0 n_factors) in
      let? qL := sum_axes temp dims2sum in
      let? p := py_getitem prior (Z.of_nat factor) in
      let? y := nd_add qL p in
      let? q_new := softmax y in
      if decide (factor < length qs)
      then ok (<[factor := q_new]> qs)
      else throw (IndexError "index is out of bounds for axis 0")
  end.

(** The body of [for factor_order in factor_orders]. *)
Definition faster_sweep (likelihood : ndarray F) (prior : list (ndarray F))
    (n_factors : nat) (st : list (ndarray F) * option nat)
    (factor_order : list nat) : result (list (ndarray F) * option nat) :=
  let '(qs, factor) := st in
  let? Lf := rfold (multiply_in qs) factor_order (likelihood, factor) in
  let '(L, factor) := Lf in
  let? qs := rfold (marginal_out L prior n_factors factor) factor_order qs in
  ok (qs, factor).

(** One pass through the body of the [while] loop; the state of the loop
    is that of [run_vanilla_fpi] together with the variable [factor]. *)
Definition faster_iteration (likelihood : ndarray F) (prior : list (ndarray F))
    (n_factors : nat) (st : fpi_state F * option nat)
  : result (fpi_state F * option nat) :=
  let '(s, factor) := st in
  let factor_orders := [seq 0 n_factors; reverse (seq 0 n_factors)] in
  let? r := rfold (faster_sweep likelihood prior n_factors) factor_orders
              (st_qs s, factor) in
  let '(qs, factor) := r in
  let? vfe := calc_free_energy qs prior n_factors (Some likelihood) in
  let dF := fabs_diff (st_prev_vfe s) vfe in
  ok (FpiState qs vfe dF (st_curr_iter s + 1), factor).

(** [n] passes through the body of the loop, one after the other. *)
Definition faster_passes (n : nat) (likelihood : ndarray F)
    (prior : list (ndarray F)) (n_factors : nat)
    (st : fpi_state F * option nat) : result (fpi_state F * option nat) :=
  Nat.iter n (fun r => rbind r (faster_iteration likelihood prior n_factors))
    (ok st).

(** [while curr_iter < num_iter and dF >= dF_tol: ...], with [fuel] for the
    tests of the condition as in [fpi_while]. *)
Fixpoint faster_while (fuel : nat) (likelihood : ndarray F)
    (prior : list (ndarray F)) (n_factors : nat) (num_iter : Z) (dF_tol : F)
    (st : fpi_state F * option nat)
  : option (result (fpi_state F * option nat)) :=
  match fuel with
  | O => None
  | S fuel' =>
      if fpi_continue fge num_iter dF_tol (fst st)
      then
        match faster_iteration likelihood prior n_factors st with
        | inr st' =>
            faster_while fuel' likelihood prior n_factors num_iter dF_tol st'
        | inl e => Some (inl e)
        end
      else Some (ok st)
  end.

(** Steps 1 to 3: the log-likelihood, the flat posterior, the prior (a
    prior that is passed in is used as it is) and the initial free
    energy. *)
Definition faster_setup (A obs : arrays F) (n_states : list nat)
    (prior : option (list (ndarray F)))
  : result (ndarray F * list (ndarray F) * list (ndarray F) * F) :=
  let n_factors := length n_states in
  let? likelihood := get_joint_likelihood A obs n_states in
  let likelihood := log_eps likelihood in
  let qs := map uniform n_states in
  let prior :=
    match prior with
    | Some p => p
    | None => map (fun n => log_eps (uniform n)) n_states
    end in
  let? prev_vfe := calc_free_energy qs prior n_factors None in
  ok (likelihood, qs, prior, prev_vfe).

(** [_run_vanilla_fpi_faster(A, obs, n_observations, n_states, prior,
    num_iter, dF, dF_tol)].  With one factor the result is a numeric array,
    otherwise an object array. *)
Definition _run_vanilla_fpi_faster (fuel : nat) (A obs : arrays F)
    (n_observations n_states : dims) (prior : option (list (ndarray F)))
    (num_iter : Z) (dF dF_tol : F) : option (result (arrays F)) :=
  match dims_list n_observations with
  | inl e => Some (inl e)
  | inr n_observations =>
  match dims_list n_states with
  | inl e => Some (inl e)
  | inr n_states =>
      let n_modalities := length n_observations in
      let n_factors := length n_states in
      match faster_setup A obs n_states prior with
      | inl e => Some (inl e)
      | inr (likelihood, qs, prior, prev_vfe) =>
          if decide (n_factors = 1)
          then
            Some (let? qL := spm_dot likelihood qs [0%Z] in
                  let? p := py_getitem prior 0 in
                  let? x := nd_add qL p in
                  let? q := softmax x in
                  ok (Single q))
          else
            match faster_while fuel likelihood prior n_factors num_iter dF_tol
                    (FpiState qs prev_vfe dF 0, None) with
            | Some (inr st) => Some (ok (ArrOfArr (st_qs (fst st))))
            | Some (inl e) => Some (inl e)
            | None => None
            end
      end
  end
  end.
End FpiFaster.

(** ** Requests on a multi-factor prior *)

Section Removed.
Context {F : Type}.

(** The factors of which the request removes every level, in ascending
    order. *)
Definition removed_factors (levels_to_remove : list pyitem)
    (ps : list (ndarray F)) : list nat :=
  map fst (List.filter (removes_all levels_to_remove) (enumerate ps)).
End Removed.
(** ** One-hot observations *)

Section OneHot.
Context {F : Type} `{Scalar F}.

(** The one-hot vector of length [n] for the index [i]; a negative index
    counts from the end. *)
Definition one_hot_at (n : nat) (i : Z) : ndarray F :=
  NdArray [n]
    (map (fun j : nat =>
            if decide (Z.of_nat j = i `mod` Z.of_nat n)%Z then fone else fzero)
         (seq 0 n)).
End OneHot.
(** ** One pass of [update_state_likelihood_dirichlet] on one tensor *)

Section TransEntry.
Context {F : Type} `{Scalar F}.

(** What the body of [for factor in factors] makes of the tensor [v] of the
    copy: the slice of the action gets its increment, computed from the
    beliefs [q], [q_prev] and from the slice of [b = B[factor]]. *)
Definition trans_entry (lr : F) (b : ndarray F) (u : Z) (q q_prev v : ndarray F)
  : result (ndarray F) :=
  rbind (nd_axis2_get b u) (fun B_fu =>
  rbind (nd_imul (spm_cross q [q_prev]) (astype_float (nd_gt0 B_fu))) (fun dfdb =>
  rbind (nd_axis2_get v u) (fun view =>
  rbind (nd_iadd view (nd_scale lr dfdb)) (fun view =>
  nd_axis2_set v u view)))).
End TransEntry.
(** ** One marginal of [run_vanilla_fpi] *)

Section Marginal.
Context {F : Type} `{Scalar F}.
Variable nd_div : ndarray F -> ndarray F -> result (ndarray F).
Variable einsum_keep : ndarray F -> nat -> nat -> result (ndarray F).
Variable softmax : ndarray F -> result (ndarray F).

(** [softmax(np.einsum(LL_tensor, list(range(n_factors)), [factor])/qs_i
    + prior[factor])] *)
Definition fpi_marginal (LL_tensor : ndarray F) (prior : list (ndarray F))
    (n_factors factor : nat) (qs_i : ndarray F) : result (ndarray F) :=
  rbind (einsum_keep LL_tensor n_factors factor) (fun s =>
  rbind (nd_div s qs_i) (fun qL =>
  rbind (py_getitem prior (Z.of_nat factor)) (fun p =>
  rbind (nd_add qL p) (fun x =>
  softmax x)))).
End Marginal.

Section ModelRequests.
Context {F : Type}.

(** [levels[f]] when it is a list of level numbers. *)
Definition requested (levels : list pyitem) (f : nat) : list Z :=
  match levels !! f with
  | Some (PList l) => l
  | _ => []
  end.

(** A transition tensor of the documented shape [(ns, ns, nc)]. *)
Definition is_transition (B : ndarray F) : bool :=
  match shape B with
  | [n0; n1; _] => bool_decide (n0 = n1)
  | _ => false
  end.

(** A request on a multi-factor [B] in the form that the docstring asks
    for: one list of state levels and one list of control levels per
    factor, and every factor a tensor of shape [(ns, ns, nc)]. *)
Definition prune_B_args_ok (Bs : list (ndarray F))
    (state_levels_to_prune action_levels_to_prune : list pyitem) : bool :=
  forallb is_list state_levels_to_prune &&
  forallb is_list action_levels_to_prune &&
  bool_decide (length Bs <= length state_levels_to_prune) &&
  bool_decide (length Bs <= length action_levels_to_prune) &&
  forallb is_transition Bs.

(** A request on a multi-modality [A] in the form that the docstring asks
    for: one list of observation levels per modality, one list of state
    levels per factor, and every modality a tensor over the state axes
    [num_states]. *)
Definition prune_A_args_ok (As : list (ndarray F)) (num_states : list nat)
    (obs_levels_to_prune state_levels_to_prune : list pyitem) : bool :=
  forallb is_list obs_levels_to_prune &&
  forallb is_list state_levels_to_prune &&
  bool_decide (0 < length As <= length obs_levels_to_prune) &&
  bool_decide (length num_states <= length state_levels_to_prune) &&
  forallb (fun A : ndarray F =>
             bool_decide (shape A ≠ []) &&
             bool_decide (drop 1 (shape A) = num_states)) As.
End ModelRequests.

(* ===================================================================== *)
(** * Part VIII.  Example data                                           *)
(* ===================================================================== *)

Module Examples.
Definition vec (l : list Z) : ndarray Z := NdArray [length l] l.

Definition empty_world : world Z := World ∅ [].

(** Normalisation is beside the point of the examples. *)
Definition no_norm (a : ndarray Z) : ndarray Z := a.
Definition no_norm_all (l : list (ndarray Z)) : list (ndarray Z) := l.

(** A two-level prior of which both levels are to be removed. *)
Definition two_levels : ndarray Z := vec [1; 2]%Z.

(** A 2 x 2 observation model. *)
Definition square_model : ndarray Z := NdArray [2; 2] [1; 2; 3; 4]%Z.

(** Observations as indices, one per modality, made one-hot. *)
Definition one_hot (n : nat) (i : Z) : ndarray Z :=
  NdArray [n] (map (fun j => if decide (j = i) then 1%Z else 0%Z)
                   (seqZ 0 (Z.of_nat n))).

Definition one_hots (obs : list Z) (num_modalities : nat)
    (num_observations : list nat) : result (list (ndarray Z)) :=
  if decide (length obs = num_modalities)
  then ok (zip_with one_hot num_observations obs)
  else throw (ValueError "one observation per modality").

(** Two modalities over one factor with two states: the store holds the
    object array [pA] behind reference 1 and its two tensors behind 2 and
    3. *)
Definition pA_world : world Z :=
  World (<[1%positive := CObj [2%positive; 3%positive]]>
           (<[2%positive := CArr (NdArray [2; 2] [1; 1; 1; 1]%Z)]>
              (<[3%positive := CArr (NdArray [2; 2] [5; 0; 0; 5]%Z)]> ∅)))
        [].

Definition pA_values : list (ndarray Z) :=
  [NdArray [2; 2] [1; 1; 1; 1]%Z; NdArray [2; 2] [5; 0; 0; 5]%Z].

Definition A_models : list (ndarray Z) :=
  [NdArray [2; 2] [1; 0; 0; 1]%Z; NdArray [2; 2] [1; 0; 0; 1]%Z].

Definition beliefs : list (ndarray Z) := [vec [1; 0]%Z].

(** Two factors with three and two states: the object array [pD] behind
    reference 1, its vectors behind 2 and 3. *)
Definition pD_world : world Z :=
  World (<[1%positive := CObj [2%positive; 3%positive]]>
           (<[2%positive := CArr (vec [1; 0; 2]%Z)]>
              (<[3%positive := CArr (vec [0; 4]%Z)]> ∅)))
        [].

Definition pD_values : list (ndarray Z) := [vec [1; 0; 2]%Z; vec [0; 4]%Z].

Definition pD_beliefs : list (ndarray Z) := [vec [1; 1; 1]%Z; vec [7; 9]%Z].

(** One factor with two states and two actions: the object array [pB]
    behind reference 1, its tensor behind 2. *)
Definition pB_world : world Z :=
  World (<[1%positive := CObj [2%positive]]>
           (<[2%positive := CArr (NdArray [2; 2; 2] [1; 2; 3; 4; 5; 6; 7; 8]%Z)]>
              ∅))
        [].

Definition pB_values : list (ndarray Z) :=
  [NdArray [2; 2; 2] [1; 2; 3; 4; 5; 6; 7; 8]%Z].

Definition B_models : list (ndarray Z) :=
  [NdArray [2; 2; 2] [1; 1; 0; 1; 1; 1; 1; 0]%Z].

(** The collaborators of [update_posterior_states], reduced to what a run
    needs. *)
Definition no_categorical : unit -> arrays Z := fun _ => Single (vec [1]%Z).
Definition no_values : unit -> ndarray Z := fun _ => vec [1]%Z.
Definition no_factor_values : unit -> nat -> result (ndarray Z) :=
  fun _ _ => ok (vec [1]%Z).
Definition wrap (a : ndarray Z) : list (ndarray Z) := [a].
Definition forget (qs : list (ndarray Z)) : unit := tt.
Definition uniform_fpi (A obs : arrays Z) (n_observations n_states : list nat)
    (prior : option (list (ndarray Z))) (kw : unit)
  : py Z (list (ndarray Z)) :=
  ret (map (fun n => NdArray [n] (replicate n 1%Z)) n_states).

(** Stand-ins for the numerical helpers of [fpi.py]: arrays of ones of the
    right shape; the numbers are beside the point of the examples. *)
Definition ones (sh : list nat) : ndarray Z := NdArray sh (replicate (size sh) 1%Z).
Definition geb (x y : Z) : bool := bool_decide (y <= x)%Z.
Definition abs_diff (x y : Z) : Z := Z.abs (x - y).
Definition same (x : Z) : Z := x.
Definition unlogged (a : ndarray Z) : ndarray Z := a.
Definition flat (n : nat) : ndarray Z := ones [n].
Definition sum_ones (a : ndarray Z) (axes : list nat) : result (ndarray Z) :=
  ok (ones (map snd
              (List.filter (fun p : nat * nat => negb (bool_decide (fst p ∈ axes)))
                 (enumerate (shape a))))).
Definition joint_ones (A obs : arrays Z) (n_states : list nat)
  : result (ndarray Z) := ok (ones n_states).
Definition zero_energy (qs prior : list (ndarray Z)) (n_factors : nat)
    (likelihood : option (ndarray Z)) : result Z := ok 0%Z.
Definition dot_first (L : ndarray Z) (qs : list (ndarray Z)) (dims : list Z)
  : result (ndarray Z) := ok (ones (take 1 (shape L))).
Definition soft_id (a : ndarray Z) : result (ndarray Z) := ok a.
Definition div_first (a b : ndarray Z) : result (ndarray Z) :=
  nd_zip (fun x _ => x) a b.
Definition einsum_ones (T : ndarray Z) (n_factors factor : nat)
  : result (ndarray Z) := ok (ones (take 1 (drop factor (shape T)))).

(** Three factors with two states each. *)
Definition three_factors : list nat := [2; 2; 2].

(** A transition tensor for two states and two controls. *)
Definition cube : ndarray Z := NdArray [2; 2; 2] [1; 2; 3; 4; 5; 6; 7; 8]%Z.
End Examples.

(* ===================================================================== *)
(** * Part IX.  Properties                                               *)
(* ===================================================================== *)

(** ** Monad laws used throughout *)

Section MonadFacts.
Context {F : Type}.

Lemma bind_ret {A B : Type} (a : A) (k : A -> py F B) (w : world F) :
  bind (ret a) k w = k a w.
Proof. reflexivity. Qed.

Lemma bind_raise {A B : Type} (e : exn) (k : A -> py F B) (w : world F) :
  bind (raise e) k w = (inl e, w).
Proof. reflexivity. Qed.

Lemma bind_lift_ok {A B : Type} (a : A) (k : A -> py F B) (w : world F) :
  bind (lift (ok a)) k w = k a w.
Proof. reflexivity. Qed.

Lemma bind_lift_err {A B : Type} (e : exn) (k : A -> py F B) (w : world F) :
  bind (lift (inl e)) k w = (inl e, w).
Proof. reflexivity. Qed.

Lemma bind_lift {A B : Type} (r : result A) (k : A -> py F B) (w : world F) :
  bind (lift r) k w =
    match r with
    | inr a => k a w
    | inl e => (inl e, w)
    end.
Proof. by destruct r. Qed.

Lemma bind_eq {A B : Type} (m : py F A) (k : A -> py F B) (w w' : world F)
    (r : result A) :
  m w = (r, w') ->
  bind m k w = match r with
               | inr a => k a w'
               | inl e => (inl e, w')
               end.
Proof. intros Hm. unfold bind. rewrite Hm. by destruct r. Qed.
End MonadFacts.

(** ** [update_posterior_states]: the dispatch on [method] *)

Section InferenceProps.
Context {F : Type} `{Scalar F}.
Variable categorical : Type.
Variable to_numpy : categorical -> arrays F.
Variable values_squeeze : categorical -> ndarray F.
Variable factor_values_squeeze : categorical -> nat -> result (ndarray F).
Variable to_arr_of_arr : ndarray F -> list (ndarray F).
Variable to_categorical : list (ndarray F) -> categorical.
Variable kwargs : Type.
Variable run_fpi :
  arrays F -> arrays F -> list nat -> list nat -> option (list (ndarray F)) ->
  kwargs -> py F (list (ndarray F)).

Local Abbreviation update :=
  (update_posterior_states categorical to_numpy values_squeeze
     factor_values_squeeze to_arr_of_arr to_categorical kwargs run_fpi).
Local Abbreviation pre :=
  (preprocess categorical to_numpy values_squeeze factor_values_squeeze
     to_arr_of_arr).

(** The function is its preprocessing followed by the dispatch. *)
Lemma update_posterior_states_unfold A obs prior return_numpy method kw w :
  update A obs prior return_numpy method kw w =
    match pre A obs prior with
    | inl e => (inl e, w)
    | inr (A', obs', n_observations, n_states, prior') =>
        bind
          (if py_is method FPI then
             bind (emit (Called "run_fpi")) (fun _ =>
               run_fpi A' obs' n_observations n_states prior' kw)
           else if py_is method VMP then
             raise (NotImplementedError (method_name VMP +:+ " is not implemented"))
           else if py_is method MMP then
             raise (NotImplementedError (method_name MMP +:+ " is not implemented"))
           else if py_is method BP then
             raise (NotImplementedError (method_name BP +:+ " is not implemented"))
           else if py_is method EP then
             raise (NotImplementedError (method_name EP +:+ " is not implemented"))
           else if py_is method CV then
             raise (NotImplementedError (method_name CV +:+ " is not implemented"))
           else
             raise (ValueError (method_str method +:+ " is not implemented")))
          (fun qs =>
             if return_numpy
             then ret (PosteriorNumpy qs)
             else ret (PosteriorCategorical (to_categorical qs)))
          w
    end.
Proof.
  unfold update_posterior_states, preprocess.
  rewrite bind_lift.
  destruct (model_dims _) as [e|[[[n_factors n_states] n_modalities] n_observations]];
    simpl; [done|].
  rewrite bind_lift.
  destruct (process_observations _ _ _ _ _) as [e|obs']; simpl; [done|].
  destruct prior as [p|]; simpl.
  - unfold bind at 1. unfold bind at 1. unfold lift at 1.
    destruct (process_priors _ _ _ _ _ _) as [e|p']; simpl; done.
  - done.
Qed.

(** C3.  For each of the identifiers VMP, MMP, BP, EP and CV, whatever the
    other arguments: the call never returns a posterior and leaves the
    store and the trace as they were, so [run_fpi] is not called; an
    exception raised while the arguments are formatted is passed on, and
    otherwise what is raised is
    [NotImplementedError("<identifier> is not implemented")]. *)
Theorem update_posterior_states_stub_methods :
  forall (c : method_const) (A : model_in categorical) (obs : obs_in categorical)
         (prior : option (prior_in categorical)) (return_numpy : bool)
         (kw : kwargs) (w : world F),
    c ∈ [VMP; MMP; BP; EP; CV] ->
    update A obs prior return_numpy (Const c) kw w =
      (match pre A obs prior with
       | inl e => inl e
       | inr _ =>
           inl (NotImplementedError (method_name c +:+ " is not implemented"))
       end, w).
Proof.
  intros c A obs prior return_numpy kw w Hc.
  rewrite update_posterior_states_unfold.
  destruct (pre A obs prior) as [e|[[[[A' obs'] nobs] nst] prior']]; [done|].
  assert (Hcases : c = VMP \/ c = MMP \/ c = BP \/ c = EP \/ c = CV).
  { rewrite !elem_of_cons in Hc. rewrite elem_of_nil in Hc. tauto. }
  destruct Hcases as [->|[->|[->|[->| ->]]]]; done.
Qed.

(** C10.  For every object passed as [method] that is none of the six
    module-level constants, whatever the other arguments: the call never
    returns a posterior and leaves the store and the trace as they were, so
    [run_fpi] is not called; an exception raised while the arguments are
    formatted is passed on, and otherwise what is raised is
    [ValueError("<method> is not implemented")]. *)
Theorem update_posterior_states_unknown_method :
  forall (text : string) (A : model_in categorical) (obs : obs_in categorical)
         (prior : option (prior_in categorical)) (return_numpy : bool)
         (kw : kwargs) (w : world F),
    update A obs prior return_numpy (Other text) kw w =
      (match pre A obs prior with
       | inl e => inl e
       | inr _ => inl (ValueError (text +:+ " is not implemented"))
       end, w).
Proof.
  intros text A obs prior return_numpy kw w.
  rewrite update_posterior_states_unfold.
  by destruct (pre A obs prior) as [e|[[[[A' obs'] nobs] nst] prior']].
Qed.

(** The one functional identifier: [run_fpi] is called and its posterior
    is what comes back. *)
Lemma update_posterior_states_fpi A obs prior kw w A' obs' nobs nst prior' :
  pre A obs prior = ok (A', obs', nobs, nst, prior') ->
  update A obs prior true (Const FPI) kw w =
    bind (bind (emit (Called "run_fpi")) (fun _ =>
                  run_fpi A' obs' nobs nst prior' kw))
         (fun qs => ret (PosteriorNumpy qs)) w.
Proof.
  intros Hpre. rewrite update_posterior_states_unfold, Hpre. reflexivity.
Qed.
End InferenceProps.

(** ** [run_vanilla_fpi] *)

Section FpiProps.
Context {F : Type} `{Scalar F}.
Variable fge : F -> F -> bool.
Variable fabs_diff : F -> F -> F.
Variable uniform : nat -> ndarray F.
Variable nd_div : ndarray F -> ndarray F -> result (ndarray F).
Variable einsum_keep : ndarray F -> nat -> nat -> result (ndarray F).
Variable get_joint_likelihood :
  list (ndarray F) -> arrays F -> list nat -> result (ndarray F).
Variable spm_log_single : ndarray F -> result (ndarray F).
Variable spm_log_obj_array : list (ndarray F) -> result (list (ndarray F)).
Variable obj_array_uniform : list nat -> list (ndarray F).
Variable calc_free_energy :
  list (ndarray F) -> list (ndarray F) -> nat -> option (ndarray F) -> result F.
Variable spm_dot : ndarray F -> list (ndarray F) -> list Z -> result (ndarray F).
Variable softmax : ndarray F -> result (ndarray F).
Variable to_arr_of_arr : ndarray F -> list (ndarray F).

Local Abbreviation iteration :=
  (fpi_iteration fabs_diff nd_div einsum_keep calc_free_energy softmax).
Local Abbreviation while :=
  (fpi_while fge fabs_diff nd_div einsum_keep calc_free_energy softmax).
Local Abbreviation after_dims :=
  (fpi_after_dims fge fabs_diff uniform nd_div einsum_keep get_joint_likelihood
     spm_log_single spm_log_obj_array obj_array_uniform calc_free_energy
     spm_dot softmax to_arr_of_arr).
Local Abbreviation passes :=
  (fpi_passes fabs_diff nd_div einsum_keep calc_free_energy softmax).
Local Abbreviation run :=
  (run_vanilla_fpi fge fabs_diff uniform nd_div einsum_keep get_joint_likelihood
     spm_log_single spm_log_obj_array obj_array_uniform calc_free_energy
     spm_dot softmax to_arr_of_arr).

Lemma load_name_num_observations (A : list (ndarray F)) (obs : arrays F)
    (num_obs num_states : list nat) (prior : option (list (ndarray F)))
    (num_iter : Z) (dF dF_tol : F) :
  load_name (fpi_locals A obs num_obs num_states prior num_iter dF dF_tol)
    "num_observations" = throw (NameError "num_observations").
Proof.
  unfold load_name.
  replace (fpi_locals A obs num_obs num_states prior num_iter dF dF_tol
             !! "num_observations") with (@None (pyval F)).
  - reflexivity.
  - unfold fpi_locals. simpl. rewrite !lookup_insert_ne by done.
    by rewrite lookup_empty.
Qed.

(** C1.  Whatever its arguments, and so also for one hidden-state factor
    with [A = [[0.9,0.1],[0.1,0.9]]], a uniform prior and the observation
    one-hot(0), [run_vanilla_fpi] raises [NameError] in its first statement:
    [num_observations] is neither a parameter (that one is [num_obs]) nor a
    name of the module.  No belief is returned. *)
Theorem run_vanilla_fpi_name_error :
  forall (fuel : nat) (A : list (ndarray F)) (obs : arrays F)
         (num_obs num_states : list nat) (prior : option (list (ndarray F)))
         (num_iter : Z) (dF dF_tol : F),
    run fuel A obs num_obs num_states prior num_iter dF dF_tol
      = Some (inl (NameError "num_observations")).
Proof.
  intros. unfold run_vanilla_fpi.
  by rewrite load_name_num_observations.
Qed.

(** What the rest of the body does for one factor: no test of the loop
    condition is needed (the fuel may be 0), and the belief is the softmax
    of the log-likelihood plus the log-prior of the one factor. *)
Lemma fpi_after_dims_single_factor A obs n prior num_iter dF dF_tol L L' P v :
  get_joint_likelihood A obs [n] = ok L ->
  spm_log_single L = ok L' ->
  spm_log_obj_array (default (obj_array_uniform [n]) prior) = ok P ->
  calc_free_energy [uniform n] P 1 None = ok v ->
  after_dims 0 A obs [n] prior num_iter dF dF_tol =
    Some (rbind (spm_dot L' [uniform n] [0%Z]) (fun qL =>
          rbind (py_getitem P 0) (fun p =>
          rbind (nd_add qL p) (fun x =>
          rbind (softmax x) (fun q => ok (to_arr_of_arr q)))))).
Proof.
  intros HL HL' HP Hv. unfold fpi_after_dims. simpl.
  rewrite HL. simpl. rewrite HL'. simpl. rewrite HP. simpl.
  rewrite Hv. simpl. reflexivity.
Qed.

Lemma fpi_iteration_counter likelihood prior n_factors st st' :
  iteration likelihood prior n_factors st = ok st' ->
  st_curr_iter st' = (st_curr_iter st + 1)%Z.
Proof.
  unfold fpi_iteration. intros Hit.
  destruct (joint_of _ _) as [e|qs_all]; simpl in Hit; [done|].
  destruct (nd_mul _ _) as [e|LL]; simpl in Hit; [done|].
  destruct (update_marginals _ _ _ _ _ _ _) as [e|qs]; simpl in Hit; [done|].
  destruct (calc_free_energy _ _ _ _) as [e|vfe]; simpl in Hit; [done|].
  by inversion Hit.
Qed.

Lemma fpi_passes_S n likelihood prior n_factors st :
  passes (S n) likelihood prior n_factors st =
    rbind (iteration likelihood prior n_factors st)
          (passes n likelihood prior n_factors).
Proof.
  unfold fpi_passes. induction n as [|n IH].
  - simpl. by destruct (iteration _ _ _ _).
  - rewrite Nat.iter_succ. rewrite IH at 1.
    destruct (iteration likelihood prior n_factors st) as [e|st']; simpl; done.
Qed.

Lemma fpi_while_S fuel likelihood prior n_factors num_iter dF_tol st :
  while (S fuel) likelihood prior n_factors num_iter dF_tol st =
    if fpi_continue fge num_iter dF_tol st
    then
      match iteration likelihood prior n_factors st with
      | inr st' => while fuel likelihood prior n_factors num_iter dF_tol st'
      | inl e => Some (inl e)
      end
    else Some (ok st).
Proof. reflexivity. Qed.

Lemma fpi_continue_done num_iter dF_tol (st : fpi_state F) :
  (num_iter <= st_curr_iter st)%Z ->
  fpi_continue fge num_iter dF_tol st = false.
Proof.
  intros Hle. unfold fpi_continue.
  by rewrite bool_decide_eq_false_2 by lia.
Qed.

Lemma fpi_continue_lt num_iter dF_tol (st : fpi_state F) :
  fpi_continue fge num_iter dF_tol st = true ->
  (st_curr_iter st < num_iter)%Z.
Proof.
  unfold fpi_continue. intros Hc.
  apply andb_prop in Hc as [Hlt _]. by apply bool_decide_eq_true_1 in Hlt.
Qed.

Lemma fpi_while_bounded likelihood prior n_factors num_iter dF_tol :
  forall (bound : nat) (st : fpi_state F) (extra : nat),
    bound = Z.to_nat (num_iter - st_curr_iter st) ->
    exists n : nat,
      n <= bound /\
      while (S bound + extra) likelihood prior n_factors num_iter dF_tol st
        = Some (passes n likelihood prior n_factors st) /\
      match passes n likelihood prior n_factors st with
      | inr st' =>
          st_curr_iter st' = (st_curr_iter st + Z.of_nat n)%Z /\
          fpi_continue fge num_iter dF_tol st' = false
      | inl _ => True
      end.
Proof.
  induction bound as [|bound IH]; intros st extra Hb.
  - exists 0. split; [lia|].
    change (1 + extra) with (S extra). rewrite fpi_while_S.
    rewrite fpi_continue_done by lia.
    split; [done|]. simpl. split; [lia|].
    apply fpi_continue_done. lia.
  - change (S (S bound) + extra) with (S (S bound + extra)).
    rewrite fpi_while_S.
    destruct (fpi_continue fge num_iter dF_tol st) eqn:Hc.
    + apply fpi_continue_lt in Hc.
      destruct (iteration likelihood prior n_factors st) as [e|st'] eqn:Hit.
      * exists 1. split; [lia|].
        rewrite fpi_passes_S, Hit. simpl. done.
      * pose proof (fpi_iteration_counter _ _ _ _ _ Hit) as Hk.
        destruct (IH st' extra) as (n & Hn & Hw & Hpost); [lia|].
        exists (S n). split; [lia|].
        rewrite fpi_passes_S, Hit. simpl.
        split; [exact Hw|].
        destruct (passes n likelihood prior n_factors st') as [e|st2]; [done|].
        destruct Hpost as [Hcnt Hstop]. split; [lia|done].
    + exists 0. split; [lia|]. simpl. split; [done|]. split; [lia|done].
Qed.

(** C2.  The loop [while curr_iter < num_iter and dF >= dF_tol] entered
    with [curr_iter = 0]: for every [num_iter], every tolerance and every
    state, [max(num_iter, 0) + 1] tests of the condition always suffice; the
    run is [n <= max(num_iter, 0)] passes through the body, it ends either
    in an exception raised by a pass or in a state with [curr_iter = n] in
    which the condition is false, and nothing else ends it: as long as
    [curr_iter < num_iter] and [dF >= dF_tol] the next pass is made,
    whatever the free energy did.  The part of [run_vanilla_fpi] after its
    first statement therefore always comes to an end. *)
Theorem fpi_loop_terminates :
  forall (likelihood : ndarray F) (prior : list (ndarray F)) (n_factors : nat)
         (num_iter : Z) (dF_tol : F) (qs : list (ndarray F)) (prev_vfe dF : F)
         (extra : nat),
    let st := FpiState qs prev_vfe dF 0 in
    let fuel := S (Z.to_nat num_iter) + extra in
    (exists n : nat,
       n <= Z.to_nat num_iter /\
       while fuel likelihood prior n_factors num_iter dF_tol st
         = Some (passes n likelihood prior n_factors st) /\
       match passes n likelihood prior n_factors st with
       | inr st' =>
           st_curr_iter st' = Z.of_nat n /\
           fpi_continue fge num_iter dF_tol st' = false
       | inl _ => True
       end) /\
    (forall (fuel' : nat) (st1 : fpi_state F),
       while (S fuel') likelihood prior n_factors num_iter dF_tol st1 =
         if fpi_continue fge num_iter dF_tol st1
         then
           match iteration likelihood prior n_factors st1 with
           | inr st2 => while fuel' likelihood prior n_factors num_iter dF_tol st2
           | inl e => Some (inl e)
           end
         else Some (ok st1)) /\
    (forall (A : list (ndarray F)) (obs : arrays F) (num_states : list nat)
            (prior0 : option (list (ndarray F))),
       is_Some (after_dims fuel A obs num_states prior0 num_iter dF dF_tol)).
Proof.
  intros likelihood prior n_factors num_iter dF_tol qs prev_vfe dF extra st fuel.
  split; [|split].
  - destruct (fpi_while_bounded likelihood prior n_factors num_iter dF_tol
                (Z.to_nat num_iter) st extra) as (n & Hn & Hw & Hpost).
    { subst st. simpl. f_equal. lia. }
    exists n. split; [done|]. split; [exact Hw|].
    destruct (passes n likelihood prior n_factors st); [done|].
    destruct Hpost as [Hcnt Hstop]. split; [|done].
    rewrite Hcnt. subst st. simpl. lia.
  - intros fuel' st1. apply fpi_while_S.
  - intros A obs num_states prior0. unfold fpi_after_dims.
    match goal with |- is_Some (match ?s with _ => _ end) => destruct s as [e|[[[L q] P] v]] end;
      [by eexists|].
    destruct (decide (length num_states = 1)) as [Hone|Hmany]; [by eexists|].
    destruct (fpi_while_bounded L P (length num_states) num_iter dF_tol
                (Z.to_nat num_iter) (FpiState q v dF 0) extra)
      as (k & _ & Hw & _).
    { simpl. f_equal. lia. }
    fold fuel in Hw. rewrite Hw.
    destruct (passes k L P (length num_states) (FpiState q v dF 0));
      by eexists.
Qed.
End FpiProps.

(** ** Python subscripts and sets of levels *)

Lemma norm_index_nat (n i : nat) :
  norm_index n (Z.of_nat i) = if decide (i < n) then Some i else None.
Proof.
  unfold norm_index.
  destruct (decide (i < n)) as [Hlt|Hge].
  - rewrite decide_True by lia. by rewrite Nat2Z.id.
  - rewrite decide_False by lia. by rewrite decide_False by lia.
Qed.

Lemma norm_index_lt (n : nat) (i : Z) (k : nat) :
  norm_index n i = Some k -> k < n.
Proof.
  unfold norm_index. intros Hn.
  destruct (decide (0 <= i < Z.of_nat n)%Z); [inversion Hn; lia|].
  destruct (decide (- Z.of_nat n <= i < 0)%Z); [inversion Hn; lia|done].
Qed.

Lemma py_getitem_nat {A : Type} (l : list A) (i : nat) :
  py_getitem l (Z.of_nat i) =
    match l !! i with
    | Some a => ok a
    | None => throw (IndexError "index out of range")
    end.
Proof.
  unfold py_getitem. rewrite norm_index_nat.
  destruct (decide (i < length l)) as [Hlt|Hge]; [done|].
  by rewrite lookup_ge_None_2 by lia.
Qed.

Lemma py_getitem_norm {A : Type} (l : list A) (i : Z) (k : nat) (a : A) :
  norm_index (length l) i = Some k -> l !! k = Some a -> py_getitem l i = ok a.
Proof. intros Hn Hk. unfold py_getitem. by rewrite Hn, Hk. Qed.

Lemma py_getitem_inv {A : Type} (l : list A) (i : Z) (a : A) :
  py_getitem l i = ok a ->
  exists k, norm_index (length l) i = Some k /\ l !! k = Some a.
Proof.
  unfold py_getitem. intros Hg.
  destruct (norm_index (length l) i) as [k|]; [|done].
  destruct (l !! k) as [a'|] eqn:Hk; [|done].
  exists k. split; [done|]. unfold ok in Hg. congruence.
Qed.

Lemma elem_of_py_range (n : nat) (i : Z) :
  i ∈ py_range n <-> (0 <= i < Z.of_nat n)%Z.
Proof. unfold py_range. rewrite elem_of_seqZ. lia. Qed.

Lemma elem_of_levels_kept (n : nat) (remove : list Z) (i : Z) :
  i ∈ levels_kept n remove <-> (0 <= i < Z.of_nat n)%Z /\ i ∉ remove.
Proof.
  unfold levels_kept. rewrite elem_of_elements, elem_of_difference.
  rewrite !elem_of_list_to_set. by rewrite elem_of_py_range.
Qed.

Lemma levels_kept_nil (n : nat) (remove : list Z) :
  levels_kept n remove = [] <->
  forall i : Z, (0 <= i < Z.of_nat n)%Z -> i ∈ remove.
Proof.
  split.
  - intros Hnil i Hi.
    destruct (decide (i ∈ remove)) as [|Hni]; [done|].
    assert (Hin : i ∈ levels_kept n remove) by by apply elem_of_levels_kept.
    rewrite Hnil in Hin. by apply elem_of_nil in Hin.
  - intros Hall.
    destruct (levels_kept n remove) as [|i l] eqn:Hk; [done|].
    assert (Hin : i ∈ levels_kept n remove) by (rewrite Hk; apply elem_of_cons; by left).
    apply elem_of_levels_kept in Hin as [Hi Hni].
    destruct Hni. by apply Hall.
Qed.

Lemma levels_kept_all (n : nat) :
  levels_kept n (map Z.of_nat (seq 0 n)) = [].
Proof.
  apply levels_kept_nil. intros i Hi.
  apply list_elem_of_fmap. exists (Z.to_nat i). split; [lia|].
  apply elem_of_seq. lia.
Qed.

Lemma levels_kept_norm (n : nat) (remove : list Z) :
  mapM (norm_index n) (levels_kept n remove)
    = Some (map Z.to_nat (levels_kept n remove)).
Proof.
  assert (Hall : Forall (fun i => (0 <= i < Z.of_nat n)%Z) (levels_kept n remove)).
  { apply Forall_forall. intros i Hi. by apply elem_of_levels_kept in Hi as [? _]. }
  induction Hall as [|i l Hi _ IH]; [done|].
  cbn [mapM]. rewrite IH. unfold norm_index at 1.
  by rewrite decide_True by done.
Qed.

(** ** Model reduction: [_prune_prior] and [_prune_A] *)

Lemma set_of_items_ints (levels : list pyitem) :
  forallb is_int levels = true ->
  exists zs : list Z,
    set_of_items levels = ok zs /\ forall i : Z, PInt i ∈ levels -> i ∈ zs.
Proof.
  induction levels as [|x levels IH]; intros Hall.
  - exists []. split; [done|]. intros i Hi. by apply elem_of_nil in Hi.
  - simpl in Hall. apply andb_prop in Hall as [Hx Hall].
    destruct (IH Hall) as (zs & Hzs & Hin).
    destruct x as [i|l]; [|done].
    exists (i :: zs). split.
    + unfold set_of_items in *. simpl. rewrite Hzs. done.
    + intros j Hj. apply elem_of_cons in Hj as [Hj|Hj].
      * inversion Hj. apply elem_of_cons. by left.
      * apply elem_of_cons. right. by apply Hin.
Qed.

Section PruneProps.
Context {F : Type} `{Scalar F}.
Variable norm_dist : ndarray F -> ndarray F.
Variable norm_dist_obj_arr : list (ndarray F) -> list (ndarray F).

Local Abbreviation prune_prior := (_prune_prior norm_dist).
Local Abbreviation prune_A := (_prune_A norm_dist norm_dist_obj_arr).

(** Indexing a vector with no level at all leaves an array without
    entries. *)
Lemma nd_ix_nil (p : ndarray F) (n : nat) (rest : list nat) :
  shape p = n :: rest ->
  nd_ix p [[]] = ok (NdArray (0 :: rest) []).
Proof.
  intros Hs. unfold nd_ix. rewrite Hs. cbn. destruct rest; reflexivity.
Qed.

(** C8.  A request that removes every level of a prior given as a plain
    vector: [_prune_prior] returns the normalised empty selection, and all
    that the run leaves in the trace is one indexing and one normalisation.
    Nothing is printed. *)
Theorem prune_prior_plain_all_levels_silent :
  forall (p : ndarray F) (n : nat) (rest : list nat)
         (levels_to_remove : list pyitem) (w : world F),
    shape p = n :: rest ->
    forallb is_int levels_to_remove = true ->
    (forall i : Z, (0 <= i < Z.of_nat n)%Z -> PInt i ∈ levels_to_remove) ->
    prune_prior (PlainPrior p) levels_to_remove false w =
      (ok (PlainReduced (norm_dist (NdArray (0 :: rest) []))),
       World (heap w) (trace w ++ [Sliced; Normalized])).
Proof.
  intros p n rest levels w Hs Hint Hall.
  destruct (set_of_items_ints levels Hint) as (zs & Hzs & Hin).
  assert (Hkept : levels_kept n zs = []).
  { apply levels_kept_nil. intros i Hi. apply Hin. by apply Hall. }
  unfold _prune_prior. rewrite Hint.
  unfold bind, lift, py_assert, ok, nd_len. rewrite Hs, Hzs. simpl.
  rewrite Hkept. unfold slice, normalize, bind, emit, lift, ret. simpl.
  rewrite (nd_ix_nil p n rest Hs). simpl.
  by rewrite <- app_assoc.
Qed.

(** *** The Dirichlet flag *)

(** The loop over the factors with the flag set: the store is not touched,
    all that is left in the trace are warnings, and the loop either comes
    through (every factor loses all its levels, nothing was assigned) or
    stops in an exception, which for a request of the documented form is
    the [NotImplementedError]. *)
Lemma prune_prior_loop_dirichlet (levels : list pyitem) :
  forall (xs : list (ndarray F)) (k : nat) (red : list (option (ndarray F)))
         (ftr : list nat) (w : world F),
    exists (r : result (list (option (ndarray F)) * list nat)) (evs : list event),
      for_fold (zip (seq k (length xs)) xs)
        (prune_prior_step norm_dist levels true) (red, ftr) w
        = (r, World (heap w) (trace w ++ evs)) /\
      forallb is_printed evs = true /\
      match r with
      | inr (red', ftr') =>
          red' = red /\ ftr' = ftr ++ seq k (length xs) /\
          forallb (removes_all levels) (zip (seq k (length xs)) xs) = true
      | inl e =>
          forallb (removes_all levels) (zip (seq k (length xs)) xs) = false /\
          (forallb is_list levels = true ->
           k + length xs <= length levels ->
           forallb (fun s : ndarray F => bool_decide (shape s ≠ [])) xs = true ->
           e = NotImplementedError prune_prior_msg)
      end.
Proof.
  induction xs as [|s xs IH]; intros k red ftr w.
  - exists (ok (red, ftr)), []. simpl. rewrite !app_nil_r.
    destruct w; done.
  - cbn [length seq zip zip_with for_fold forallb].
    set (ra := removes_all levels (k, s)).
    assert (Hra : ra = match shape s, levels !! k with
                       | n :: _, Some (PList l) =>
                           bool_decide (levels_kept n l = [])
                       | _, _ => false
                       end) by reflexivity.
    clearbody ra.
    unfold bind at 1. unfold prune_prior_step at 1.
    rewrite bind_lift. unfold nd_len.
    destruct (shape s) as [|n rest] eqn:Hs.
    { exists (throw (TypeError "len() of unsized object")), [].
      rewrite app_nil_r. split; [by destruct w|]. split; [done|].
      subst ra. split; [done|]. intros _ _ Hsh.
      apply andb_prop in Hsh as [Hsh _].
      by rewrite bool_decide_eq_false_2 in Hsh by (intros Hc; by apply Hc). }
    unfold ok at 1. rewrite bind_lift, py_getitem_nat.
    destruct (levels !! k) as [item|] eqn:Hk.
    2:{ exists (throw (IndexError "index out of range")), [].
        rewrite app_nil_r. split; [by destruct w|]. split; [done|].
        subst ra. split; [done|]. intros _ Hlen _.
        apply lookup_ge_None_1 in Hk. lia. }
    unfold ok at 1. rewrite bind_lift.
    destruct item as [i|l].
    { exists (throw (TypeError "'int' object is not iterable")), [].
      rewrite app_nil_r. split; [by destruct w|]. split; [done|].
      subst ra. split; [done|]. intros Hlist _ _.
      rewrite forallb_forall in Hlist.
      specialize (Hlist (PInt i)). simpl in Hlist.
      assert (Hin : In (PInt i) levels).
      { apply list_elem_of_In. by eapply list_elem_of_lookup_2. }
      by specialize (Hlist Hin). }
    cbn [set_of_item ok].
    destruct (decide (length (levels_kept n l) = 0)) as [Hnone|Hsome].
    + rewrite (bind_eq (emit (Printed (prune_warning k))) _ w
                 (World (heap w) (trace w ++ [Printed (prune_warning k)]))
                 (ok tt)) by reflexivity.
      unfold ok at 1. unfold ret at 1. cbv beta iota.
      destruct (IH (S k) red (ftr ++ [k])
                  (World (heap w) (trace w ++ [Printed (prune_warning k)])))
        as (r & evs & Hrun & Hpr & Hres).
      exists r, (Printed (prune_warning k) :: evs).
      cbn [heap trace] in Hrun. rewrite <- app_assoc in Hrun.
      split; [exact Hrun|]. split; [exact Hpr|].
      assert (Hnil : levels_kept n l = []) by by apply nil_length_inv.
      rewrite bool_decide_eq_true_2 in Hra by done. subst ra. cbn [andb].
      destruct r as [e|[red' ftr']].
      * destruct Hres as [Hrm Herr]. split; [done|].
        intros Hlist Hlen Hsh. apply Herr; [done|lia|].
        by apply andb_prop in Hsh as [_ ?].
      * destruct Hres as (-> & -> & Hrm). rewrite <- app_assoc.
        repeat split; done.
    + cbn [negb]. exists (throw (NotImplementedError prune_prior_msg)), [].
      rewrite app_nil_r. split; [by destruct w|]. split; [done|].
      rewrite bool_decide_eq_false_2 in Hra.
      2:{ intros Hnil. by rewrite Hnil in Hsome. }
      subst ra. done.
Qed.

(** One pass of the loop over the modalities in [_prune_A] does not touch
    the store and leaves nothing but indexings in the trace, one per
    modality when it comes through. *)
Lemma prune_A_loop (ol : list pyitem) (cols : list (list Z)) :
  forall (xs : list (nat * ndarray F)) (red : list (option (ndarray F)))
         (w : world F),
    exists (r : result (list (option (ndarray F)))) (k : nat),
      for_fold xs (prune_A_step ol cols) red w
        = (r, World (heap w) (trace w ++ replicate k Sliced)) /\
      (is_ok r = true -> k = length xs).
Proof.
  induction xs as [|[m A_i] xs IH]; intros red w.
  - exists (ok red), 0. simpl. rewrite app_nil_r. by destruct w.
  - cbn [for_fold]. unfold bind at 1. unfold prune_A_step at 1.
    rewrite bind_lift.
    destruct (shape0 A_i) as [e|no].
    { exists (inl e), 0. simpl. rewrite app_nil_r. by destruct w. }
    rewrite bind_lift.
    destruct (py_getitem ol (Z.of_nat m)) as [e|item].
    { exists (inl e), 0. simpl. rewrite app_nil_r. by destruct w. }
    rewrite bind_lift.
    destruct (set_of_item item) as [e|remove].
    { exists (inl e), 0. simpl. rewrite app_nil_r. by destruct w. }
    unfold slice. unfold bind at 1. unfold bind at 1. unfold emit at 1.
    unfold ok at 1. unfold lift at 1. cbv beta iota.
    destruct (nd_ix A_i (levels_kept no remove :: cols)) as [e|kept].
    { exists (inl e), 1. simpl. done. }
    unfold ret at 1. cbv beta iota.
    destruct (IH (<[m := Some kept]> red)
                (World (heap w) (trace w ++ [Sliced]))) as (r & k & Hrun & Hk).
    exists r, (S k). cbn [heap trace] in Hrun.
    rewrite <- app_assoc in Hrun. split; [exact Hrun|].
    intros Hok. simpl. f_equal. by apply Hk.
Qed.

Lemma prune_A_flag (A : model_arg F) (ol sl : list pyitem) (w : world F) :
  let rt := prune_A A ol sl true w in
  let rf := prune_A A ol sl false w in
  fst rt = match fst rf with
           | inr _ => inl (NotImplementedError prune_A_msg)
           | inl e => inl e
           end /\
  heap (snd rt) = heap w /\
  exists k : nat,
    trace (snd rt) = trace w ++ replicate k Sliced /\
    trace (snd rf) =
      trace (snd rt) ++ (if is_ok (fst rf) then [Normalized] else []) /\
    (is_ok (fst rf) = true ->
     k = match A with
         | ObjModel As => length As
         | PlainModel _ => 1
         end).
Proof.
  cbv zeta. unfold _prune_A. rewrite ?bind_lift.
  destruct (columns_to_keep A sl) as [e|cols].
  { simpl. repeat split; try done. exists 0. simpl. by rewrite !app_nil_r. }
  destruct A as [A|As].
  - rewrite ?bind_lift.
    destruct (py_assert (forallb is_int ol)) as [e|[]].
    { simpl. repeat split; try done. exists 0. simpl. by rewrite !app_nil_r. }
    rewrite ?bind_lift.
    destruct (shape0 A) as [e|no].
    { simpl. repeat split; try done. exists 0. simpl. by rewrite !app_nil_r. }
    rewrite ?bind_lift.
    destruct (set_of_items ol) as [e|remove].
    { simpl. repeat split; try done. exists 0. simpl. by rewrite !app_nil_r. }
    unfold slice, normalize, bind, emit, lift, ret, raise. simpl.
    destruct (nd_ix A (levels_kept no remove :: cols)) as [e|kept]; simpl.
    + repeat split; try done. exists 1. simpl. by rewrite !app_nil_r.
    + repeat split; try done. exists 1. simpl. done.
  - rewrite ?bind_lift.
    destruct (py_assert (forallb is_list ol)) as [e|[]].
    { simpl. repeat split; try done. exists 0. simpl. by rewrite !app_nil_r. }
    destruct (prune_A_loop ol cols (enumerate As) (replicate (length As) None) w)
      as (r & k & Hrun & Hk).
    rewrite !(bind_eq _ _ _ _ _ Hrun).
    destruct r as [e|red].
    + simpl. repeat split; try done. exists k. simpl. by rewrite !app_nil_r.
    + unfold normalize_obj_arr, bind, emit, ret, raise. simpl.
      repeat split; try done. exists k. repeat split; try done.
      intros _. rewrite (Hk eq_refl). unfold enumerate.
      rewrite length_zip_with, length_seq. lia.
Qed.

Lemma prune_prior_plain_flag (p : ndarray F) (levels : list pyitem) (w : world F) :
  let r := prune_prior (PlainPrior p) levels true w in
  snd r = w /\ is_ok (fst r) = false /\
  (prune_plain_args_ok p levels = true ->
   fst r = inl (NotImplementedError prune_prior_msg)).
Proof.
  cbv zeta. unfold _prune_prior, prune_plain_args_ok. rewrite ?bind_lift.
  destruct (forallb is_int levels) eqn:Hint; simpl; [|done].
  rewrite ?bind_lift. unfold nd_len.
  destruct (shape p) as [|n rest] eqn:Hs; simpl.
  { split; [done|]. split; done. }
  rewrite ?bind_lift.
  destruct (set_of_items_ints levels Hint) as (zs & Hzs & _).
  rewrite Hzs. simpl. done.
Qed.

Lemma prune_prior_obj_flag (ps : list (ndarray F)) (levels : list pyitem)
    (w : world F) :
  let r := prune_prior (ObjPrior ps) levels true w in
  heap (snd r) = heap w /\
  exists evs : list event,
    trace (snd r) = trace w ++ evs /\
    (Normalized ∉ evs) /\
    (is_ok (fst r) = false -> forallb is_printed evs = true) /\
    (prune_prior_args_ok ps levels = true ->
     fst r = (if forallb (removes_all levels) (enumerate ps)
              then ok (ObjReduced [])
              else inl (NotImplementedError prune_prior_msg))).
Proof.
  cbv zeta. unfold _prune_prior, prune_prior_args_ok. rewrite ?bind_lift.
  destruct (forallb is_list levels) eqn:Hlist; simpl.
  2:{ split; [done|]. exists []. rewrite app_nil_r.
      repeat split; try done. apply not_elem_of_nil. }
  destruct (prune_prior_loop_dirichlet levels ps 0 (replicate (length ps) None)
              [] w) as (r & evs & Hrun & Hpr & Hres).
  fold (enumerate ps) in Hrun, Hres.
  rewrite (bind_eq _ _ _ _ _ Hrun).
  assert (Hnorm : forall evs' : list event,
            forallb is_printed evs' = true -> Normalized ∉ evs').
  { intros evs' Hall Hin. rewrite forallb_forall in Hall.
    apply list_elem_of_In in Hin. by specialize (Hall _ Hin). }
  destruct r as [e|[red' ftr']].
  - simpl. split; [done|]. exists evs. split; [done|].
    split; [by apply Hnorm|]. split; [done|].
    destruct Hres as [Hrm Herr]. rewrite Hrm.
    intros Hok. apply andb_prop in Hok as [Hlen Hsh].
    apply bool_decide_eq_true_1 in Hlen.
    f_equal. apply Herr; [done|simpl; lia|done].
  - destruct Hres as (-> & -> & Hrm). rewrite Hrm.
    change ([] ++ seq 0 (length ps)) with (seq 0 (length ps)).
    cbv beta iota.
    destruct (decide (0 < length (seq 0 (length ps)))) as [Hpos|Hzero].
    + rewrite levels_kept_all.
      unfold bind, emit, lift, ret. simpl.
      split; [done|]. exists (evs ++ [Sliced]).
      rewrite app_assoc. split; [done|]. split.
      * intros Hin. apply elem_of_app in Hin as [Hin|Hin].
        -- by apply (Hnorm evs Hpr).
        -- apply list_elem_of_singleton in Hin. done.
      * split; done.
    + rewrite length_seq in Hzero.
      assert (Hps : ps = []) by (destruct ps; simpl in *; [done|lia]).
      subst ps. unfold ret. simpl.
      split; [done|]. exists evs. split; [done|].
      split; [by apply Hnorm|]. split; done.
Qed.

(** C7 (amended).  With the Dirichlet flag set:
    - [_prune_A] never returns a pruned model and never normalises: it does
      what the call without the flag does up to the normalisation, the
      indexing of every modality included, and then raises
      [NotImplementedError] (an exception raised earlier is passed on);
    - [_prune_prior] on a plain vector never returns and leaves no trace of
      an indexing or a normalisation, and for a request of level numbers on
      a vector it raises [NotImplementedError];
    - [_prune_prior] on a multi-factor prior never normalises; when it
      raises, only warnings have been printed before; and for a request of
      the documented form it raises [NotImplementedError] as soon as a
      factor keeps a level, but returns the empty factorization when every
      factor loses all its levels. *)
Theorem prune_dirichlet_flag :
  (forall (A : model_arg F) (ol sl : list pyitem) (w : world F),
     let rt := prune_A A ol sl true w in
     let rf := prune_A A ol sl false w in
     fst rt = match fst rf with
              | inr _ => inl (NotImplementedError prune_A_msg)
              | inl e => inl e
              end /\
     heap (snd rt) = heap w /\
     exists k : nat,
       trace (snd rt) = trace w ++ replicate k Sliced /\
       trace (snd rf) =
         trace (snd rt) ++ (if is_ok (fst rf) then [Normalized] else []) /\
       (is_ok (fst rf) = true ->
        k = match A with
            | ObjModel As => length As
            | PlainModel _ => 1
            end)) /\
  (forall (p : ndarray F) (levels : list pyitem) (w : world F),
     let r := prune_prior (PlainPrior p) levels true w in
     snd r = w /\ is_ok (fst r) = false /\
     (prune_plain_args_ok p levels = true ->
      fst r = inl (NotImplementedError prune_prior_msg))) /\
  (forall (ps : list (ndarray F)) (levels : list pyitem) (w : world F),
     let r := prune_prior (ObjPrior ps) levels true w in
     heap (snd r) = heap w /\
     exists evs : list event,
       trace (snd r) = trace w ++ evs /\
       (Normalized ∉ evs) /\
       (is_ok (fst r) = false -> forallb is_printed evs = true) /\
       (prune_prior_args_ok ps levels = true ->
        fst r = (if forallb (removes_all levels) (enumerate ps)
                 then ok (ObjReduced [])
                 else inl (NotImplementedError prune_prior_msg)))).
Proof.
  split; [|split].
  - apply prune_A_flag.
  - apply prune_prior_plain_flag.
  - apply prune_prior_obj_flag.
Qed.
End PruneProps.

(** ** Arrays: blocks, broadcasting, masks *)

Section ArrayFacts.
Context {T : Type}.

Lemma length_chunks (n sz : nat) (d : list T) : length (chunks n sz d) = n.
Proof.
  revert d. induction n as [|n IH]; intros d; simpl; [done|]. by rewrite IH.
Qed.

Lemma concat_chunks (n sz : nat) (d : list T) :
  length d <= n * sz -> concat (chunks n sz d) = d.
Proof.
  revert d. induction n as [|n IH]; intros d Hlen; simpl.
  - destruct d; simpl in *; [done|lia].
  - rewrite IH.
    + apply take_drop.
    + rewrite length_drop. simpl in Hlen. lia.
Qed.

Lemma chunks_lengths (n sz : nat) (d : list T) :
  length d = n * sz -> Forall (fun c => length c = sz) (chunks n sz d).
Proof.
  revert d. induction n as [|n IH]; intros d Hlen; simpl; [constructor|].
  simpl in Hlen. constructor.
  - rewrite length_take. lia.
  - apply IH. rewrite length_drop. lia.
Qed.

Lemma chunks_concat (sz : nat) (cs : list (list T)) :
  Forall (fun c => length c = sz) cs ->
  chunks (length cs) sz (concat cs) = cs.
Proof.
  induction 1 as [|c cs Hc _ IH]; simpl; [done|].
  rewrite take_app_length' by done. rewrite drop_app_length' by done.
  by rewrite IH.
Qed.

Lemma broadcast_dim_same (a : nat) : broadcast_dim a a = Some a.
Proof. unfold broadcast_dim. by rewrite decide_True. Qed.

Lemma broadcast_aligned_same (s : list nat) : broadcast_aligned s s = Some s.
Proof.
  induction s as [|a s IH]; simpl; [done|].
  by rewrite broadcast_dim_same, IH.
Qed.

Lemma pad_shape_same (s : list nat) : pad_shape (length s) s = s.
Proof. unfold pad_shape. by rewrite Nat.sub_diag. Qed.

Lemma broadcast_shapes_same (s : list nat) : broadcast_shapes s s = Some s.
Proof.
  unfold broadcast_shapes. rewrite Nat.max_id, pad_shape_same.
  apply broadcast_aligned_same.
Qed.

Lemma broadcast_data_same (s : list nat) (d : list T) :
  length d = size s -> broadcast_data s s d = d.
Proof.
  revert d. induction s as [|a s IH]; intros d Hlen; simpl; [done|].
  rewrite decide_True by done.
  simpl in Hlen.
  pose proof (chunks_lengths a (size s) d Hlen) as Hcs.
  rewrite <- (concat_chunks a (size s) d) at 2 by lia.
  f_equal. induction Hcs as [|c cs Hc _ IHcs]; simpl; [done|].
  by rewrite IH, IHcs.
Qed.

Lemma broadcast_to_same (a : ndarray T) :
  nd_wf a -> broadcast_to (shape a) a = data a.
Proof.
  intros Hwf. unfold broadcast_to. rewrite pad_shape_same.
  by apply broadcast_data_same.
Qed.

End ArrayFacts.

Lemma nd_zip_same {T U V : Type} (f : T -> U -> V) (a : ndarray T) (b : ndarray U) :
  nd_wf a -> nd_wf b -> shape b = shape a ->
  nd_zip f a b = ok (NdArray (shape a) (zip_with f (data a) (data b))).
Proof.
  intros Ha Hb Hs. unfold nd_zip, broadcast_to.
  rewrite Hs, broadcast_shapes_same, pad_shape_same.
  rewrite !broadcast_data_same; [done| |done].
  unfold nd_wf in Hb. by rewrite Hb, Hs.
Qed.

Lemma nd_izip_same {T U : Type} (f : T -> U -> T) (a : ndarray T) (b : ndarray U) :
  nd_wf b -> shape b = shape a ->
  nd_izip f a b = ok (NdArray (shape a) (zip_with f (data a) (data b))).
Proof.
  intros Hb Hs. unfold nd_izip, broadcast_to.
  rewrite Hs, broadcast_shapes_same, pad_shape_same.
  rewrite decide_True by done.
  rewrite broadcast_data_same; [done|].
  unfold nd_wf in Hb. by rewrite Hb, Hs.
Qed.

(** ** The store: reading, copying, assigning *)

Section StoreFacts.
Context {F : Type}.
Implicit Types (h : gmap loc (cell F)) (w : world F) (l q : loc).

Lemma read_arr_Some h l (v : ndarray F) :
  read_arr h l = Some v <-> h !! l = Some (CArr v).
Proof.
  unfold read_arr. destruct (h !! l) as [[a|items]|]; split; intros Heq;
    try done; by inversion Heq.
Qed.

Lemma read_obj_holds h q (vals : list (ndarray F)) :
  read_obj h q = Some vals <-> exists items, holds h q items vals.
Proof.
  unfold read_obj, holds. split.
  - destruct (h !! q) as [[a|items]|]; try done.
    intros Hm. exists items. split; [done|].
    apply mapM_Some_1 in Hm.
    eapply Forall2_impl; [exact Hm|]. intros l v. apply read_arr_Some.
  - intros (items & Hq & Hall). rewrite Hq. apply mapM_Some_2.
    eapply Forall2_impl; [exact Hall|]. intros l v. apply read_arr_Some.
Qed.

Lemma obj_items_Some h q (items : list loc) :
  obj_items h q = Some items <-> h !! q = Some (CObj items).
Proof.
  unfold obj_items. destruct (h !! q) as [[a|its]|]; split; intros Heq;
    try done; by inversion Heq.
Qed.

Lemma extends_refl w : extends w w.
Proof. by split. Qed.

Lemma extends_trans w0 w1 w2 :
  extends w0 w1 -> extends w1 w2 -> extends w0 w2.
Proof.
  intros [Hh1 Ht1] [Hh2 Ht2]. split; [|congruence].
  intros l Hl. rewrite Hh2; [by apply Hh1|]. by rewrite Hh1.
Qed.

Lemma alloc_spec (c : cell F) w :
  exists l,
    alloc c w = (ok l, World (<[l := c]> (heap w)) (trace w)) /\
    heap w !! l = None.
Proof.
  exists (fresh (dom (heap w))). split; [done|].
  apply not_elem_of_dom. apply is_fresh.
Qed.

Lemma extends_alloc w0 w l (c : cell F) :
  extends w0 w -> heap w !! l = None ->
  extends w0 (World (<[l := c]> (heap w)) (trace w)).
Proof.
  intros [Hh Ht] Hl. split; [|done]. simpl. intros l0 Hl0.
  rewrite lookup_insert_ne; [by apply Hh|].
  intros ->. rewrite <- Hh in Hl0 by done. rewrite Hl in Hl0.
  by destruct Hl0.
Qed.

(** Overwriting an object that did not exist in [w0]. *)
Lemma extends_store w0 w l (c : cell F) :
  extends w0 w -> heap w0 !! l = None ->
  extends w0 (World (<[l := c]> (heap w)) (trace w)).
Proof.
  intros [Hh Ht] Hl. split; [|done]. simpl. intros l0 Hl0.
  rewrite lookup_insert_ne; [by apply Hh|].
  intros ->. rewrite Hl in Hl0. by destruct Hl0.
Qed.

(** [copy.deepcopy] on the sub-arrays: relative to a store [h0] that the
    current one extends, the copies are new, hold what the originals hold,
    and are pairwise distinct when the originals are. *)
Lemma deepcopy_items_spec h0 :
  forall (items : list loc) (vals : list (ndarray F)) (memo : gmap loc loc) w,
    (forall l, is_Some (h0 !! l) -> heap w !! l = h0 !! l) ->
    Forall2 (fun l v => h0 !! l = Some (CArr v)) items vals ->
    (forall l l', memo !! l = Some l' ->
       h0 !! l' = None /\
       exists v, h0 !! l = Some (CArr v) /\ heap w !! l' = Some (CArr v)) ->
    exists (items' : list loc) (w' : world F),
      deepcopy_items items memo w = (ok items', w') /\
      (forall l, is_Some (heap w !! l) -> heap w' !! l = heap w !! l) /\
      trace w' = trace w /\
      Forall2 (fun l' v => heap w' !! l' = Some (CArr v)) items' vals /\
      Forall (fun l' => h0 !! l' = None) items' /\
      (NoDup items -> (forall l, l ∈ items -> memo !! l = None) ->
       NoDup items' /\ Forall (fun l' => heap w !! l' = None) items').
Proof.
  intros items vals memo w Hext Hall. revert memo w Hext.
  induction Hall as [|l v items vals Hl Hall IH]; intros memo w Hext Hmemo.
  - exists [], w. simpl. repeat split; try done; constructor.
  - cbn [deepcopy_items].
    destruct (memo !! l) as [l'|] eqn:Hml.
    + destruct (Hmemo l l' Hml) as (Hnew & v' & Hv' & Hcopy).
      assert (v' = v) by congruence. subst v'.
      destruct (IH memo w Hext Hmemo)
        as (items' & w' & Hrun & Hframe & Htr & Hvals & Hfresh & Hnd).
      exists (l' :: items'), w'.
      rewrite (bind_eq _ _ _ _ _ Hrun). cbn [ok]. unfold ret.
      split; [done|]. split; [done|]. split; [done|].
      split.
      { constructor; [|done]. rewrite Hframe; [done|]. by rewrite Hcopy. }
      split; [by constructor|].
      intros _ Hnone. specialize (Hnone l).
      rewrite Hml in Hnone. discriminate Hnone. apply elem_of_cons. by left.
    + assert (Hload : load_arr l w = (ok v, w)).
      { unfold load_arr. rewrite Hext by by rewrite Hl. by rewrite Hl. }
      rewrite (bind_eq _ _ _ _ _ Hload). cbn [ok].
      destruct (alloc_spec (CArr v) w) as (l' & Halloc & Hl').
      rewrite (bind_eq _ _ _ _ _ Halloc). cbn [ok].
      assert (Hl'0 : h0 !! l' = None).
      { destruct (h0 !! l') as [c|] eqn:Hc; [|done].
        rewrite <- Hext in Hc by (rewrite Hc; by eexists). congruence. }
      set (w1 := World (<[l' := CArr v]> (heap w)) (trace w)).
      assert (Hext1 : forall l0, is_Some (h0 !! l0) -> heap w1 !! l0 = h0 !! l0).
      { intros l0 Hl0. subst w1. simpl.
        rewrite lookup_insert_ne; [by apply Hext|].
        intros ->. rewrite Hl'0 in Hl0. by destruct Hl0. }
      assert (Hmemo1 : forall l1 l1', (<[l := l']> memo) !! l1 = Some l1' ->
                h0 !! l1' = None /\
                exists v1, h0 !! l1 = Some (CArr v1) /\
                           heap w1 !! l1' = Some (CArr v1)).
      { intros l1 l1' Hin. destruct (decide (l1 = l)) as [->|Hne].
        - rewrite lookup_insert_eq in Hin. inversion Hin; subst l1'.
          split; [done|]. exists v. split; [done|].
          subst w1. simpl. by rewrite lookup_insert_eq.
        - rewrite lookup_insert_ne in Hin by done.
          destruct (Hmemo l1 l1' Hin) as (Hn & v1 & Hv1 & Hc1).
          split; [done|]. exists v1. split; [done|].
          subst w1. simpl. rewrite lookup_insert_ne; [done|].
          intros ->. congruence. }
      destruct (IH (<[l := l']> memo) w1 Hext1 Hmemo1)
        as (items' & w' & Hrun & Hframe & Htr & Hvals & Hfresh & Hnd).
      exists (l' :: items'), w'.
      rewrite (bind_eq _ _ _ _ _ Hrun). cbn [ok]. unfold ret.
      split; [done|].
      assert (Hframe' : forall l0, is_Some (heap w !! l0) ->
                                   heap w' !! l0 = heap w !! l0).
      { intros l0 Hl0.
        assert (l0 <> l') by (intros ->; rewrite Hl' in Hl0; by destruct Hl0).
        rewrite Hframe; subst w1; simpl; by rewrite lookup_insert_ne. }
      split; [done|]. split; [done|]. split.
      { constructor; [|done]. rewrite Hframe; subst w1; simpl;
          by rewrite lookup_insert_eq. }
      split; [by constructor|].
      intros Hnodup Hnone. apply NoDup_cons in Hnodup as [Hnotin Hnodup].
      destruct Hnd as [Hnd' Hfr']; [done| |].
      { intros l1 Hin. rewrite lookup_insert_ne.
        - apply Hnone. apply elem_of_cons. by right.
        - intros ->. done. }
      assert (Hl'notin : l' ∉ items').
      { intros Hin. rewrite Forall_forall in Hfr'. specialize (Hfr' l' Hin).
        subst w1. simpl in Hfr'. by rewrite lookup_insert_eq in Hfr'. }
      split; [by apply NoDup_cons|].
      constructor; [done|].
      rewrite Forall_forall in Hfr'. apply Forall_forall. intros l1 Hin.
      specialize (Hfr' l1 Hin). subst w1. simpl in Hfr'.
      rewrite lookup_insert_ne in Hfr'; [done|]. intros ->. done.
Qed.

(** [copy.deepcopy(p)]: a new object array of new sub-arrays with the
    contents of the old ones; nothing that existed is touched. *)
Lemma deepcopy_spec w p (items : list loc) (vals : list (ndarray F)) :
  holds (heap w) p items vals ->
  exists (q : loc) (items' : list loc) (w' : world F),
    deepcopy p w = (ok q, w') /\
    holds (heap w') q items' vals /\
    extends w w' /\
    heap w !! q = None /\
    Forall (fun l' => heap w !! l' = None) items' /\
    (NoDup items -> NoDup items').
Proof.
  intros [Hp Hall]. unfold deepcopy.
  assert (Hload : load_obj p w = (ok items, w)).
  { unfold load_obj. by rewrite Hp. }
  rewrite (bind_eq _ _ _ _ _ Hload). cbn [ok].
  destruct (alloc_spec (CObj items) w) as (q & Halloc & Hq).
  rewrite (bind_eq _ _ _ _ _ Halloc). cbn [ok].
  set (w1 := World (<[q := CObj items]> (heap w)) (trace w)).
  assert (Hext1 : forall l0, is_Some (heap w !! l0) -> heap w1 !! l0 = heap w !! l0).
  { intros l0 Hl0. subst w1. simpl. rewrite lookup_insert_ne; [done|].
    intros ->. rewrite Hq in Hl0. by destruct Hl0. }
  destruct (deepcopy_items_spec (heap w) items vals ∅ w1 Hext1 Hall)
    as (items' & w2 & Hrun & Hframe & Htr & Hvals & Hfresh & Hnd).
  { intros l l' Hin. by rewrite lookup_empty in Hin. }
  rewrite (bind_eq _ _ _ _ _ Hrun). cbn [ok].
  unfold bind, store, ret. cbn [ok].
  exists q, items', (World (<[q := CObj items']> (heap w2)) (trace w2)).
  split; [done|].
  assert (Hq2 : heap w2 !! q = Some (CObj items)).
  { rewrite Hframe; subst w1; simpl; by rewrite lookup_insert_eq. }
  split.
  { split; [simpl; by rewrite lookup_insert_eq|].
    eapply Forall2_impl; [exact Hvals|]. intros l' v Hl'. simpl.
    rewrite lookup_insert_ne; [done|]. intros ->. congruence. }
  split.
  { split; simpl.
    - intros l0 Hl0.
      assert (l0 <> q) by (intros ->; rewrite Hq in Hl0; by destruct Hl0).
      rewrite lookup_insert_ne by done.
      rewrite Hframe; [by apply Hext1|]. by rewrite Hext1.
    - by rewrite Htr. }
  split; [done|]. split; [done|].
  intros Hnodup. apply Hnd; [done|]. intros l _. apply lookup_empty.
Qed.
End StoreFacts.

(** ** Loops that rewrite one entry of a list per pass *)

Section Folds.
Context {V : Type}.
Variable n : nat.
Variable step : list V -> Z -> result (list V).
Variable vals0 : list V.
Hypothesis vals0_length : length vals0 = n.

(** Every pass keeps a relation [Q] between the original entry and the
    current one: then so does the loop, and entries that were not selected are
    as they were. *)
Lemma rfold_preserve_gen (Q : nat -> V -> V -> Prop) :
  (forall (vals : list V) (i : Z) (k : nat) (v0 v : V),
     length vals = n -> norm_index n i = Some k ->
     vals0 !! k = Some v0 -> vals !! k = Some v -> Q k v0 v ->
     exists v', step vals i = ok (<[k := v']> vals) /\ Q k v0 v') ->
  forall (sel : list Z) (ks : list nat) (P : nat -> Prop) (vals : list V),
    mapM (norm_index n) sel = Some ks ->
    length vals = n ->
    (forall k v0, vals0 !! k = Some v0 ->
       exists v, vals !! k = Some v /\ Q k v0 v /\ (P k -> v = v0)) ->
    exists vals',
      rfold step sel vals = ok vals' /\ length vals' = n /\
      forall k v0, vals0 !! k = Some v0 ->
        exists v, vals' !! k = Some v /\ Q k v0 v /\ (P k -> k ∉ ks -> v = v0).
Proof using vals0_length.
  intros Hstep sel. induction sel as [|i sel IH]; intros ks P vals Hsel Hlen Hinv.
  - inversion Hsel; subst ks. exists vals. split; [done|]. split; [done|].
    intros k v0 Hk. destruct (Hinv k v0 Hk) as (v & Hv & HQ & HP).
    exists v. repeat split; try done. intros HPk _. by apply HP.
  - cbn [mapM] in Hsel.
    destruct (norm_index n i) as [k|] eqn:Hi; [|done].
    destruct (mapM (norm_index n) sel) as [ks'|] eqn:Hsel'; [|done].
    inversion Hsel; subst ks. clear Hsel.
    pose proof (norm_index_lt _ _ _ Hi) as Hk.
    destruct (lookup_lt_is_Some_2 vals0 k) as [v0 Hv0]; [lia|].
    destruct (Hinv k v0 Hv0) as (v & Hv & HQ & _).
    destruct (Hstep vals i k v0 v Hlen Hi Hv0 Hv HQ) as (v' & Hrun & HQ').
    destruct (IH ks' (fun j => P j /\ j <> k) (<[k := v']> vals) eq_refl)
      as (vals' & Hfold & Hlen' & Hres).
    { by rewrite length_insert. }
    { intros j w0 Hj. destruct (decide (j = k)) as [->|Hne].
      - exists v'. rewrite list_lookup_insert_eq by lia.
        assert (w0 = v0) by congruence. subst w0.
        repeat split; try done. intros [_ Hc]. done.
      - destruct (Hinv j w0 Hj) as (x & Hx & HQx & HPx).
        exists x. rewrite list_lookup_insert_ne by done.
        repeat split; try done. intros [HPj _]. by apply HPx. }
    exists vals'. cbn [rfold]. rewrite Hrun. cbn [rbind ok].
    split; [done|]. split; [done|].
    intros j w0 Hj. destruct (Hres j w0 Hj) as (x & Hx & HQx & HPx).
    exists x. repeat split; try done.
    intros HPj Hnotin. apply HPx.
    + split; [done|]. intros ->. apply Hnotin. apply elem_of_cons. by left.
    + intros Hin. apply Hnotin. apply elem_of_cons. by right.
Qed.

Lemma rfold_preserve (Q : nat -> V -> V -> Prop) :
  (forall k v0, vals0 !! k = Some v0 -> Q k v0 v0) ->
  (forall (vals : list V) (i : Z) (k : nat) (v0 v : V),
     length vals = n -> norm_index n i = Some k ->
     vals0 !! k = Some v0 -> vals !! k = Some v -> Q k v0 v ->
     exists v', step vals i = ok (<[k := v']> vals) /\ Q k v0 v') ->
  forall (sel : list Z) (ks : list nat),
    mapM (norm_index n) sel = Some ks ->
    exists vals',
      rfold step sel vals0 = ok vals' /\ length vals' = n /\
      forall k v0, vals0 !! k = Some v0 ->
        exists v, vals' !! k = Some v /\ Q k v0 v /\ (k ∉ ks -> v = v0).
Proof using vals0_length.
  intros Hrefl Hstep sel ks Hsel.
  destruct (rfold_preserve_gen Q Hstep sel ks (fun _ => True) vals0 Hsel
              vals0_length) as (vals' & Hfold & Hlen & Hres).
  { intros k v0 Hk. exists v0. repeat split; try done. by apply Hrefl. }
  exists vals'. split; [done|]. split; [done|].
  intros k v0 Hk. destruct (Hres k v0 Hk) as (v & Hv & HQ & HP).
  exists v. repeat split; try done. intros Hnotin. by apply HP.
Qed.

(** Every pass replaces a not yet selected entry [v] at [k] by [g k v]: when
    no index is selected twice, the loop replaces exactly the selected
    entries. *)
Lemma rfold_update_gen (g : nat -> V -> V) :
  (forall (vals : list V) (i : Z) (k : nat) (v0 : V),
     length vals = n -> norm_index n i = Some k ->
     vals0 !! k = Some v0 -> vals !! k = Some v0 ->
     step vals i = ok (<[k := g k v0]> vals)) ->
  forall (sel : list Z) (ks seen : list nat) (vals : list V),
    mapM (norm_index n) sel = Some ks ->
    NoDup ks ->
    (forall k, k ∈ ks -> k ∉ seen) ->
    length vals = n ->
    (forall k v0, vals0 !! k = Some v0 ->
       vals !! k = Some (if bool_decide (k ∈ seen) then g k v0 else v0)) ->
    exists vals',
      rfold step sel vals = ok vals' /\ length vals' = n /\
      forall k v0, vals0 !! k = Some v0 ->
        vals' !! k = Some (if bool_decide (k ∈ seen ++ ks) then g k v0 else v0).
Proof using vals0_length.
  intros Hstep sel.
  induction sel as [|i sel IH]; intros ks seen vals Hsel Hnd Hdisj Hlen Hinv.
  - inversion Hsel; subst ks. exists vals. rewrite app_nil_r. done.
  - cbn [mapM] in Hsel.
    destruct (norm_index n i) as [k|] eqn:Hi; [|done].
    destruct (mapM (norm_index n) sel) as [ks'|] eqn:Hsel'; [|done].
    inversion Hsel; subst ks. clear Hsel.
    apply NoDup_cons in Hnd as [Hk_notin Hnd].
    pose proof (norm_index_lt _ _ _ Hi) as Hk.
    destruct (lookup_lt_is_Some_2 vals0 k) as [v0 Hv0]; [lia|].
    assert (Hk_done : k ∉ seen) by (apply Hdisj, elem_of_cons; by left).
    assert (Hv : vals !! k = Some v0).
    { rewrite (Hinv k v0 Hv0). by rewrite bool_decide_eq_false_2. }
    pose proof (Hstep vals i k v0 Hlen Hi Hv0 Hv) as Hrun.
    destruct (IH ks' (seen ++ [k]) (<[k := g k v0]> vals) eq_refl Hnd)
      as (vals' & Hfold & Hlen' & Hres).
    { intros j Hj Hin. apply elem_of_app in Hin as [Hin|Hin].
      - apply (Hdisj j); [apply elem_of_cons; by right|done].
      - apply list_elem_of_singleton in Hin. by subst j. }
    { by rewrite length_insert. }
    { intros j w0 Hj. destruct (decide (j = k)) as [->|Hne].
      - rewrite list_lookup_insert_eq by lia.
        assert (w0 = v0) by congruence. subst w0.
        rewrite bool_decide_eq_true_2; [done|].
        apply elem_of_app. right. by apply list_elem_of_singleton.
      - rewrite list_lookup_insert_ne by done. rewrite (Hinv j w0 Hj).
        assert (Hb : bool_decide (j ∈ seen ++ [k]) = bool_decide (j ∈ seen)).
        { apply bool_decide_ext. rewrite elem_of_app, list_elem_of_singleton.
          tauto. }
        by rewrite Hb. }
    exists vals'. cbn [rfold]. rewrite Hrun. cbn [rbind ok].
    split; [done|]. split; [done|].
    intros j w0 Hj. rewrite (Hres j w0 Hj).
    assert (Hb : bool_decide (j ∈ (seen ++ [k]) ++ ks')
                 = bool_decide (j ∈ seen ++ k :: ks')).
    { apply bool_decide_ext. rewrite <- app_assoc. done. }
    by rewrite Hb.
Qed.

Lemma rfold_update (g : nat -> V -> V) :
  (forall (vals : list V) (i : Z) (k : nat) (v0 : V),
     length vals = n -> norm_index n i = Some k ->
     vals0 !! k = Some v0 -> vals !! k = Some v0 ->
     step vals i = ok (<[k := g k v0]> vals)) ->
  forall (sel : list Z) (ks : list nat),
    mapM (norm_index n) sel = Some ks ->
    NoDup ks ->
    exists vals',
      rfold step sel vals0 = ok vals' /\ length vals' = n /\
      forall k v0, vals0 !! k = Some v0 ->
        vals' !! k = Some (if bool_decide (k ∈ ks) then g k v0 else v0).
Proof using vals0_length.
  intros Hstep sel ks Hsel Hnd.
  apply (rfold_update_gen g Hstep sel ks [] vals0 Hsel Hnd).
  - intros k _ Hin. by apply elem_of_nil in Hin.
  - exact vals0_length.
  - intros k v0 Hk. rewrite Hk.
    by rewrite bool_decide_eq_false_2 by apply not_elem_of_nil.
Qed.
End Folds.

(** ** Object arrays in the store *)

Section ObjectFacts.
Context {F : Type}.
Implicit Types (w : world F) (l q : loc).

Lemma holds_length (h : gmap loc (cell F)) q its (vals : list (ndarray F)) :
  holds h q its vals -> length its = length vals.
Proof. intros [_ Hall]. by eapply Forall2_length. Qed.

Lemma obj_getref_spec w q its (vals : list (ndarray F)) (i : Z) (v : ndarray F) :
  holds (heap w) q its vals ->
  py_getitem vals i = ok v ->
  exists (k : nat) (l : loc),
    norm_index (length vals) i = Some k /\ its !! k = Some l /\
    vals !! k = Some v /\ heap w !! l = Some (CArr v) /\
    obj_getref q i w = (ok l, w).
Proof.
  intros Hholds Hget. pose proof (holds_length _ _ _ _ Hholds) as Hlen.
  destruct Hholds as [Hq Hall].
  apply py_getitem_inv in Hget as (k & Hk & Hv).
  destruct (Forall2_lookup_r _ _ _ _ _ Hall Hv) as (l & Hl & Hlv).
  exists k, l. repeat split; try done.
  unfold obj_getref, bind, load_obj, lift. rewrite Hq. cbn [ok].
  unfold py_getitem. by rewrite Hlen, Hk, Hl.
Qed.

Lemma obj_getitem_spec w q its (vals : list (ndarray F)) (i : Z) (v : ndarray F) :
  holds (heap w) q its vals ->
  py_getitem vals i = ok v ->
  obj_getitem q i w = (ok v, w).
Proof.
  intros Hholds Hget.
  destruct (obj_getref_spec w q its vals i v Hholds Hget)
    as (k & l & _ & _ & _ & Hl & Hrun).
  unfold obj_getitem. rewrite (bind_eq _ _ _ _ _ Hrun). cbn [ok].
  unfold load_arr. by rewrite Hl.
Qed.

(** [q[i] = new]: the slot gets a reference to a new object. *)
Lemma obj_setitem_spec w0 w q its (vals : list (ndarray F)) (i : Z) (k : nat)
    (new : ndarray F) :
  heap w0 !! q = None -> extends w0 w -> holds (heap w) q its vals ->
  norm_index (length vals) i = Some k ->
  exists (its' : list loc) (w' : world F),
    obj_setitem q i new w = (ok tt, w') /\ extends w0 w' /\
    holds (heap w') q its' (<[k := new]> vals).
Proof.
  intros Hq0 Hext Hholds Hk.
  pose proof (holds_length _ _ _ _ Hholds) as Hlen.
  destruct Hholds as [Hq Hall].
  destruct (alloc_spec (CArr new) w) as (l & Halloc & Hl).
  exists (<[k := l]> its),
    (World (<[q := CObj (<[k := l]> its)]> (<[l := CArr new]> (heap w))) (trace w)).
  split.
  { unfold obj_setitem, bind, load_obj. rewrite Hq. cbn [ok].
    rewrite Hlen, Hk, Halloc. reflexivity. }
  assert (Hlq : l <> q) by (intros ->; congruence).
  split.
  { assert (Hext1 : extends w0 (World (<[l := CArr new]> (heap w)) (trace w)))
      by by apply extends_alloc.
    pose proof (extends_store w0 _ q (CObj (<[k := l]> its)) Hext1 Hq0) as Hext2.
    exact Hext2. }
  split; simpl.
  - by rewrite lookup_insert_eq.
  - apply Forall2_insert.
    + eapply Forall2_impl; [exact Hall|]. intros l1 v1 Hl1. simpl.
      rewrite lookup_insert_ne by (intros ->; congruence).
      rewrite lookup_insert_ne by (intros ->; congruence). done.
    + rewrite lookup_insert_ne by done. by rewrite lookup_insert_eq.
Qed.

(** [a[...] op= ...] on the array behind slot [k]: the object is
    overwritten; with pairwise distinct sub-arrays no other slot sees it. *)
Lemma store_inplace_spec w0 w q its (vals : list (ndarray F)) (k : nat) l
    (new : ndarray F) :
  Forall (fun l' => heap w0 !! l' = None) its -> NoDup its ->
  extends w0 w -> holds (heap w) q its vals ->
  its !! k = Some l ->
  store l (CArr new) w
    = (ok tt, World (<[l := CArr new]> (heap w)) (trace w)) /\
  extends w0 (World (<[l := CArr new]> (heap w)) (trace w)) /\
  holds (World (<[l := CArr new]> (heap w)) (trace w)).(heap) q its
        (<[k := new]> vals).
Proof.
  intros Hfresh Hnd Hext [Hq Hall] Hl.
  split; [done|]. split.
  { apply extends_store; [done|].
    rewrite Forall_forall in Hfresh. apply Hfresh.
    by eapply list_elem_of_lookup_2. }
  assert (Hlen : length its = length vals) by by eapply Forall2_length.
  split; simpl.
  - rewrite lookup_insert_ne; [done|].
    intros ->. destruct (Forall2_lookup_l _ _ _ _ _ Hall Hl) as (v & _ & Hv).
    congruence.
  - apply Forall2_same_length_lookup. split; [by rewrite length_insert|].
    intros j l1 v1 Hl1 Hv1. destruct (decide (j = k)) as [->|Hne].
    + assert (l1 = l) by congruence. subst l1.
      rewrite list_lookup_insert_eq in Hv1.
      * inversion Hv1; subst v1. by rewrite lookup_insert_eq.
      * rewrite <- Hlen. by eapply lookup_lt_Some.
    + rewrite list_lookup_insert_ne in Hv1 by done.
      rewrite lookup_insert_ne.
      * exact (Forall2_lookup_lr _ _ _ _ _ _ Hall Hl1 Hv1).
      * intros ->. apply Hne. symmetry.
        exact (NoDup_lookup its k j l1 Hnd Hl Hl1).
Qed.

(** A loop over the store follows the loop on the values when every pass
    does. *)
Lemma for_each_refines {V : Type} (body : Z -> py F unit)
    (step : list V -> Z -> result (list V)) (I : world F -> list V -> Prop) :
  (forall w vals i vals',
     I w vals -> step vals i = ok vals' ->
     exists w', body i w = (ok tt, w') /\ I w' vals') ->
  forall (sel : list Z) w vals vals',
    I w vals -> rfold step sel vals = ok vals' ->
    exists w', for_each sel body w = (ok tt, w') /\ I w' vals'.
Proof.
  intros Hbody sel. induction sel as [|i sel IH]; intros w vals vals' HI Hfold.
  - inversion Hfold; subst vals'. by exists w.
  - cbn [rfold] in Hfold.
    destruct (step vals i) as [e|vals1] eqn:Hstep; [done|].
    destruct (Hbody w vals i vals1 HI Hstep) as (w1 & Hrun & HI1).
    destruct (IH w1 vals1 vals' HI1 Hfold) as (w' & Hloop & HI').
    exists w'. split; [|done].
    cbn [for_each]. by rewrite (bind_eq _ _ _ _ _ Hrun).
Qed.
End ObjectFacts.

(** ** [update_obs_likelihood_dirichlet] *)

Lemma forallb_zip_lookup {A B : Type} (f : A * B -> bool) (l : list A)
    (k : list B) (i : nat) (x : A) (y : B) :
  forallb f (zip l k) = true -> l !! i = Some x -> k !! i = Some y ->
  f (x, y) = true.
Proof.
  intros Hall Hx Hy. rewrite forallb_forall in Hall. apply Hall.
  apply list_elem_of_In. apply (list_elem_of_lookup_2 _ i).
  apply lookup_zip_with_Some. by exists x, y.
Qed.

Lemma size_app (s1 s2 : list nat) : size (s1 ++ s2) = size s1 * size s2.
Proof.
  unfold size. induction s1 as [|a s1 IH]; simpl; [lia|]. rewrite IH. lia.
Qed.

Section ObsProps.
Context {F : Type} `{Scalar F}.
Variable observation : Type.
Variable process_observation :
  observation -> nat -> list nat -> result (list (ndarray F)).

Local Abbreviation update_obs :=
  (update_obs_likelihood_dirichlet observation process_observation).

Lemma outer2_wf (x y : ndarray F) : nd_wf x -> nd_wf y -> nd_wf (outer2 x y).
Proof.
  unfold nd_wf, outer2. simpl. intros Hx Hy. rewrite size_app, <- Hx, <- Hy.
  clear Hx Hy. induction (data x) as [|a d IH]; [done|].
  rewrite bind_cons, length_app, length_map, IH. simpl. done.
Qed.

Lemma spm_cross_wf (x : ndarray F) (ys : list (ndarray F)) :
  nd_wf x -> forallb (fun q => bool_decide (nd_wf q)) ys = true ->
  nd_wf (spm_cross x ys).
Proof.
  unfold spm_cross. revert x. induction ys as [|y ys IH]; intros x Hx Hys; [done|].
  simpl in Hys. apply andb_prop in Hys as [Hy Hys].
  apply bool_decide_eq_true_1 in Hy. simpl. apply IH; [|done].
  by apply outer2_wf.
Qed.

Lemma nd_gt0_mask_wf (a : ndarray F) :
  nd_wf a -> nd_wf (astype_float (nd_gt0 a) : ndarray F).
Proof. unfold nd_wf. simpl. by rewrite !length_map. Qed.

(** The mask as the code applies it, a multiplication by 1.0 or 0.0, is the
    mask of the specification as soon as [x * 1 = x] and [x * 0 = 0]. *)
Lemma masked_data (lr : F) (ps als ds : list F) :
  (forall x : F, fmul x fone = x) ->
  (forall x : F, fmul x fzero = fzero) ->
  zip_with fadd ps
    (map (fmul lr)
       (zip_with fmul ds
          (map (fun b : bool => if b then fone else fzero) (map fgt0 als))))
  = zip_with (fun x '(a, d) => fadd x (fmul lr (masked a d))) ps (zip als ds).
Proof.
  intros Hone Hzero. revert als ds.
  induction ps as [|p ps IH]; intros als ds; [done|].
  destruct als as [|a als]; destruct ds as [|d ds]; simpl; try done.
  rewrite IH. f_equal. unfold masked.
  destruct (fgt0 a); by rewrite ?Hone, ?Hzero.
Qed.

(** With a learning rate of zero nothing is added, as soon as
    [0 * x = 0] and [x + 0 = x]. *)
Lemma zero_rate_data (ps xs : list F) :
  (forall x : F, fmul fzero x = fzero) ->
  (forall x : F, fadd x fzero = x) ->
  length ps <= length xs ->
  zip_with fadd ps (map (fmul fzero) xs) = ps.
Proof.
  intros Hmul Hadd. revert xs.
  induction ps as [|p ps IH]; intros xs Hlen; [done|].
  destruct xs as [|x xs]; simpl in *; [lia|].
  rewrite Hmul, Hadd, IH; [done|lia].
Qed.

Lemma obs_args_ok_inv (pA A obs qs : list (ndarray F)) :
  obs_args_ok pA A obs qs = true ->
  length A = length pA /\ length obs = length pA /\
  forallb (fun q => bool_decide (nd_wf q)) qs = true /\
  forall k p a o,
    pA !! k = Some p -> A !! k = Some a -> obs !! k = Some o ->
    nd_wf p /\ nd_wf a /\ nd_wf o /\ shape a = shape p /\
    shape (spm_cross o qs) = shape p /\ shape p ≠ [].
Proof.
  unfold obs_args_ok. intros Hok.
  apply andb_prop in Hok as [Hok Hqs].
  apply andb_prop in Hok as [Hok Hall].
  apply andb_prop in Hok as [HlenA Hlenobs].
  apply bool_decide_eq_true_1 in HlenA, Hlenobs.
  repeat split; try done.
  all: pose proof (forallb_zip_lookup _ pA (zip A obs) k p (a, o) Hall) as Hk;
    cbv beta iota in Hk;
    rewrite !andb_true_iff, !bool_decide_eq_true in Hk;
    assert (Hao : zip A obs !! k = Some (a, o))
      by (apply lookup_zip_with_Some; by exists a, o);
    specialize (Hk ltac:(done) Hao); tauto.
Qed.

(** One pass on the values, for arguments of the right shapes: the entry at
    the selected index becomes [p + lr * (delta * mask)]. *)
Lemma obs_step_value (pA A obs qs : list (ndarray F)) (lr : F)
    (vals : list (ndarray F)) (i : Z) (k : nat) (p v a o : ndarray F) :
  obs_args_ok pA A obs qs = true ->
  length vals = length pA ->
  norm_index (length pA) i = Some k ->
  pA !! k = Some p -> A !! k = Some a -> obs !! k = Some o ->
  vals !! k = Some v -> shape v = shape p -> nd_wf v ->
  obs_step A obs qs lr vals i =
    ok (<[k := NdArray (shape p)
                 (zip_with fadd (data v)
                    (map (fmul lr)
                       (zip_with fmul (data (spm_cross o qs))
                          (map (fun b : bool => if b then fone else fzero)
                             (map fgt0 (data a))))))]> vals).
Proof.
  intros Hok Hlen Hi Hp Ha Ho Hv Hsv Hwv.
  destruct (obs_args_ok_inv _ _ _ _ Hok) as (HlenA & Hlenobs & Hqs & Hall).
  destruct (Hall k p a o Hp Ha Ho) as (Hwp & Hwa & Hwo & Hsa & Hsd & Hne).
  unfold obs_step.
  rewrite (py_getitem_norm obs i k o) by (by rewrite ?Hlenobs).
  cbn [rbind ok].
  rewrite (py_getitem_norm A i k a) by (by rewrite ?HlenA).
  cbn [rbind ok].
  unfold nd_mul. rewrite nd_zip_same.
  2:{ by apply spm_cross_wf. }
  2:{ by apply nd_gt0_mask_wf. }
  2:{ simpl. by rewrite Hsa, Hsd. }
  cbn [rbind ok].
  rewrite (py_getitem_norm vals i k v) by (by rewrite ?Hlen).
  cbn [rbind ok].
  unfold nd_add. rewrite nd_zip_same; [| done | | ].
  - cbn [rbind ok]. rewrite Hlen, Hi. by rewrite Hsv.
  - unfold nd_wf, nd_scale. simpl.
    rewrite length_map, length_zip_with, !length_map.
    pose proof (spm_cross_wf o qs Hwo Hqs) as Hwd.
    unfold nd_wf in Hwd, Hwa. rewrite Hwd, Hwa, Hsa, Hsd. lia.
  - simpl. by rewrite Hsd.
Qed.

(** One pass of the loop in the store does to the copy what [obs_step] does
    to its values, and touches nothing that existed before the call. *)
Lemma update_obs_body_refines (A obs qs : list (ndarray F)) (lr : F)
    (w0 : world F) (q : loc) (w : world F) (vals : list (ndarray F)) (i : Z)
    (vals' : list (ndarray F)) :
  heap w0 !! q = None ->
  extends w0 w /\ (exists its, holds (heap w) q its vals) ->
  obs_step A obs qs lr vals i = ok vals' ->
  exists w',
    update_obs_body A obs qs lr q i w = (ok tt, w') /\
    (extends w0 w' /\ exists its', holds (heap w') q its' vals').
Proof.
  intros Hq0 [Hext [its Hholds]] Hstep.
  unfold obs_step in Hstep. unfold update_obs_body.
  destruct (py_getitem obs i) as [e|o]; [done|].
  cbn [rbind] in Hstep. rewrite bind_lift.
  destruct (py_getitem A i) as [e|A_m]; [done|].
  cbn [rbind] in Hstep. rewrite bind_lift.
  destruct (nd_mul (spm_cross o qs) (astype_float (nd_gt0 A_m))) as [e|dfda];
    [done|].
  cbn [rbind] in Hstep. rewrite bind_lift.
  destruct (py_getitem vals i) as [e|qA_m] eqn:Hget; [done|].
  cbn [rbind] in Hstep.
  rewrite (bind_eq _ _ _ _ _ (obj_getitem_spec w q its vals i qA_m Hholds Hget)).
  cbn [ok].
  destruct (nd_add qA_m (nd_scale lr dfda)) as [e|new]; [done|].
  cbn [rbind] in Hstep. rewrite bind_lift.
  destruct (norm_index (length vals) i) as [k|] eqn:Hk; [|done].
  inversion Hstep; subst vals'.
  destruct (obj_setitem_spec w0 w q its vals i k new Hq0 Hext Hholds Hk)
    as (its' & w' & Hrun & Hext' & Hholds').
  exists w'. split; [done|]. split; [done|]. by exists its'.
Qed.

Lemma for_map_shape0 (w : world F) (items : list loc) (vals : list (ndarray F)) :
  Forall2 (fun l v => heap w !! l = Some (CArr v)) items vals ->
  Forall (fun v : ndarray F => shape v ≠ []) vals ->
  for_map items (fun l => bind (load_arr l) (fun a => lift (shape0 a))) w
    = (ok (map (fun a : ndarray F => hd 0 (shape a)) vals), w).
Proof.
  induction 1 as [|l v items vals Hl Hall IH]; intros Hne; [done|].
  apply Forall_cons in Hne as [Hv Hne].
  cbn [for_map]. unfold bind at 1. unfold bind at 1. unfold load_arr at 1.
  rewrite Hl. cbn [ok]. unfold lift at 1, shape0.
  destruct (shape v) as [|n rest] eqn:Hs; [done|].
  cbn [ok]. rewrite (bind_eq _ _ _ _ _ (IH Hne)). cbn [ok].
  unfold ret. simpl. by rewrite Hs.
Qed.

(** The whole call, given the outcome of the loop on the values. *)
Lemma update_obs_run (pA : loc) (A : list (ndarray F)) (obs : observation)
    (qs : list (ndarray F)) (lr : F) (modalities : option (list Z))
    (w : world F) (pAv obsv vals' : list (ndarray F)) :
  read_obj (heap w) pA = Some pAv ->
  Forall (fun v : ndarray F => shape v ≠ []) pAv ->
  process_observation obs (length pAv)
    (map (fun a : ndarray F => hd 0 (shape a)) pAv) = ok obsv ->
  rfold (obs_step A obsv qs lr) (default (py_range (length pAv)) modalities) pAv
    = ok vals' ->
  exists (qA : loc) (w' : world F),
    update_obs pA A obs qs lr modalities w = (ok qA, w') /\
    read_obj (heap w') qA = Some vals' /\
    extends w w' /\
    heap w !! qA = None.
Proof.
  intros Hread Hne Hobs Hfold.
  apply read_obj_holds in Hread as [items Hholds].
  pose proof (holds_length _ _ _ _ Hholds) as Hlen.
  unfold update_obs_likelihood_dirichlet.
  assert (Hload : load_obj pA w = (ok items, w)).
  { unfold load_obj. destruct Hholds as [Hp _]. by rewrite Hp. }
  rewrite (bind_eq _ _ _ _ _ Hload). cbn [ok].
  rewrite (bind_eq _ _ _ _ _ (for_map_shape0 w items pAv (proj2 Hholds) Hne)).
  cbn [ok]. rewrite Hlen, Hobs, bind_lift_ok.
  destruct (deepcopy_spec w pA items pAv Hholds)
    as (q & items' & w1 & Hcopy & Hholds1 & Hext1 & Hq & _ & _).
  rewrite (bind_eq _ _ _ _ _ Hcopy). cbn [ok].
  destruct (for_each_refines (update_obs_body A obsv qs lr q)
              (obs_step A obsv qs lr)
              (fun w' vals => extends w w' /\ exists its, holds (heap w') q its vals)
              (fun w' vals i vals'0 =>
                 update_obs_body_refines A obsv qs lr w q w' vals i vals'0 Hq)
              _ w1 pAv vals' (conj Hext1 (ex_intro _ items' Hholds1)) Hfold)
    as (w2 & Hloop & Hext2 & its2 & Hholds2).
  rewrite (bind_eq _ _ _ _ _ Hloop). cbn [ok]. unfold ret.
  exists q, w2. split; [done|]. split; [|done].
  apply read_obj_holds. by exists its2.
Qed.

Lemma obs_args_shapes (pA A obs qs : list (ndarray F)) :
  obs_args_ok pA A obs qs = true ->
  Forall (fun v : ndarray F => shape v ≠ []) pA.
Proof.
  intros Hok. destruct (obs_args_ok_inv _ _ _ _ Hok) as (HlenA & Hlenobs & _ & Hall).
  apply Forall_lookup. intros k p Hp.
  destruct (lookup_lt_is_Some_2 A k) as [a Ha].
  { rewrite HlenA. by eapply lookup_lt_Some. }
  destruct (lookup_lt_is_Some_2 obs k) as [o Ho].
  { rewrite Hlenobs. by eapply lookup_lt_Some. }
  by destruct (Hall k p a o Hp Ha Ho) as (_ & _ & _ & _ & _ & Hne).
Qed.

(** C4.  For a store in which [pA] is an object array of tensors, an
    observation that [process_observation] accepts, arguments of the right
    shapes and a selection that names no modality twice, and as soon as
    [x * 1 = x], [x * 0 = 0] and [0 > 0] is false: the call returns a new
    object array [qA]; for every selected modality [qA[m]] is [pA[m] + lr *
    delta], the outer product of the observation with the beliefs masked to
    zero wherever [A[m] > 0] fails, in particular wherever [A[m]] is zero;
    every other [qA[m]] is [pA[m]]; and every object that existed before the
    call, [pA] and its sub-arrays among them, is as it was. *)
Theorem update_obs_likelihood_dirichlet_spec :
  forall (pA : loc) (A : list (ndarray F)) (obs : observation)
         (qs : list (ndarray F)) (lr : F) (modalities : option (list Z))
         (w : world F) (pAv obsv : list (ndarray F)) (sel : list nat),
    (forall x : F, fmul x fone = x) ->
    (forall x : F, fmul x fzero = fzero) ->
    fgt0 fzero = false ->
    read_obj (heap w) pA = Some pAv ->
    process_observation obs (length pAv)
      (map (fun a : ndarray F => hd 0 (shape a)) pAv) = ok obsv ->
    obs_args_ok pAv A obsv qs = true ->
    selection (length pAv) modalities = Some sel ->
    NoDup sel ->
    exists (qA : loc) (w' : world F) (qAv : list (ndarray F)),
      update_obs pA A obs qs lr modalities w = (ok qA, w') /\
      read_obj (heap w') qA = Some qAv /\
      length qAv = length pAv /\
      (forall (m : nat) (p a o : ndarray F),
         pAv !! m = Some p -> A !! m = Some a -> obsv !! m = Some o ->
         qAv !! m = Some (if bool_decide (m ∈ sel)
                          then obs_rule lr p a (spm_cross o qs)
                          else p)) /\
      (forall d : F, masked fzero d = fzero) /\
      heap w !! qA = None /\
      (forall l : loc, is_Some (heap w !! l) -> heap w' !! l = heap w !! l) /\
      read_obj (heap w') pA = Some pAv /\
      trace w' = trace w.
Proof.
  intros pA A obs qs lr modalities w pAv obsv sel Hone Hzero Hgt Hread Hobs
    Hok Hsel Hnd.
  destruct (obs_args_ok_inv _ _ _ _ Hok) as (HlenA & Hlenobs & Hqs & Hall).
  set (g := fun (k : nat) (p : ndarray F) =>
              match A !! k, obsv !! k with
              | Some a, Some o => obs_rule lr p a (spm_cross o qs)
              | _, _ => p
              end).
  destruct (rfold_update (length pAv) (obs_step A obsv qs lr) pAv eq_refl g)
    with (sel := default (py_range (length pAv)) modalities) (ks := sel)
    as (vals' & Hfold & Hlen' & Hres); try done.
  { intros vals i k p Hlen Hi Hp Hv.
    destruct (lookup_lt_is_Some_2 A k) as [a Ha].
    { rewrite HlenA. by eapply lookup_lt_Some. }
    destruct (lookup_lt_is_Some_2 obsv k) as [o Ho].
    { rewrite Hlenobs. by eapply lookup_lt_Some. }
    destruct (Hall k p a o Hp Ha Ho) as (Hwp & _).
    rewrite (obs_step_value pAv A obsv qs lr vals i k p p a o); try done.
    subst g. cbv beta. rewrite Ha, Ho. unfold obs_rule.
    by rewrite masked_data. }
  destruct (update_obs_run pA A obs qs lr modalities w pAv obsv vals' Hread
              (obs_args_shapes _ _ _ _ Hok) Hobs Hfold)
    as (qA & w' & Hrun & Hread' & [Hframe Htrace] & Hfresh).
  exists qA, w', vals'. split; [done|]. split; [done|]. split; [done|].
  split.
  { intros m p a o Hp Ha Ho. rewrite (Hres m p Hp). subst g. cbv beta.
    by rewrite Ha, Ho. }
  split; [intros d; unfold masked; by rewrite Hgt|].
  split; [done|]. split; [done|]. split; [|done].
  apply read_obj_holds in Hread as [items [Hp Hitems]].
  apply read_obj_holds. exists items. split.
  - rewrite Hframe; [done|]. by rewrite Hp.
  - eapply Forall2_impl; [exact Hitems|]. intros l v Hl.
    rewrite Hframe; [done|]. by rewrite Hl.
Qed.

(** C5.  For a store in which [pA] is an object array of tensors, an
    observation that [process_observation] accepts, arguments of the right
    shapes and any selection of existing modalities (a modality may be named
    more than once), and as soon as [0 * x = 0] and [x + 0 = x]: with the
    learning rate zero the call returns an object array whose tensors are
    those of [pA], entry for entry. *)
Theorem update_obs_likelihood_dirichlet_lr_zero :
  forall (pA : loc) (A : list (ndarray F)) (obs : observation)
         (qs : list (ndarray F)) (modalities : option (list Z))
         (w : world F) (pAv obsv : list (ndarray F)) (sel : list nat),
    (forall x : F, fmul fzero x = fzero) ->
    (forall x : F, fadd x fzero = x) ->
    read_obj (heap w) pA = Some pAv ->
    process_observation obs (length pAv)
      (map (fun a : ndarray F => hd 0 (shape a)) pAv) = ok obsv ->
    obs_args_ok pAv A obsv qs = true ->
    selection (length pAv) modalities = Some sel ->
    exists (qA : loc) (w' : world F),
      update_obs pA A obs qs fzero modalities w = (ok qA, w') /\
      read_obj (heap w') qA = Some pAv.
Proof.
  intros pA A obs qs modalities w pAv obsv sel Hmul Hadd Hread Hobs Hok Hsel.
  destruct (obs_args_ok_inv _ _ _ _ Hok) as (HlenA & Hlenobs & Hqs & Hall).
  destruct (rfold_preserve (length pAv) (obs_step A obsv qs fzero) pAv eq_refl
              (fun _ v0 v => v = v0))
    with (sel := default (py_range (length pAv)) modalities) (ks := sel)
    as (vals' & Hfold & Hlen' & Hres); try done.
  { intros vals i k p v Hlen Hi Hp Hv ->.
    destruct (lookup_lt_is_Some_2 A k) as [a Ha].
    { rewrite HlenA. by eapply lookup_lt_Some. }
    destruct (lookup_lt_is_Some_2 obsv k) as [o Ho].
    { rewrite Hlenobs. by eapply lookup_lt_Some. }
    destruct (Hall k p a o Hp Ha Ho) as (Hwp & Hwa & Hwo & Hsa & Hsd & Hne).
    exists p. split; [|done].
    rewrite (obs_step_value pAv A obsv qs fzero vals i k p p a o); try done.
    rewrite zero_rate_data; try done.
    - by destruct p.
    - rewrite length_zip_with, !length_map.
      pose proof (spm_cross_wf o qs Hwo Hqs) as Hwd.
      unfold nd_wf in Hwp, Hwd, Hwa. rewrite Hwp, Hwd, Hwa, Hsa, Hsd. lia. }
  assert (vals' = pAv).
  { apply list_eq_same_length with (length pAv); try done.
    intros k x y Hk Hx Hy. destruct (Hres k y Hy) as (v & Hv & -> & _).
    congruence. }
  subst vals'.
  destruct (update_obs_run pA A obs qs fzero modalities w pAv obsv pAv Hread
              (obs_args_shapes _ _ _ _ Hok) Hobs Hfold)
    as (qA & w' & Hrun & Hread' & _).
  by exists qA, w'.
Qed.
End ObsProps.

(** ** Boolean masks and slices along the third axis *)

Section MaskFacts.
Context {T : Type}.

Lemma expand_mask_one (m : list bool) : expand_mask 1 m = m.
Proof.
  unfold expand_mask. induction m as [|b m IH]; [done|].
  rewrite bind_cons, IH. done.
Qed.

Lemma length_select (m : list bool) (d : list T) :
  length m <= length d -> length (select m d) = count_true m.
Proof.
  unfold count_true. revert d. induction m as [|b m IH]; intros d Hlen; [done|].
  destruct d as [|x d]; simpl in *; [lia|].
  destruct b; simpl.
  - rewrite IH; [done|lia].
  - rewrite filter_cons_False by done. rewrite IH; [done|lia].
Qed.

Lemma length_put (m : list bool) (d vs : list T) :
  length (put m d vs) = length d.
Proof.
  revert d vs. induction m as [|b m IH]; intros d vs; [done|].
  destruct d as [|x d]; [by destruct b|].
  destruct b; simpl.
  - destruct vs; simpl; by rewrite IH.
  - by rewrite IH.
Qed.

(** Where the mask is false the entry stays. *)
Lemma put_lookup_false (m : list bool) (d vs : list T) (j : nat) :
  m !! j = Some false -> put m d vs !! j = d !! j.
Proof.
  revert d vs j. induction m as [|b m IH]; intros d vs j Hj; [done|].
  destruct d as [|x d]; [by destruct b|].
  destruct j as [|j]; simpl in Hj.
  - inversion Hj; subst b. done.
  - destruct b; simpl.
    + destruct vs; simpl; by apply IH.
    + by apply IH.
Qed.

(** [d[m] = f(d[m], e[m])] entry by entry. *)
Lemma put_select (f : T -> T -> T) (m : list bool) (d e : list T) :
  length d = length m -> length e = length m ->
  put m d (zip_with f (select m d) (select m e))
  = zip_with (fun '(b, x) y => if b : bool then f x y else x) (zip m d) e.
Proof.
  revert d e. induction m as [|b m IH]; intros d e Hd He.
  - destruct d; simpl in *; [done|lia].
  - destruct d as [|x d]; destruct e as [|y e]; simpl in *; try lia.
    destruct b; simpl; rewrite IH by lia; done.
Qed.

Lemma select_map (g : T -> T) (m : list bool) (d : list T) :
  select m (map g d) = map g (select m d).
Proof.
  revert d. induction m as [|b m IH]; intros d; [done|].
  destruct d as [|x d]; [done|]. destruct b; simpl; by rewrite IH.
Qed.

Lemma mask_fits_same (a : ndarray T) (m : ndarray bool) :
  shape m = shape a -> mask_fits a m /\ mask_rest a m = [].
Proof.
  intros Hs. unfold mask_fits, mask_rest. rewrite Hs.
  split; [apply firstn_all|apply drop_all].
Qed.

(** [a[m]] for a mask of the shape of [a]. *)
Lemma mask_get_same (a : ndarray T) (m : ndarray bool) :
  shape m = shape a ->
  mask_get a m = ok (NdArray [count_true (data m)] (select (data m) (data a))).
Proof.
  intros Hs. destruct (mask_fits_same a m Hs) as [Hfit Hrest].
  unfold mask_get. rewrite decide_True by done. rewrite Hrest. simpl.
  by rewrite expand_mask_one.
Qed.

(** [a[m] = v] for a mask of the shape of [a] and as many values as the mask
    selects. *)
Lemma mask_set_same (a : ndarray T) (m : ndarray bool) (v : ndarray T) :
  shape m = shape a -> shape v = [count_true (data m)] ->
  length (data v) = count_true (data m) ->
  mask_set a m v = ok (NdArray (shape a) (put (data m) (data a) (data v))).
Proof.
  intros Hs Hv Hlen. destruct (mask_fits_same a m Hs) as [Hfit Hrest].
  unfold mask_set. rewrite decide_True by done. rewrite Hrest. simpl.
  rewrite Hv, broadcast_shapes_same. rewrite decide_True by done.
  rewrite expand_mask_one. rewrite <- Hv, broadcast_to_same; [done|].
  unfold nd_wf. rewrite Hv. simpl. lia.
Qed.

Lemma sub_get_sub_set (r k k' : nat) (c v : list T) :
  k' <> k -> length v = r -> (k + 1) * r <= length c ->
  sub_get r k' (sub_set r k c v) = sub_get r k' c.
Proof.
  intros Hne Hv Hc. unfold sub_get, sub_set.
  destruct (decide (k' < k)) as [Hlt|Hge].
  - assert (Hle : k' * r + r <= k * r) by nia.
    rewrite drop_app_le by (rewrite length_take; lia).
    rewrite take_app_le by (rewrite length_drop, length_take; lia).
    rewrite skipn_firstn_comm, take_take. f_equal. lia.
  - assert (Hle : (k + 1) * r <= k' * r) by nia.
    rewrite app_assoc, drop_app_ge by (rewrite length_app, length_take; lia).
    rewrite length_app, length_take, drop_drop.
    do 2 f_equal. lia.
Qed.

Lemma length_sub_set (r k : nat) (c v : list T) :
  length v = r -> (k + 1) * r <= length c ->
  length (sub_set r k c v) = length c.
Proof.
  intros Hv Hc. unfold sub_set.
  rewrite !length_app, length_take, length_drop. lia.
Qed.

Lemma length_sub_get (r k : nat) (c : list T) :
  (k + 1) * r <= length c -> length (sub_get r k c) = r.
Proof.
  intros Hc. unfold sub_get. rewrite length_take, length_drop. lia.
Qed.
End MaskFacts.

(** ** [update_state_prior_dirichlet] *)

Section PriorProps.
Context {F : Type} `{Scalar F}.

Lemma holds_extends (w0 w : world F) (p : loc) (items : list loc)
    (vals : list (ndarray F)) :
  holds (heap w0) p items vals -> extends w0 w -> holds (heap w) p items vals.
Proof.
  intros [Hp Hall] [Hframe _]. split.
  - rewrite Hframe; [done|]. by rewrite Hp.
  - eapply Forall2_impl; [exact Hall|]. intros l v Hl. simpl in Hl.
    rewrite Hframe; [done|]. by rewrite Hl.
Qed.

Lemma prior_args_ok_inv (pD qs : list (ndarray F)) :
  prior_args_ok pD qs = true ->
  length qs = length pD /\
  forall k p q, pD !! k = Some p -> qs !! k = Some q ->
    nd_wf p /\ nd_wf q /\ shape q = shape p.
Proof.
  unfold prior_args_ok. intros Hok.
  apply andb_prop in Hok as [Hlen Hall].
  apply bool_decide_eq_true_1 in Hlen. split; [done|].
  intros k p q Hp Hq.
  pose proof (forallb_zip_lookup _ pD qs k p q Hall Hp Hq) as Hk.
  cbv beta iota in Hk. rewrite !andb_true_iff, !bool_decide_eq_true in Hk.
  tauto.
Qed.

Lemma prior_rule_data (lr : F) (dp dq : list F) :
  zip_with (fun '(b, x) y => if b : bool then fadd x (fmul lr y) else x)
    (zip (map fgt0 dp) dp) dq
  = zip_with (fun x y => if fgt0 x then fadd x (fmul lr y) else x) dp dq.
Proof.
  revert dq. induction dp as [|x dp IH]; intros dq; [done|].
  destruct dq as [|y dq]; [done|]. simpl. by rewrite IH.
Qed.

(** One pass on the values, for arguments of the right shapes: in the entry
    at the selected index every position where the prior is positive gets its
    increment, and no other position changes. *)
Lemma prior_step_value (pD qs : list (ndarray F)) (lr : F)
    (vals : list (ndarray F)) (i : Z) (k : nat) (p q v : ndarray F) :
  prior_args_ok pD qs = true ->
  length vals = length pD ->
  norm_index (length pD) i = Some k ->
  pD !! k = Some p -> qs !! k = Some q -> vals !! k = Some v ->
  shape v = shape p -> length (data v) = length (data p) ->
  prior_step pD qs lr vals i =
    ok (<[k := NdArray (shape v)
                 (zip_with
                    (fun '(b, x) y => if b : bool then fadd x (fmul lr y) else x)
                    (zip (map fgt0 (data p)) (data v)) (data q))]> vals).
Proof.
  intros Hok Hlen Hi Hp Hq Hv Hsv Hlv.
  destruct (prior_args_ok_inv _ _ Hok) as (Hlenq & Hall).
  destruct (Hall k p q Hp Hq) as (Hwp & Hwq & Hsq).
  assert (Hlq : length (data q) = length (data p)).
  { unfold nd_wf in Hwp, Hwq. by rewrite Hwp, Hwq, Hsq. }
  unfold prior_step.
  rewrite (py_getitem_norm pD i k p) by done. cbn [rbind ok].
  rewrite (py_getitem_norm vals i k v) by (by rewrite ?Hlen). cbn [rbind ok].
  rewrite mask_get_same by (simpl; by rewrite Hsv). cbn [rbind ok].
  rewrite (py_getitem_norm qs i k q) by (by rewrite ?Hlenq). cbn [rbind ok].
  rewrite mask_get_same by (simpl; by rewrite Hsq). cbn [rbind ok].
  unfold nd_gt0, nd_map. cbn [data shape].
  unfold nd_iadd. rewrite nd_izip_same.
  2:{ unfold nd_wf, nd_scale, nd_map. cbn [data shape]. simpl.
      rewrite length_map, length_select by (rewrite length_map; lia). lia. }
  2:{ done. }
  cbn [rbind ok data shape].
  rewrite mask_set_same.
  2:{ simpl. by rewrite Hsv. }
  2:{ done. }
  2:{ cbn [data]. unfold nd_scale, nd_map. cbn [data].
      rewrite length_zip_with, length_map.
      rewrite !length_select by (rewrite length_map; lia). lia. }
  cbn [rbind ok data shape]. rewrite Hlen, Hi.
  unfold nd_scale, nd_map. cbn [data].
  rewrite <- select_map.
  rewrite put_select by (rewrite ?length_map; lia).
  do 3 f_equal.
  clear. generalize (map fgt0 (data p)). intros m. revert m.
  generalize (data v). intros dv. revert dv.
  induction (data q) as [|y dq IH]; intros dv m.
  - by destruct (zip m dv).
  - destruct m as [|b m]; destruct dv as [|x dv]; simpl; try done.
    by rewrite IH.
Qed.

(** One pass of the loop in the store does to the copy what [prior_step] does
    to its values, and touches nothing that existed before the call. *)
Lemma update_prior_body_refines (pD : loc) (items : list loc)
    (pDv qs : list (ndarray F)) (lr : F) (w0 : world F) (q : loc)
    (its : list loc) (w : world F) (vals : list (ndarray F)) (i : Z)
    (vals' : list (ndarray F)) :
  holds (heap w0) pD items pDv ->
  Forall (fun l' => heap w0 !! l' = None) its -> NoDup its ->
  extends w0 w /\ holds (heap w) q its vals ->
  prior_step pDv qs lr vals i = ok vals' ->
  exists w',
    update_prior_body pD qs lr q i w = (ok tt, w') /\
    (extends w0 w' /\ holds (heap w') q its vals').
Proof.
  intros HpD Hfresh Hnd [Hext Hholds] Hstep.
  unfold prior_step in Hstep. unfold update_prior_body.
  destruct (py_getitem pDv i) as [e|pD_f] eqn:HgetP; [done|].
  cbn [rbind] in Hstep.
  rewrite (bind_eq _ _ _ _ _
             (obj_getitem_spec w pD items pDv i pD_f
                (holds_extends _ _ _ _ _ HpD Hext) HgetP)).
  cbn [ok].
  destruct (py_getitem vals i) as [e|qD_f] eqn:HgetQ; [done|].
  cbn [rbind] in Hstep.
  destruct (obj_getref_spec w q its vals i qD_f Hholds HgetQ)
    as (k & l & Hk & Hl & Hv & Hlv & Hrun).
  rewrite (bind_eq _ _ _ _ _ Hrun). cbn [ok].
  assert (Hload : load_arr l w = (ok qD_f, w)).
  { unfold load_arr. by rewrite Hlv. }
  rewrite (bind_eq _ _ _ _ _ Hload). cbn [ok].
  destruct (mask_get qD_f (nd_gt0 pD_f)) as [e|cur]; [done|].
  cbn [rbind] in Hstep. rewrite bind_lift.
  destruct (py_getitem qs i) as [e|qf]; [done|].
  cbn [rbind] in Hstep. rewrite bind_lift.
  destruct (mask_get qf (nd_gt0 pD_f)) as [e|q_idx]; [done|].
  cbn [rbind] in Hstep. rewrite bind_lift.
  destruct (nd_iadd cur (nd_scale lr q_idx)) as [e|cur']; [done|].
  cbn [rbind] in Hstep. rewrite bind_lift.
  destruct (mask_set qD_f (nd_gt0 pD_f) cur') as [e|new]; [done|].
  cbn [rbind] in Hstep. rewrite bind_lift.
  rewrite Hk in Hstep. inversion Hstep; subst vals'.
  destruct (store_inplace_spec w0 w q its vals k l new Hfresh Hnd Hext Hholds Hl)
    as (Hstore & Hext' & Hholds').
  eexists. split; [exact Hstore|]. split; done.
Qed.

(** The whole call, given the outcome of the loop on the values. *)
Lemma update_prior_run (pD : loc) (qs : list (ndarray F)) (lr : F)
    (factors : option (list Z)) (w : world F) (items : list loc)
    (pDv vals' : list (ndarray F)) :
  holds (heap w) pD items pDv -> NoDup items ->
  rfold (prior_step pDv qs lr) (default (py_range (length pDv)) factors) pDv
    = ok vals' ->
  exists (qD : loc) (w' : world F),
    update_state_prior_dirichlet pD qs lr factors w = (ok qD, w') /\
    read_obj (heap w') qD = Some vals' /\
    extends w w' /\
    heap w !! qD = None.
Proof.
  intros Hholds Hnd Hfold.
  pose proof (holds_length _ _ _ _ Hholds) as Hlen.
  unfold update_state_prior_dirichlet.
  assert (Hload : load_obj pD w = (ok items, w)).
  { unfold load_obj. destruct Hholds as [Hp _]. by rewrite Hp. }
  rewrite (bind_eq _ _ _ _ _ Hload). cbn [ok].
  destruct (deepcopy_spec w pD items pDv Hholds)
    as (q & items' & w1 & Hcopy & Hholds1 & Hext1 & Hq & Hfresh & Hnd').
  rewrite (bind_eq _ _ _ _ _ Hcopy). cbn [ok]. rewrite Hlen.
  destruct (for_each_refines (update_prior_body pD qs lr q)
              (prior_step pDv qs lr)
              (fun w' vals => extends w w' /\ holds (heap w') q items' vals)
              (fun w' vals i vals'0 =>
                 update_prior_body_refines pD items pDv qs lr w q items' w' vals
                   i vals'0 Hholds Hfresh (Hnd' Hnd))
              _ w1 pDv vals' (conj Hext1 Hholds1) Hfold)
    as (w2 & Hloop & Hext2 & Hholds2).
  rewrite (bind_eq _ _ _ _ _ Hloop). cbn [ok]. unfold ret.
  exists q, w2. split; [done|]. split; [|done].
  apply read_obj_holds. by exists items'.
Qed.

Lemma read_obj_extends (w w' : world F) (p : loc) (vals : list (ndarray F)) :
  read_obj (heap w) p = Some vals -> extends w w' ->
  read_obj (heap w') p = Some vals.
Proof.
  intros Hread Hext. apply read_obj_holds in Hread as [items Hholds].
  apply read_obj_holds. exists items. by eapply holds_extends.
Qed.

(** C6.  For a store in which [pD] is an object array of pairwise distinct
    vectors, beliefs of the shapes of these vectors and any selection of
    existing factors: the call returns a new object array [qD] in which every
    vector has the shape of the vector of [pD]; every position at which
    [pD[f] > 0] fails holds what it held, so a zero stays a zero (for [0 > 0]
    false); a factor that is not selected is unchanged; and when no factor is
    selected twice, [qD[f]] of a selected factor is [pD[f]] with [lr *
    qs[f][idx]] added exactly where [pD[f][idx] > 0].  Every object that
    existed before the call is as it was. *)
Theorem update_state_prior_dirichlet_spec :
  forall (pD : loc) (qs : list (ndarray F)) (lr : F) (factors : option (list Z))
         (w : world F) (items : list loc) (pDv : list (ndarray F))
         (sel : list nat),
    fgt0 fzero = false ->
    obj_items (heap w) pD = Some items ->
    NoDup items ->
    read_obj (heap w) pD = Some pDv ->
    prior_args_ok pDv qs = true ->
    selection (length pDv) factors = Some sel ->
    exists (qD : loc) (w' : world F) (qDv : list (ndarray F)),
      update_state_prior_dirichlet pD qs lr factors w = (ok qD, w') /\
      read_obj (heap w') qD = Some qDv /\
      length qDv = length pDv /\
      (forall (f : nat) (p q : ndarray F),
         pDv !! f = Some p -> qs !! f = Some q ->
         exists v : ndarray F,
           qDv !! f = Some v /\
           shape v = shape p /\
           length (data v) = length (data p) /\
           (forall (j : nat) (x : F),
              data p !! j = Some x -> fgt0 x = false -> data v !! j = Some x) /\
           (forall j : nat, data p !! j = Some fzero -> data v !! j = Some fzero) /\
           (f ∉ sel -> v = p) /\
           (NoDup sel -> f ∈ sel -> v = prior_rule lr p q)) /\
      heap w !! qD = None /\
      (forall l : loc, is_Some (heap w !! l) -> heap w' !! l = heap w !! l) /\
      read_obj (heap w') pD = Some pDv /\
      trace w' = trace w.
Proof.
  intros pD qs lr factors w items pDv sel Hgt Hitems Hnd Hread Hok Hsel.
  destruct (prior_args_ok_inv _ _ Hok) as (Hlenq & Hall).
  assert (Hholds : holds (heap w) pD items pDv).
  { apply read_obj_holds in Hread as [items' [Hp Hvals]].
    apply obj_items_Some in Hitems.
    assert (items' = items) by congruence. by subst items'. }
  set (Q := fun (k : nat) (p v : ndarray F) =>
              shape v = shape p /\ length (data v) = length (data p) /\
              forall (j : nat) (x : F),
                data p !! j = Some x -> fgt0 x = false -> data v !! j = Some x).
  destruct (rfold_preserve (length pDv) (prior_step pDv qs lr) pDv eq_refl Q)
    with (sel := default (py_range (length pDv)) factors) (ks := sel)
    as (vals' & Hfold & Hlen' & Hres); try done.
  { intros vals i k p v Hlen Hi Hp Hv (Hsv & Hlv & Hkeep).
    destruct (lookup_lt_is_Some_2 qs k) as [q Hq].
    { rewrite Hlenq. by eapply lookup_lt_Some. }
    destruct (Hall k p q Hp Hq) as (Hwp & Hwq & Hsq).
    assert (Hlq : length (data q) = length (data p)).
    { unfold nd_wf in Hwp, Hwq. by rewrite Hwp, Hwq, Hsq. }
    eexists. split.
    { exact (prior_step_value pDv qs lr vals i k p q v Hok Hlen Hi Hp Hq Hv
               Hsv Hlv). }
    subst Q. cbv beta. cbn [shape data].
    split; [done|]. split.
    { rewrite length_zip_with, length_zip_with, length_map. lia. }
    intros j x Hj Hx.
    destruct (lookup_lt_is_Some_2 (data q) j) as [y Hy].
    { rewrite Hlq. by eapply lookup_lt_Some. }
    apply lookup_zip_with_Some. exists (false, x), y.
    split; [done|]. split; [|done].
    apply lookup_zip_with_Some. exists false, x.
    split; [done|]. split; [|by apply Hkeep].
    rewrite list_lookup_fmap, Hj. simpl. by rewrite Hx. }
  destruct (update_prior_run pD qs lr factors w items pDv vals' Hholds Hnd Hfold)
    as (qD & w' & Hrun & Hread' & Hext & Hfresh).
  exists qD, w', vals'. split; [done|]. split; [done|]. split; [done|].
  split.
  { intros f p q Hp Hq. destruct (Hres f p Hp) as (v & Hv & HQ & Hout).
    destruct HQ as (Hsv & Hlv & Hkeep).
    exists v. split; [done|]. split; [done|]. split; [done|]. split; [done|].
    split; [intros j Hj; by apply Hkeep|]. split; [done|].
    intros Hnds Hin.
    destruct (rfold_update (length pDv) (prior_step pDv qs lr) pDv eq_refl
                (fun k p => match qs !! k with
                            | Some q => prior_rule lr p q
                            | None => p
                            end))
      with (sel := default (py_range (length pDv)) factors) (ks := sel)
      as (vals2 & Hfold2 & _ & Hres2); try done.
    { intros vals i k p0 Hlen Hi Hp0 Hv0.
      destruct (lookup_lt_is_Some_2 qs k) as [q0 Hq0].
      { rewrite Hlenq. by eapply lookup_lt_Some. }
      rewrite Hq0.
      rewrite (prior_step_value pDv qs lr vals i k p0 q0 p0); try done.
      unfold prior_rule. by rewrite prior_rule_data. }
    assert (vals2 = vals') by (rewrite Hfold in Hfold2; by inversion Hfold2).
    subst vals2.
    specialize (Hres2 f p Hp). rewrite Hq in Hres2.
    rewrite bool_decide_eq_true_2 in Hres2 by done. congruence. }
  destruct Hext as [Hframe Htrace].
  split; [done|]. split; [done|]. split; [|done].
  by apply (read_obj_extends w w' pD pDv Hread).
Qed.
End PriorProps.

(** ** [update_state_likelihood_dirichlet] *)

Lemma length_concat_uniform {T : Type} (r : nat) (cs : list (list T)) :
  Forall (fun c => length c = r) cs -> length (concat cs) = length cs * r.
Proof.
  induction 1 as [|c cs Hc _ IH]; simpl; [done|].
  rewrite length_app, IH, Hc. done.
Qed.

Section Axis2Facts.
Context {T : Type}.

(** The slice [a[:, :, u]] of a three-dimensional array. *)
Lemma nd_axis2_get_3d (a : ndarray T) (n0 n1 n2 k : nat) (u : Z) :
  shape a = [n0; n1; n2] -> nd_wf a -> norm_index n2 u = Some k ->
  exists d : list T,
    nd_axis2_get a u = ok (NdArray [n0; n1] d) /\ length d = n0 * n1.
Proof.
  intros Hs Hwf Hk. unfold nd_axis2_get. rewrite Hs, Hk.
  eexists. split; [reflexivity|].
  unfold nd_wf in Hwf. rewrite Hs in Hwf. simpl in Hwf.
  pose proof (norm_index_lt _ _ _ Hk) as Hlt.
  rewrite (length_concat_uniform 1).
  - rewrite length_map, length_chunks. lia.
  - apply Forall_fmap.
    eapply Forall_impl; [apply (chunks_lengths (n0 * n1) (n2 * 1))|].
    + rewrite Hwf. simpl. lia.
    + intros c Hc. cbv beta in Hc. unfold compose.
      apply length_sub_get. simpl. lia.
Qed.

(** Assigning to the slice [u] leaves every other slice as it was. *)
Lemma nd_axis2_set_3d (a v : ndarray T) (n0 n1 n2 k : nat) (u : Z) :
  shape a = [n0; n1; n2] -> nd_wf a -> norm_index n2 u = Some k ->
  shape v = [n0; n1] -> length (data v) = n0 * n1 ->
  exists a' : ndarray T,
    nd_axis2_set a u v = ok a' /\ shape a' = shape a /\ nd_wf a' /\
    forall u' : Z,
      norm_index n2 u' <> Some k -> nd_axis2_get a' u' = nd_axis2_get a u'.
Proof.
  intros Hs Hwf Hk Hsv Hlv. unfold nd_axis2_set. rewrite Hs, Hk.
  rewrite decide_True by done.
  eexists. split; [reflexivity|]. cbn [shape].
  unfold nd_wf in Hwf. rewrite Hs in Hwf. simpl in Hwf.
  pose proof (norm_index_lt _ _ _ Hk) as Hlt.
  set (cs := chunks (n0 * n1) (n2 * size []) (data a)).
  set (vs := chunks (n0 * n1) (size []) (data v)).
  assert (Hcs : Forall (fun c => length c = n2) cs).
  { eapply Forall_impl; [apply (chunks_lengths (n0 * n1) (n2 * 1))|].
    - rewrite Hwf. simpl. lia.
    - intros c Hc. simpl in Hc. lia. }
  assert (Hvs : Forall (fun c => length c = 1) vs).
  { apply (chunks_lengths (n0 * n1) 1). lia. }
  assert (Hlen_cs : length cs = n0 * n1) by apply length_chunks.
  assert (Hlen_vs : length vs = n0 * n1) by apply length_chunks.
  assert (Hnew : Forall (fun c => length c = n2 * 1)
                   (zip_with (sub_set (size []) k) cs vs)).
  { apply Forall_lookup. intros j c Hj.
    apply lookup_zip_with_Some in Hj as (c0 & v0 & -> & Hc0 & Hv0).
    rewrite Forall_lookup in Hcs, Hvs.
    specialize (Hcs j c0 Hc0). specialize (Hvs j v0 Hv0).
    rewrite length_sub_set; simpl; lia. }
  split; [done|]. split.
  { unfold nd_wf. cbn [shape data]. simpl.
    rewrite (length_concat_uniform (n2 * 1)) by done.
    rewrite length_zip_with. lia. }
  intros u' Hu'. unfold nd_axis2_get. cbn [shape data]. rewrite Hs.
  destruct (norm_index n2 u') as [k'|] eqn:Hk'; [|done].
  assert (Hne : k' <> k) by (intros ->; done).
  pose proof (norm_index_lt _ _ _ Hk') as Hlt'.
  do 3 f_equal.
  replace (n0 * n1) with (length (zip_with (sub_set (size []) k) cs vs)) at 1
    by (rewrite length_zip_with; lia).
  rewrite chunks_concat by done.
  fold cs.
  apply list_eq_same_length with (n0 * n1).
  - rewrite length_map, ?length_zip_with. lia.
  - rewrite length_map, ?length_zip_with. lia.
  - intros j x y Hj Hx Hy.
    rewrite list_lookup_fmap in Hx, Hy.
    destruct (cs !! j) as [c0|] eqn:Hc0; [|done].
    destruct (zip_with (sub_set (size []) k) cs vs !! j) as [c1|] eqn:Hc1; [|done].
    apply lookup_zip_with_Some in Hc1 as (c0' & v0 & -> & Hc0' & Hv0).
    assert (c0' = c0) by congruence. subst c0'.
    rewrite Forall_lookup in Hcs, Hvs.
    specialize (Hcs j c0 Hc0). specialize (Hvs j v0 Hv0).
    simpl in Hx, Hy.
    rewrite sub_get_sub_set in Hx by (simpl; lia). congruence.
Qed.
End Axis2Facts.

Section TransProps.
Context {F : Type} `{Scalar F}.

Lemma trans_args_ok_inv (pB B : list (ndarray F)) (actions : list Z)
    (qs qs_prev : list (ndarray F)) :
  trans_args_ok pB B actions qs qs_prev = true ->
  length B = length pB /\ length actions = length pB /\
  length qs = length pB /\ length qs_prev = length pB /\
  forall k p b u q q',
    pB !! k = Some p -> B !! k = Some b -> actions !! k = Some u ->
    qs !! k = Some q -> qs_prev !! k = Some q' ->
    nd_wf p /\ nd_wf b /\ nd_wf q /\ nd_wf q' /\ shape b = shape p /\
    exists n0 n1 n2,
      shape p = [n0; n1; n2] /\ shape q = [n0] /\ shape q' = [n1] /\
      is_Some (norm_index n2 u).
Proof.
  unfold trans_args_ok. intros Hok.
  apply andb_prop in Hok as [Hok Hall].
  apply andb_prop in Hok as [Hok Hl4].
  apply andb_prop in Hok as [Hok Hl3].
  apply andb_prop in Hok as [Hl1 Hl2].
  apply bool_decide_eq_true_1 in Hl1, Hl2, Hl3, Hl4.
  repeat split; try done.
  all: assert (Hz : zip B (zip actions (zip qs qs_prev)) !! k = Some (b, (u, (q, q'))))
    by (apply lookup_zip_with_Some; exists b, (u, (q, q'));
        repeat split; try done;
        apply lookup_zip_with_Some; exists u, (q, q');
        repeat split; try done;
        apply lookup_zip_with_Some; by exists q, q');
    pose proof (forallb_zip_lookup _ pB _ k p _ Hall ltac:(done) Hz) as Hk;
    cbv beta iota in Hk;
    rewrite !andb_true_iff, !bool_decide_eq_true in Hk;
    try tauto.
  destruct Hk as [_ Hshape].
  destruct (shape p) as [|n0 [|n1 [|n2 [|? ?]]]]; try done.
  rewrite !andb_true_iff, !bool_decide_eq_true in Hshape.
  exists n0, n1, n2. tauto.
Qed.

(** One pass on the values, for arguments of the right shapes: the entry at
    the selected index keeps its shape and every slice but the one of the
    action. *)
Lemma trans_step_value (pB B : list (ndarray F)) (actions : list Z)
    (qs qs_prev : list (ndarray F)) (lr : F) (vals : list (ndarray F)) (i : Z)
    (k : nat) (p v : ndarray F) (u : Z) :
  trans_args_ok pB B actions qs qs_prev = true ->
  length vals = length pB ->
  norm_index (length pB) i = Some k ->
  pB !! k = Some p -> actions !! k = Some u -> vals !! k = Some v ->
  shape v = shape p -> nd_wf v ->
  exists v' : ndarray F,
    trans_step B actions qs qs_prev lr vals i = ok (<[k := v']> vals) /\
    shape v' = shape v /\ nd_wf v' /\
    forall u' : Z,
      action_slot p u' <> action_slot p u ->
      nd_axis2_get v' u' = nd_axis2_get v u'.
Proof.
  intros Hok Hlen Hi Hp Hu Hv Hsv Hwv.
  destruct (trans_args_ok_inv _ _ _ _ _ Hok) as (HlB & Hla & Hlq & Hlq' & Hall).
  pose proof (norm_index_lt _ _ _ Hi) as Hk.
  destruct (lookup_lt_is_Some_2 B k) as [b Hb]; [lia|].
  destruct (lookup_lt_is_Some_2 qs k) as [q Hq]; [lia|].
  destruct (lookup_lt_is_Some_2 qs_prev k) as [q' Hq']; [lia|].
  destruct (Hall k p b u q q' Hp Hb Hu Hq Hq')
    as (Hwp & Hwb & Hwq & Hwq' & Hsb & n0 & n1 & n2 & Hsp & Hsq & Hsq' & [ku Hku]).
  unfold trans_step.
  rewrite (py_getitem_norm qs i k q) by (by rewrite ?Hlq). cbn [rbind ok].
  rewrite (py_getitem_norm qs_prev i k q') by (by rewrite ?Hlq'). cbn [rbind ok].
  rewrite (py_getitem_norm B i k b) by (by rewrite ?HlB). cbn [rbind ok].
  rewrite (py_getitem_norm actions i k u) by (by rewrite ?Hla). cbn [rbind ok].
  destruct (nd_axis2_get_3d b n0 n1 n2 ku u) as (db & Hgetb & Hldb);
    [by rewrite Hsb| done | done |].
  rewrite Hgetb. cbn [rbind ok].
  assert (Hwd : nd_wf (spm_cross q [q'])).
  { apply spm_cross_wf; [done|]. simpl. by rewrite bool_decide_eq_true_2. }
  assert (Hsd : shape (spm_cross q [q']) = [n0; n1]).
  { unfold spm_cross, outer2. simpl. by rewrite Hsq, Hsq'. }
  unfold nd_imul. rewrite nd_izip_same.
  2:{ unfold nd_wf, astype_float, nd_gt0, nd_map. cbn [shape data].
      rewrite !length_map, Hldb. simpl. lia. }
  2:{ by rewrite Hsd. }
  cbn [rbind ok].
  rewrite (py_getitem_norm vals i k v) by (by rewrite ?Hlen). cbn [rbind ok].
  destruct (nd_axis2_get_3d v n0 n1 n2 ku u) as (dv & Hgetv & Hldv);
    [by rewrite Hsv| done | done |].
  rewrite Hgetv. cbn [rbind ok].
  unfold nd_iadd. rewrite nd_izip_same.
  2:{ unfold nd_wf, nd_scale, nd_map. cbn [shape data].
      rewrite Hsd, length_map, length_zip_with.
      unfold astype_float, nd_gt0, nd_map. cbn [data].
      rewrite !length_map, Hldb. unfold nd_wf in Hwd. rewrite Hwd, Hsd.
      simpl. lia. }
  2:{ by rewrite Hsd. }
  cbn [rbind ok shape].
  match goal with
  | |- context [nd_axis2_set v u ?x] =>
      destruct (nd_axis2_set_3d v x n0 n1 n2 ku u)
        as (v' & Hset & Hsv' & Hwv' & Hframe)
  end; try done.
  { by rewrite Hsv. }
  { cbn [data]. unfold nd_scale, nd_map, astype_float, nd_gt0, nd_map.
    cbn [data]. rewrite length_zip_with, length_map, length_zip_with, !length_map.
    unfold nd_wf in Hwd. rewrite Hwd, Hsd, Hldv, Hldb. simpl. lia. }
  rewrite Hset. cbn [rbind ok]. rewrite Hlen, Hi.
  exists v'. split; [done|]. split; [done|]. split; [done|].
  intros u' Hu'. apply Hframe.
  unfold action_slot in Hu'. rewrite Hsp in Hu'. by rewrite Hku in Hu'.
Qed.

(** One pass of the loop in the store does to the copy what [trans_step] does
    to its values, and touches nothing that existed before the call. *)
Lemma update_trans_body_refines (B : list (ndarray F)) (actions : list Z)
    (qs qs_prev : list (ndarray F)) (lr : F) (w0 : world F) (q : loc)
    (its : list loc) (w : world F) (vals : list (ndarray F)) (i : Z)
    (vals' : list (ndarray F)) :
  Forall (fun l' => heap w0 !! l' = None) its -> NoDup its ->
  extends w0 w /\ holds (heap w) q its vals ->
  trans_step B actions qs qs_prev lr vals i = ok vals' ->
  exists w',
    update_trans_body B actions qs qs_prev lr q i w = (ok tt, w') /\
    (extends w0 w' /\ holds (heap w') q its vals').
Proof.
  intros Hfresh Hnd [Hext Hholds] Hstep.
  unfold trans_step in Hstep. unfold update_trans_body.
  destruct (py_getitem qs i) as [e|qf]; [done|].
  cbn [rbind] in Hstep. rewrite bind_lift.
  destruct (py_getitem qs_prev i) as [e|q_prev]; [done|].
  cbn [rbind] in Hstep. rewrite bind_lift.
  destruct (py_getitem B i) as [e|B_f]; [done|].
  cbn [rbind] in Hstep. rewrite bind_lift.
  destruct (py_getitem actions i) as [e|u]; [done|].
  cbn [rbind] in Hstep. rewrite bind_lift.
  destruct (nd_axis2_get B_f u) as [e|B_fu]; [done|].
  cbn [rbind] in Hstep. rewrite bind_lift.
  destruct (nd_imul (spm_cross qf [q_prev]) (astype_float (nd_gt0 B_fu)))
    as [e|dfdb]; [done|].
  cbn [rbind] in Hstep. rewrite bind_lift.
  destruct (py_getitem vals i) as [e|qB_f] eqn:HgetQ; [done|].
  cbn [rbind] in Hstep.
  destruct (obj_getref_spec w q its vals i qB_f Hholds HgetQ)
    as (k & l & Hk & Hl & Hv & Hlv & Hrun).
  rewrite (bind_eq _ _ _ _ _ Hrun). cbn [ok].
  assert (Hload : load_arr l w = (ok qB_f, w)).
  { unfold load_arr. by rewrite Hlv. }
  rewrite (bind_eq _ _ _ _ _ Hload). cbn [ok].
  rewrite bind_lift_ok.
  destruct (nd_axis2_get qB_f u) as [e|view]; [done|].
  cbn [rbind] in Hstep. rewrite bind_lift.
  destruct (nd_iadd view (nd_scale lr dfdb)) as [e|view']; [done|].
  cbn [rbind] in Hstep. rewrite bind_lift.
  destruct (nd_axis2_set qB_f u view') as [e|new]; [done|].
  cbn [rbind] in Hstep. rewrite bind_lift.
  rewrite Hk in Hstep. inversion Hstep; subst vals'.
  destruct (store_inplace_spec w0 w q its vals k l new Hfresh Hnd Hext Hholds Hl)
    as (Hstore & Hext' & Hholds').
  eexists. split; [exact Hstore|]. split; done.
Qed.

(** The whole call, given the outcome of the loop on the values. *)
Lemma update_trans_run (pB : loc) (B : list (ndarray F)) (actions : list Z)
    (qs qs_prev : list (ndarray F)) (lr : F) (factors : option (list Z))
    (w : world F) (items : list loc) (pBv vals' : list (ndarray F)) :
  holds (heap w) pB items pBv -> NoDup items ->
  rfold (trans_step B actions qs qs_prev lr)
    (default (py_range (length pBv)) factors) pBv = ok vals' ->
  exists (qB : loc) (w' : world F),
    update_state_likelihood_dirichlet pB B actions qs qs_prev lr factors w
      = (ok qB, w') /\
    read_obj (heap w') qB = Some vals' /\
    extends w w' /\
    heap w !! qB = None.
Proof.
  intros Hholds Hnd Hfold.
  pose proof (holds_length _ _ _ _ Hholds) as Hlen.
  unfold update_state_likelihood_dirichlet.
  assert (Hload : load_obj pB w = (ok items, w)).
  { unfold load_obj. destruct Hholds as [Hp _]. by rewrite Hp. }
  rewrite (bind_eq _ _ _ _ _ Hload). cbn [ok].
  destruct (deepcopy_spec w pB items pBv Hholds)
    as (q & items' & w1 & Hcopy & Hholds1 & Hext1 & Hq & Hfresh & Hnd').
  rewrite (bind_eq _ _ _ _ _ Hcopy). cbn [ok]. rewrite Hlen.
  destruct (for_each_refines (update_trans_body B actions qs qs_prev lr q)
              (trans_step B actions qs qs_prev lr)
              (fun w' vals => extends w w' /\ holds (heap w') q items' vals)
              (fun w' vals i vals'0 =>
                 update_trans_body_refines B actions qs qs_prev lr w q items' w'
                   vals i vals'0 Hfresh (Hnd' Hnd))
              _ w1 pBv vals' (conj Hext1 Hholds1) Hfold)
    as (w2 & Hloop & Hext2 & Hholds2).
  rewrite (bind_eq _ _ _ _ _ Hloop). cbn [ok]. unfold ret.
  exists q, w2. split; [done|]. split; [|done].
  apply read_obj_holds. by exists items'.
Qed.

(** C9.  For a store in which [pB] is an object array of pairwise distinct
    tensors, arguments of the right shapes and any selection of existing
    factors: the call returns a new object array [qB] in which every tensor
    has the shape of the tensor of [pB]; in every factor each slice [[:, :,
    u']] other than the one of the action [actions[f]] is the slice of
    [pB[f]]; the tensor of a factor that is not selected is the tensor of
    [pB]; and every object that existed before the call, [pB] and its
    sub-arrays among them, is as it was. *)
Theorem update_state_likelihood_dirichlet_frame :
  forall (pB : loc) (B : list (ndarray F)) (actions : list Z)
         (qs qs_prev : list (ndarray F)) (lr : F) (factors : option (list Z))
         (w : world F) (items : list loc) (pBv : list (ndarray F))
         (sel : list nat),
    obj_items (heap w) pB = Some items ->
    NoDup items ->
    read_obj (heap w) pB = Some pBv ->
    trans_args_ok pBv B actions qs qs_prev = true ->
    selection (length pBv) factors = Some sel ->
    exists (qB : loc) (w' : world F) (qBv : list (ndarray F)),
      update_state_likelihood_dirichlet pB B actions qs qs_prev lr factors w
        = (ok qB, w') /\
      read_obj (heap w') qB = Some qBv /\
      length qBv = length pBv /\
      (forall (f : nat) (p : ndarray F) (u : Z),
         pBv !! f = Some p -> actions !! f = Some u ->
         exists v : ndarray F,
           qBv !! f = Some v /\
           shape v = shape p /\
           (forall u' : Z,
              action_slot p u' <> action_slot p u ->
              nd_axis2_get v u' = nd_axis2_get p u') /\
           (f ∉ sel -> v = p)) /\
      heap w !! qB = None /\
      (forall l : loc, is_Some (heap w !! l) -> heap w' !! l = heap w !! l) /\
      read_obj (heap w') pB = Some pBv /\
      trace w' = trace w.
Proof.
  intros pB B actions qs qs_prev lr factors w items pBv sel Hitems Hnd Hread
    Hok Hsel.
  destruct (trans_args_ok_inv _ _ _ _ _ Hok) as (HlB & Hla & Hlq & Hlq' & Hall).
  assert (Hholds : holds (heap w) pB items pBv).
  { apply read_obj_holds in Hread as [items' [Hp Hvals]].
    apply obj_items_Some in Hitems.
    assert (items' = items) by congruence. by subst items'. }
  set (Q := fun (k : nat) (p v : ndarray F) =>
              shape v = shape p /\ nd_wf v /\
              forall u u' : Z,
                actions !! k = Some u ->
                action_slot p u' <> action_slot p u ->
                nd_axis2_get v u' = nd_axis2_get p u').
  destruct (rfold_preserve (length pBv) (trans_step B actions qs qs_prev lr)
              pBv eq_refl Q)
    with (sel := default (py_range (length pBv)) factors) (ks := sel)
    as (vals' & Hfold & Hlen' & Hres); try done.
  { intros k p Hp. subst Q. cbv beta. split; [done|]. split; [|done].
    pose proof (lookup_lt_Some _ _ _ Hp) as Hk.
    destruct (lookup_lt_is_Some_2 B k) as [b Hb]; [lia|].
    destruct (lookup_lt_is_Some_2 actions k) as [u Hu]; [lia|].
    destruct (lookup_lt_is_Some_2 qs k) as [q Hq]; [lia|].
    destruct (lookup_lt_is_Some_2 qs_prev k) as [q' Hq']; [lia|].
    by destruct (Hall k p b u q q' Hp Hb Hu Hq Hq') as (Hwp & _). }
  { intros vals i k p v Hlen Hi Hp Hv (Hsv & Hwv & Hkeep).
    pose proof (lookup_lt_Some _ _ _ Hp) as Hk.
    destruct (lookup_lt_is_Some_2 actions k) as [u Hu]; [lia|].
    destruct (trans_step_value pBv B actions qs qs_prev lr vals i k p v u Hok
                Hlen Hi Hp Hu Hv Hsv Hwv)
      as (v' & Hstep & Hsv' & Hwv' & Hframe).
    exists v'. split; [done|]. subst Q. cbv beta.
    split; [congruence|]. split; [done|].
    intros u0 u' Hu0 Hne.
    assert (u0 = u) by congruence. subst u0.
    rewrite Hframe by done. by apply (Hkeep u). }
  destruct (update_trans_run pB B actions qs qs_prev lr factors w items pBv
              vals' Hholds Hnd Hfold)
    as (qB & w' & Hrun & Hread' & Hext & Hfresh).
  exists qB, w', vals'. split; [done|]. split; [done|]. split; [done|].
  split.
  { intros f p u Hp Hu. destruct (Hres f p Hp) as (v & Hv & HQ & Hout).
    destruct HQ as (Hsv & Hwv & Hkeep).
    exists v. split; [done|]. split; [done|]. split; [|done].
    intros u' Hne. by apply (Hkeep u). }
  destruct Hext as [Hframe Htrace].
  split; [done|]. split; [done|]. split; [|done].
  by apply (read_obj_extends w w' pB pBv Hread).
Qed.
End TransProps.

(** ** More on model reduction *)

Lemma set_of_items_PInt (levels : list pyitem) :
  forallb is_int levels = true ->
  exists zs : list Z, set_of_items levels = ok zs /\ levels = map PInt zs.
Proof.
  induction levels as [|x levels IH]; intros Hall.
  - by exists [].
  - simpl in Hall. apply andb_prop in Hall as [Hx Hall].
    destruct (IH Hall) as (zs & Hzs & ->).
    destruct x as [i|l]; [|done].
    exists (i :: zs). split; [|done].
    unfold set_of_items in *. simpl. by rewrite Hzs.
Qed.

Lemma levels_kept_NoDup (n : nat) (remove : list Z) :
  NoDup (levels_kept n remove).
Proof. apply NoDup_elements. Qed.

Lemma levels_kept_ext (n : nat) (r1 r2 : list Z) :
  (forall i : Z, (0 <= i < Z.of_nat n)%Z -> i ∈ r1 <-> i ∈ r2) ->
  levels_kept n r1 = levels_kept n r2.
Proof.
  intros Hext. unfold levels_kept. f_equal. apply set_eq. intros i.
  rewrite !elem_of_difference, !elem_of_list_to_set, elem_of_py_range.
  split; intros [Hi Hni]; (split; [done|]); intros Hin; apply Hni;
    by apply (Hext i Hi).
Qed.

Lemma levels_kept_range (n : nat) (remove : list Z) :
  Forall (fun i => (0 <= i < Z.of_nat n)%Z) (levels_kept n remove).
Proof.
  apply Forall_forall. intros i Hi. by apply elem_of_levels_kept in Hi as [? _].
Qed.

(** As many levels are kept as the request leaves: the levels of the
    factor less the distinct ones among them that are named. *)
Lemma levels_kept_length (n : nat) (remove : list Z) :
  NoDup remove ->
  Forall (fun i => (0 <= i < Z.of_nat n)%Z) remove ->
  length (levels_kept n remove) = n - length remove.
Proof.
  intros Hnd Hin. unfold levels_kept.
  change (length (elements ?X)) with (stdpp.base.size X).
  rewrite size_difference.
  - rewrite !size_list_to_set; [|done|apply NoDup_seqZ].
    unfold py_range. rewrite length_seqZ. lia.
  - intros i Hi. apply elem_of_list_to_set in Hi. apply elem_of_list_to_set.
    apply elem_of_py_range. rewrite Forall_forall in Hin. by apply Hin.
Qed.

Lemma chunks_one_lookup {T : Type} (n : nat) (d : list T) (i : nat) (x : T) :
  length d = n -> d !! i = Some x -> chunks n 1 d !! i = Some [x].
Proof.
  revert d i. induction n as [|n IH]; intros d i Hlen Hi.
  - destruct d; [done|simpl in Hlen; lia].
  - destruct d as [|y d]; [done|]. simpl in Hlen.
    destruct i as [|i]; simpl in *.
    + by inversion Hi.
    + rewrite drop_0. apply IH; [lia|done].
Qed.

(** [p[levels]] for a vector [p] and levels that exist: the entries at these
    levels, in the order of the levels. *)
Lemma nd_ix_vector {T : Type} (p : ndarray T) (n : nat) (idx : list Z) :
  shape p = [n] -> nd_wf p ->
  Forall (fun i => (0 <= i < Z.of_nat n)%Z) idx ->
  exists d : list T,
    nd_ix p [idx] = ok (NdArray [length idx] d) /\
    Forall2 (fun i x => data p !! Z.to_nat i = Some x) idx d.
Proof.
  intros Hs Hwf Hidx. unfold nd_ix. rewrite Hs. cbn [ix_norm].
  assert (Hnorm : mapM (norm_index n) idx = Some (map Z.to_nat idx)).
  { induction Hidx as [|i l Hi _ IH]; [done|].
    cbn [mapM]. rewrite IH. unfold norm_index at 1.
    by rewrite decide_True by done. }
  rewrite Hnorm. cbn [rbind ok ix_norm map length drop app].
  rewrite length_map.
  eexists. split; [reflexivity|].
  unfold nd_wf in Hwf. rewrite Hs in Hwf. simpl in Hwf.
  cbn [ix_data size foldr]. clear Hnorm.
  induction Hidx as [|i l Hi _ IH]; [constructor|].
  cbn [map concat].
  destruct (lookup_lt_is_Some_2 (data p) (Z.to_nat i)) as [x Hx]; [lia|].
  rewrite (chunks_one_lookup n (data p) (Z.to_nat i) x) by (done || lia).
  simpl. constructor; [done|]. apply IH.
Qed.

Section ReductionProps.
Context {F : Type}.
Variable norm_dist : ndarray F -> ndarray F.
Variable norm_dist_obj_arr : list (ndarray F) -> list (ndarray F).

(** What [_prune_prior] does to a vector.  For a vector [p] with [n] levels
    and a request of level numbers, without the Dirichlet flag: the call
    indexes once, normalises once and returns the normalised vector of the
    entries of [p] at the levels kept; a level is kept, once, exactly when it
    is a level of [p] that the request does not name. *)
Theorem prune_prior_plain_kept_levels :
  forall (p : ndarray F) (n : nat) (levels_to_remove : list pyitem)
         (w : world F),
    shape p = [n] -> nd_wf p ->
    forallb is_int levels_to_remove = true ->
    exists (kept : list Z) (d : list F),
      _prune_prior norm_dist (PlainPrior p) levels_to_remove false w =
        (ok (PlainReduced (norm_dist (NdArray [length kept] d))),
         World (heap w) (trace w ++ [Sliced; Normalized])) /\
      NoDup kept /\
      (forall i : Z,
         i ∈ kept <->
         (0 <= i < Z.of_nat n)%Z /\ PInt i ∉ levels_to_remove) /\
      Forall2 (fun i x => data p !! Z.to_nat i = Some x) kept d.
Proof.
  intros p n levels w Hs Hwf Hint.
  destruct (set_of_items_PInt levels Hint) as (zs & Hzs & ->).
  destruct (nd_ix_vector p n (levels_kept n zs) Hs Hwf (levels_kept_range n zs))
    as (d & Hix & Hd).
  exists (levels_kept n zs), d.
  split.
  { unfold _prune_prior. rewrite Hint.
    unfold bind, lift, py_assert, ok, nd_len. rewrite Hs, Hzs. simpl.
    unfold slice, normalize, bind, emit, lift, ret. simpl.
    rewrite Hix. simpl. by rewrite <- app_assoc. }
  split; [apply levels_kept_NoDup|]. split; [|done].
  intros i. rewrite elem_of_levels_kept. rewrite list_elem_of_fmap.
  split; intros [Hi Hni]; (split; [done|]).
  - intros (j & Hj & Hin). inversion Hj; subst j. done.
  - intros Hin. apply Hni. by exists i.
Qed.

(** The result of [_prune_prior] on a vector depends on the request only
    through the set of existing levels that it names: the order of the level
    numbers, repetitions, and numbers that are not levels of the vector
    (negative ones among them) make no difference. *)
Theorem prune_prior_plain_request_as_set :
  forall (p : ndarray F) (n : nat) (rest : list nat)
         (levels levels' : list pyitem) (dirichlet : bool) (w : world F),
    shape p = n :: rest ->
    forallb is_int levels = true ->
    forallb is_int levels' = true ->
    (forall i : Z, (0 <= i < Z.of_nat n)%Z -> PInt i ∈ levels <-> PInt i ∈ levels') ->
    _prune_prior norm_dist (PlainPrior p) levels dirichlet w =
    _prune_prior norm_dist (PlainPrior p) levels' dirichlet w.
Proof.
  intros p n rest levels levels' dirichlet w Hs Hint Hint' Hsame.
  destruct (set_of_items_PInt levels Hint) as (zs & Hzs & ->).
  destruct (set_of_items_PInt levels' Hint') as (zs' & Hzs' & ->).
  assert (Hkept : levels_kept n zs = levels_kept n zs').
  { apply levels_kept_ext. intros i Hi. specialize (Hsame i Hi).
    rewrite !list_elem_of_fmap in Hsame. split; intros Hin.
    - destruct (proj1 Hsame) as (j & Hj & Hjin); [by exists i|].
      by inversion Hj; subst j.
    - destruct (proj2 Hsame) as (j & Hj & Hjin); [by exists i|].
      by inversion Hj; subst j. }
  unfold _prune_prior. rewrite Hint, Hint'.
  unfold bind, lift, py_assert, ok, nd_len. rewrite Hs, Hzs, Hzs'. simpl.
  by rewrite Hkept.
Qed.
End ReductionProps.

Section ReductionLoops.
Context {F : Type}.
Variable norm_dist : ndarray F -> ndarray F.
Variable norm_dist_obj_arr : list (ndarray F) -> list (ndarray F).

(** Indexing with the levels kept cannot fail: they exist. *)
Lemma nd_ix_levels_kept (s : ndarray F) (ns : nat) (rest : list nat)
    (remove : list Z) :
  shape s = ns :: rest ->
  exists a : ndarray F, nd_ix s [levels_kept ns remove] = ok a.
Proof.
  intros Hs. unfold nd_ix. rewrite Hs. cbn [ix_norm].
  rewrite levels_kept_norm. destruct rest; cbn; eexists; reflexivity.
Qed.

(** The loop over the factors without the Dirichlet flag, for a request in
    the documented form: it never raises, prints one warning for every
    factor that loses all its levels, and fills the slot of every other
    factor. *)
Lemma prune_prior_loop_keep (levels : list pyitem) :
  forallb is_list levels = true ->
  forall (xs : list (ndarray F)) (k : nat) (red : list (option (ndarray F)))
         (ftr : list nat) (w : world F),
    k + length xs <= length levels ->
    Forall (fun s : ndarray F => shape s ≠ []) xs ->
    k + length xs <= length red ->
    let removed :=
      map fst (List.filter (removes_all levels) (zip (seq k (length xs)) xs)) in
    exists (red' : list (option (ndarray F))) (evs : list event),
      for_fold (zip (seq k (length xs)) xs)
        (prune_prior_step norm_dist levels false) (red, ftr) w
        = (ok (red', ftr ++ removed), World (heap w) (trace w ++ evs)) /\
      List.filter is_printed evs
        = map (fun f => Printed (prune_warning f)) removed /\
      length red' = length red /\
      (forall i : nat, i < k \/ k + length xs <= i -> red' !! i = red !! i) /\
      (forall i : nat, k <= i < k + length xs -> i ∉ removed ->
         exists a : ndarray F, red' !! i = Some (Some a)).
Proof.
  intros Hlist xs. induction xs as [|s xs IH]; intros k red ftr w Hk Hsh Hred removed.
  - exists red, []. subst removed. simpl. rewrite !app_nil_r.
    split; [by destruct w|]. split; [done|]. split; [done|].
    split; [done|]. intros i Hi. lia.
  - apply Forall_cons in Hsh as [Hs Hsh]. simpl in Hk, Hred.
    destruct (shape s) as [|ns rest] eqn:Hshape; [done|].
    destruct (lookup_lt_is_Some_2 levels k) as [item Hitem]; [lia|].
    assert (Hpl : exists l, item = PList l).
    { rewrite forallb_forall in Hlist.
      specialize (Hlist item). destruct item as [i|l]; [|by exists l].
      discriminate Hlist. apply list_elem_of_In.
      by eapply list_elem_of_lookup_2. }
    destruct Hpl as [l ->].
    assert (Hra : removes_all levels (k, s)
                  = bool_decide (levels_kept ns l = [])).
    { unfold removes_all. simpl. by rewrite Hshape, Hitem. }
    cbn [length seq zip zip_with for_fold].
    unfold bind at 1. unfold prune_prior_step at 1.
    unfold nd_len. rewrite Hshape. rewrite bind_lift_ok.
    rewrite py_getitem_nat, Hitem. rewrite bind_lift_ok.
    cbn [set_of_item]. rewrite bind_lift_ok.
    subst removed. cbn [length seq zip zip_with List.filter].
    rewrite Hra.
    destruct (decide (length (levels_kept ns l) = 0)) as [Hzero|Hpos].
    + assert (Hnil : levels_kept ns l = []) by by apply nil_length_inv.
      rewrite bool_decide_eq_true_2 by done.
      unfold bind at 1. unfold emit at 1. unfold ret at 1. cbv beta iota.
      unfold ok at 1. cbv beta iota.
      destruct (IH (S k) red (ftr ++ [k])
                  (World (heap w) (trace w ++ [Printed (prune_warning k)])))
        as (red' & evs & Hrun & Hpr & Hlen & Hout & Hin); try done; try lia.
      cbn [heap trace] in Hrun.
      exists red', (Printed (prune_warning k) :: evs).
      split.
      { etransitivity; [exact Hrun|]. cbn [map fst].
        rewrite <- !app_assoc. done. }
      split; [simpl; by rewrite Hpr|]. split; [done|].
      split.
      { intros i Hi. apply Hout. lia. }
      intros i Hi Hni. cbn [map fst] in Hni.
      apply not_elem_of_cons in Hni as [Hne Hni].
      apply Hin; [lia|done].
    + rewrite bool_decide_eq_false_2
        by (intros Hnil; rewrite Hnil in Hpos; done).
      cbn [negb].
      destruct (nd_ix_levels_kept s ns rest l Hshape) as [a Ha].
      destruct (IH (S k) (<[k := Some (norm_dist a)]> red) ftr
                  (World (heap w) ((trace w ++ [Sliced]) ++ [Normalized])))
        as (red' & evs & Hrun & Hpr & Hlen & Hout & Hin); try done; try lia.
      { rewrite length_insert. lia. }
      cbn [heap trace] in Hrun.
      exists red', (Sliced :: Normalized :: evs).
      split.
      { etransitivity; [|etransitivity; [exact Hrun|]].
        - unfold slice, normalize, bind, emit, lift, ret.
          rewrite Ha. reflexivity.
        - rewrite <- !app_assoc. done. }
      split; [simpl; by rewrite Hpr|].
      split; [by rewrite Hlen, length_insert|].
      split.
      { intros i Hi. rewrite Hout by lia.
        apply list_lookup_insert_ne. lia. }
      intros i Hi Hni.
      destruct (decide (i = k)) as [->|Hne].
      * exists (norm_dist a). rewrite Hout by lia.
        apply list_lookup_insert_eq. lia.
      * apply Hin; [lia|done].
Qed.
End ReductionLoops.

Lemma rmap_Forall {A B : Type} (f : A -> result B) (P : B -> Prop) (xs : list A) :
  Forall (fun x => exists y, f x = ok y /\ P y) xs ->
  exists ys : list B,
    rmap f xs = ok ys /\ length ys = length xs /\ Forall P ys.
Proof.
  induction 1 as [|x xs (y & Hy & HP) _ (ys & Hys & Hlen & Hall)].
  - by exists [].
  - exists (y :: ys). simpl. rewrite Hy, Hys. simpl.
    split; [done|]. split; [by rewrite Hlen|by constructor].
Qed.

Lemma filter_fst_sublist {A B : Type} (P : A * B -> bool) (l : list (A * B)) :
  sublist (map fst (List.filter P l)) (map fst l).
Proof.
  induction l as [|x l IH]; simpl; [constructor|].
  destruct (P x); simpl; by constructor.
Qed.

Section ReductionObj.
Context {F : Type}.
Variable norm_dist : ndarray F -> ndarray F.

Lemma removed_factors_sublist (levels : list pyitem) (ps : list (ndarray F)) :
  sublist (removed_factors levels ps) (seq 0 (length ps)).
Proof.
  unfold removed_factors.
  assert (Hfst : map fst (enumerate ps) = seq 0 (length ps)).
  { unfold enumerate. apply fst_zip. rewrite length_seq. lia. }
  rewrite <- Hfst. apply filter_fst_sublist.
Qed.

(** What [_prune_prior] does to a multi-factor prior.  For a request in the
    documented form (one list of levels per factor, every factor a vector)
    and without the Dirichlet flag, the call does not raise: it prints one
    warning for every factor that loses all its levels, in the order of the
    factors, and returns an object array with one normalised vector for every
    other factor and nothing else. *)
Theorem prune_prior_obj_drops_factors :
  forall (ps : list (ndarray F)) (levels_to_remove : list pyitem) (w : world F),
    prune_prior_args_ok ps levels_to_remove = true ->
    exists (r : list (option (ndarray F))) (evs : list event),
      _prune_prior norm_dist (ObjPrior ps) levels_to_remove false w
        = (ok (ObjReduced r), World (heap w) (trace w ++ evs)) /\
      List.filter is_printed evs
        = map (fun f => Printed (prune_warning f))
              (removed_factors levels_to_remove ps) /\
      length r = length ps - length (removed_factors levels_to_remove ps) /\
      Forall is_Some r.
Proof.
  intros ps levels w Hok. unfold prune_prior_args_ok in Hok.
  apply andb_prop in Hok as [Hok Hsh]. apply andb_prop in Hok as [Hlist Hlen].
  apply bool_decide_eq_true_1 in Hlen.
  assert (Hsh' : Forall (fun s : ndarray F => shape s ≠ []) ps).
  { apply Forall_forall. intros s Hs. rewrite forallb_forall in Hsh.
    apply list_elem_of_In in Hs. apply Hsh in Hs.
    by apply bool_decide_eq_true_1 in Hs. }
  destruct (prune_prior_loop_keep norm_dist levels Hlist ps 0
              (replicate (length ps) None) [] w)
    as (red' & evs & Hrun & Hpr & Hlen' & Hout & Hin);
    [simpl; lia | done | rewrite length_replicate; simpl; lia |].
  fold (enumerate ps) in Hrun, Hpr, Hin.
  fold (removed_factors levels ps) in Hrun, Hpr, Hin.
  cbn [app] in Hrun. rewrite length_replicate in Hlen'.
  pose proof (removed_factors_sublist levels ps) as Hsub.
  set (removed := removed_factors levels ps) in *.
  unfold _prune_prior. rewrite Hlist. unfold py_assert. rewrite bind_lift_ok.
  rewrite (bind_eq _ _ _ _ _ Hrun). cbn [ok]. cbv beta iota.
  destruct (decide (0 < length removed)) as [Hpos|Hzero].
  - assert (Hnd : NoDup (map Z.of_nat removed)).
    { apply (NoDup_fmap_2 Z.of_nat).
      eapply sublist_NoDup; [apply NoDup_seq|exact Hsub]. }
    assert (Hrange : Forall (fun i => (0 <= i < Z.of_nat (length ps))%Z)
                       (map Z.of_nat removed)).
    { apply Forall_fmap. apply Forall_forall. intros i Hi.
      apply (elem_of_sublist _ _ _ Hi) in Hsub.
      apply elem_of_seq in Hsub. simpl. lia. }
    destruct (rmap_Forall (py_getitem red') is_Some
                (levels_kept (length ps) (map Z.of_nat removed)))
      as (kept & Hkept & Hklen & Hsome).
    { apply Forall_forall. intros i Hi.
      apply elem_of_levels_kept in Hi as [Hi Hni].
      destruct (Hin (Z.to_nat i)) as [a Ha]; [simpl; lia| |].
      { intros Hrem. apply Hni. apply list_elem_of_fmap.
        exists (Z.to_nat i). split; [lia|done]. }
      exists (Some a). split; [|by eexists].
      rewrite <- (Z2Nat.id i) by lia. rewrite py_getitem_nat. by rewrite Ha. }
    exists kept, (evs ++ [Sliced]).
    split.
    { unfold bind, emit, lift, ret. cbn [ok heap trace].
      rewrite Hkept. cbn [ok]. by rewrite app_assoc. }
    split.
    { rewrite List.filter_app. simpl. by rewrite app_nil_r. }
    split; [|done].
    rewrite Hklen, levels_kept_length by done. by rewrite length_map.
  - assert (Hnil : removed = []) by (destruct removed; simpl in *; [done|lia]).
    exists red', evs. unfold ret. split; [done|]. split; [done|].
    rewrite Hnil. simpl. split; [lia|].
    apply Forall_lookup. intros i x Hx.
    destruct (Hin i) as [a Ha].
    + pose proof (lookup_lt_Some _ _ _ Hx). simpl. lia.
    + rewrite Hnil. apply not_elem_of_nil.
    + rewrite Ha in Hx. inversion Hx. by eexists.
Qed.
End ReductionObj.

(** The open mesh of levels that exist has as many entries as its shape
    says. *)
Lemma ix_data_length {T : Type} (idxs : list (list nat)) :
  forall (sh : list nat) (d : list T),
    length d = size sh ->
    Forall2 (fun idx n => Forall (fun i => i < n) idx) idxs (take (length idxs) sh) ->
    length (ix_data sh idxs d)
      = size (map length idxs ++ drop (length idxs) sh).
Proof.
  induction idxs as [|idx idxs IH]; intros sh d Hd Hall.
  - simpl. rewrite ?drop_0. by destruct sh.
  - destruct sh as [|n sh]; [by inversion Hall|].
    simpl in Hall. apply Forall2_cons in Hall as [Hidx Hall].
    cbn [ix_data map length app drop]. simpl in Hd.
    pose proof (chunks_lengths n (size sh) d Hd) as Hcs.
    rewrite (length_concat_uniform
               (size (map length idxs ++ drop (length idxs) sh))).
    + rewrite length_map. done.
    + apply Forall_fmap. eapply Forall_impl; [exact Hidx|].
      intros i Hi. cbv beta in Hi. unfold compose.
      destruct (lookup_lt_is_Some_2 (chunks n (size sh) d) i) as [c Hc].
      { by rewrite length_chunks. }
      rewrite Hc. simpl. apply IH; [|done].
      rewrite Forall_lookup in Hcs. by apply (Hcs i).
Qed.

Section TransitionReduction.
Context {F : Type}.
Variable norm_dist : ndarray F -> ndarray F.
Variable norm_dist_obj_arr : list (ndarray F) -> list (ndarray F).

Local Abbreviation prune_B := (_prune_B norm_dist norm_dist_obj_arr).

Lemma prune_B_loop (sl : list pyitem) (slices : list (list Z)) :
  forall (xs : list (nat * ndarray F)) (red : list (option (ndarray F)))
         (w : world F),
    exists (r : result (list (option (ndarray F)))) (k : nat),
      for_fold xs (prune_B_step sl slices) red w
        = (r, World (heap w) (trace w ++ replicate k Sliced)) /\
      (is_ok r = true -> k = length xs).
Proof.
  induction xs as [|[f B_f] xs IH]; intros red w.
  - exists (ok red), 0. simpl. rewrite app_nil_r. by destruct w.
  - cbn [for_fold]. unfold bind at 1. unfold prune_B_step at 1.
    rewrite bind_lift.
    destruct (shape0 B_f) as [e|ns].
    { exists (inl e), 0. simpl. rewrite app_nil_r. by destruct w. }
    rewrite bind_lift.
    destruct (py_getitem sl (Z.of_nat f)) as [e|item].
    { exists (inl e), 0. simpl. rewrite app_nil_r. by destruct w. }
    rewrite bind_lift.
    destruct (set_of_item item) as [e|remove].
    { exists (inl e), 0. simpl. rewrite app_nil_r. by destruct w. }
    rewrite bind_lift.
    destruct (py_getitem slices (Z.of_nat f)) as [e|slices_f].
    { exists (inl e), 0. simpl. rewrite app_nil_r. by destruct w. }
    unfold slice. unfold bind at 1. unfold bind at 1. unfold emit at 1.
    unfold ok at 1. unfold lift at 1. cbv beta iota.
    destruct (nd_ix B_f _) as [e|kept].
    { exists (inl e), 1. simpl. done. }
    unfold ret at 1. cbv beta iota.
    destruct (IH (<[f := Some kept]> red)
                (World (heap w) (trace w ++ [Sliced]))) as (r & k & Hrun & Hk).
    exists r, (S k). cbn [heap trace] in Hrun.
    rewrite <- app_assoc in Hrun. split; [exact Hrun|].
    intros Hok. simpl. f_equal. by apply Hk.
Qed.

(** The Dirichlet flag in [_prune_B].  With the flag the call does what the
    call without the flag does up to the normalisation, the indexing of
    every factor included, and raises [NotImplementedError] where the other
    call would normalise; it never returns and never normalises.  An
    exception raised earlier is the same in both calls. *)
Theorem prune_B_dirichlet_flag :
  forall (B : model_arg F) (sl al : list pyitem) (w : world F),
    let rt := prune_B B sl al true w in
    let rf := prune_B B sl al false w in
    fst rt = match fst rf with
             | inr _ => inl (NotImplementedError prune_A_msg)
             | inl e => inl e
             end /\
    heap (snd rt) = heap w /\
    exists k : nat,
      trace (snd rt) = trace w ++ replicate k Sliced /\
      trace (snd rf) =
        trace (snd rt) ++ (if is_ok (fst rf) then [Normalized] else []) /\
      (is_ok (fst rf) = true ->
       k = match B with
           | ObjModel Bs => length Bs
           | PlainModel _ => 1
           end).
Proof.
  intros B sl al w. cbv zeta. unfold _prune_B.
  destruct B as [B|Bs].
  - rewrite ?bind_lift.
    destruct (slices_to_keep B al) as [e|slices].
    { simpl. repeat split; try done. exists 0. simpl. by rewrite !app_nil_r. }
    rewrite ?bind_lift.
    destruct (py_assert (forallb is_int sl)) as [e|[]].
    { simpl. repeat split; try done. exists 0. simpl. by rewrite !app_nil_r. }
    rewrite ?bind_lift.
    destruct (shape0 B) as [e|ns].
    { simpl. repeat split; try done. exists 0. simpl. by rewrite !app_nil_r. }
    rewrite ?bind_lift.
    destruct (set_of_items sl) as [e|remove].
    { simpl. repeat split; try done. exists 0. simpl. by rewrite !app_nil_r. }
    unfold slice, normalize, bind, emit, lift, ret, raise. simpl.
    destruct (nd_ix B _) as [e|kept]; simpl.
    + repeat split; try done. exists 1. simpl. by rewrite !app_nil_r.
    + repeat split; try done. exists 1. simpl. done.
  - rewrite ?bind_lift.
    destruct (slices_to_keep_list Bs al) as [e|slices].
    { simpl. repeat split; try done. exists 0. simpl. by rewrite !app_nil_r. }
    rewrite ?bind_lift.
    destruct (py_assert (forallb is_list sl)) as [e|[]].
    { simpl. repeat split; try done. exists 0. simpl. by rewrite !app_nil_r. }
    destruct (prune_B_loop sl slices (enumerate Bs)
                (replicate (length Bs) None) w) as (r & k & Hrun & Hk).
    rewrite !(bind_eq _ _ _ _ _ Hrun).
    destruct r as [e|red].
    + simpl. repeat split; try done. exists k. simpl. by rewrite !app_nil_r.
    + unfold normalize_obj_arr, bind, emit, ret, raise. simpl.
      repeat split; try done. exists k. repeat split; try done.
      intros _. rewrite (Hk eq_refl). unfold enumerate.
      rewrite length_zip_with, length_seq. lia.
Qed.

(** What [_prune_B] does to a single tensor.  For a tensor of shape [(ns,
    ns, nc)] and requests of level numbers, without the Dirichlet flag, the
    call does not raise: it indexes once, normalises once, and the tensor
    that is normalised has shape [(k, k, c)], with [k] the number of states
    kept (the same on both state axes) and [c] the number of controls kept; a
    level is kept, once, exactly when it exists and the request does not name
    it. *)
Theorem prune_B_plain_shape :
  forall (B : ndarray F) (ns nc : nat) (sl al : list pyitem) (w : world F),
    shape B = [ns; ns; nc] -> nd_wf B ->
    forallb is_int sl = true -> forallb is_int al = true ->
    exists (states slices : list Z) (a : ndarray F),
      prune_B (PlainModel B) sl al false w =
        (ok (PlainModel (norm_dist a)),
         World (heap w) (trace w ++ [Sliced; Normalized])) /\
      shape a = [length states; length states; length slices] /\
      nd_wf a /\
      NoDup states /\ NoDup slices /\
      (forall i : Z,
         i ∈ states <-> (0 <= i < Z.of_nat ns)%Z /\ PInt i ∉ sl) /\
      (forall i : Z,
         i ∈ slices <-> (0 <= i < Z.of_nat nc)%Z /\ PInt i ∉ al).
Proof.
  intros B ns nc sl al w Hs Hwf Hsl Hal.
  destruct (set_of_items_PInt sl Hsl) as (zs & Hzs & ->).
  destruct (set_of_items_PInt al Hal) as (za & Hza & ->).
  set (states := levels_kept ns zs). set (slices := levels_kept nc za).
  assert (Hnorm : ix_norm (shape B) [states; states; slices]
                  = ok [map Z.to_nat states; map Z.to_nat states;
                        map Z.to_nat slices]).
  { rewrite Hs. cbn [ix_norm]. subst states slices.
    rewrite !levels_kept_norm. reflexivity. }
  exists states, slices,
    (NdArray [length states; length states; length slices]
       (ix_data (shape B) [map Z.to_nat states; map Z.to_nat states;
                           map Z.to_nat slices] (data B))).
  assert (Hmem : forall (n : nat) (l : list Z) (i : Z),
            i ∈ levels_kept n l <->
            (0 <= i < Z.of_nat n)%Z /\ PInt i ∉ map PInt l).
  { intros n l i. rewrite elem_of_levels_kept, list_elem_of_fmap.
    split; intros [Hi Hni]; (split; [done|]).
    - intros (j & Hj & Hin). inversion Hj; subst j. done.
    - intros Hin. apply Hni. by exists i. }
  split.
  { unfold _prune_B. unfold slices_to_keep, shape2. rewrite Hs.
    cbn [rbind ok]. rewrite Hza. cbn [rbind ok]. rewrite bind_lift_ok.
    rewrite Hsl. unfold py_assert. rewrite bind_lift_ok.
    unfold shape0. rewrite Hs. rewrite bind_lift_ok.
    rewrite Hzs. rewrite bind_lift_ok.
    fold states. fold slices.
    unfold slice, normalize, bind, emit, lift, ret, nd_ix.
    rewrite Hnorm. rewrite Hs. simpl. rewrite !length_map.
    by rewrite <- app_assoc. }
  split; [done|]. split.
  { unfold nd_wf. cbn [shape data].
    rewrite ix_data_length.
    - rewrite Hs. simpl. by rewrite !length_map.
    - exact Hwf.
    - rewrite Hs. simpl.
      assert (Hlt : forall (n : nat) (l : list Z),
                Forall (fun i => i < n) (map Z.to_nat (levels_kept n l))).
      { intros n l. apply Forall_fmap.
        eapply Forall_impl; [apply levels_kept_range|].
        intros i Hi. simpl in *. lia. }
      repeat constructor; apply Hlt. }
  split; [apply levels_kept_NoDup|]. split; [apply levels_kept_NoDup|].
  split; intros i; apply Hmem.
Qed.

(** What [_prune_A] does to a single matrix.  For a matrix of shape [(no,
    ns)] and requests of level numbers, without the Dirichlet flag, the call
    does not raise: it indexes once, normalises once, and the matrix that is
    normalised has one row for every observation level kept and one column
    for every state level kept; a level is kept, once, exactly when it exists
    and the request does not name it. *)
Theorem prune_A_plain_shape :
  forall (A : ndarray F) (no ns : nat) (ol sl : list pyitem) (w : world F),
    shape A = [no; ns] -> nd_wf A ->
    forallb is_int ol = true -> forallb is_int sl = true ->
    exists (rows columns : list Z) (a : ndarray F),
      _prune_A norm_dist norm_dist_obj_arr (PlainModel A) ol sl false w =
        (ok (PlainModel (norm_dist a)),
         World (heap w) (trace w ++ [Sliced; Normalized])) /\
      shape a = [length rows; length columns] /\
      nd_wf a /\
      NoDup rows /\ NoDup columns /\
      (forall i : Z,
         i ∈ rows <-> (0 <= i < Z.of_nat no)%Z /\ PInt i ∉ ol) /\
      (forall i : Z,
         i ∈ columns <-> (0 <= i < Z.of_nat ns)%Z /\ PInt i ∉ sl).
Proof.
  intros A no ns ol sl w Hs Hwf Hol Hsl.
  destruct (set_of_items_PInt ol Hol) as (zo & Hzo & ->).
  destruct (set_of_items_PInt sl Hsl) as (zs & Hzs & ->).
  set (rows := levels_kept no zo). set (columns := levels_kept ns zs).
  assert (Hnorm : ix_norm (shape A) [rows; columns]
                  = ok [map Z.to_nat rows; map Z.to_nat columns]).
  { rewrite Hs. cbn [ix_norm]. subst rows columns.
    rewrite !levels_kept_norm. reflexivity. }
  exists rows, columns,
    (NdArray [length rows; length columns]
       (ix_data (shape A) [map Z.to_nat rows; map Z.to_nat columns] (data A))).
  assert (Hmem : forall (n : nat) (l : list Z) (i : Z),
            i ∈ levels_kept n l <->
            (0 <= i < Z.of_nat n)%Z /\ PInt i ∉ map PInt l).
  { intros n l i. rewrite elem_of_levels_kept, list_elem_of_fmap.
    split; intros [Hi Hni]; (split; [done|]).
    - intros (j & Hj & Hin). inversion Hj; subst j. done.
    - intros Hin. apply Hni. by exists i. }
  split.
  { unfold _prune_A, columns_to_keep. rewrite Hs.
    rewrite Hzs. cbn [rbind ok]. rewrite bind_lift_ok.
    rewrite Hol. unfold py_assert. rewrite bind_lift_ok.
    unfold shape0. rewrite Hs. rewrite bind_lift_ok.
    rewrite Hzo. rewrite bind_lift_ok.
    fold rows. fold columns.
    unfold slice, normalize, bind, emit, lift, ret, nd_ix.
    rewrite Hnorm. rewrite Hs. simpl. rewrite !length_map.
    by rewrite <- app_assoc. }
  split; [done|]. split.
  { unfold nd_wf. cbn [shape data].
    rewrite ix_data_length.
    - rewrite Hs. simpl. by rewrite !length_map.
    - exact Hwf.
    - rewrite Hs. simpl.
      assert (Hlt : forall (n : nat) (l : list Z),
                Forall (fun i => i < n) (map Z.to_nat (levels_kept n l))).
      { intros n l. apply Forall_fmap.
        eapply Forall_impl; [apply levels_kept_range|].
        intros i Hi. simpl in *. lia. }
      repeat constructor; apply Hlt. }
  split; [apply levels_kept_NoDup|]. split; [apply levels_kept_NoDup|].
  split; intros i; apply Hmem.
Qed.
End TransitionReduction.

(** ** [_run_vanilla_fpi_faster] *)

(** A loop that only ever rewrites entries of a list keeps its length and
    the entries that no pass writes. *)
Lemma rfold_frame {A V : Type} (step : list V -> A -> result (list V))
    (P : nat -> Prop) :
  (forall (vals : list V) (x : A) (vals' : list V),
     step vals x = ok vals' ->
     length vals' = length vals /\
     forall i : nat, P i -> vals' !! i = vals !! i) ->
  forall (xs : list A) (vals vals' : list V),
    rfold step xs vals = ok vals' ->
    length vals' = length vals /\
    forall i : nat, P i -> vals' !! i = vals !! i.
Proof.
  intros Hstep xs. induction xs as [|x xs IH]; intros vals vals' Hfold.
  - inversion Hfold. done.
  - cbn [rfold] in Hfold.
    destruct (step vals x) as [e|vals1] eqn:Hx; [done|].
    destruct (Hstep _ _ _ Hx) as [Hlen1 Hkeep1].
    destruct (IH _ _ Hfold) as [Hlen2 Hkeep2].
    split; [congruence|]. intros i Hi. rewrite Hkeep2, Hkeep1; done.
Qed.

Section FasterProps.
Context {F : Type} `{Scalar F}.
Variable fge : F -> F -> bool.
Variable fabs_diff : F -> F -> F.
Variable frecip : F -> F.
Variable log_eps : ndarray F -> ndarray F.
Variable uniform : nat -> ndarray F.
Variable sum_axes : ndarray F -> list nat -> result (ndarray F).
Variable get_joint_likelihood :
  arrays F -> arrays F -> list nat -> result (ndarray F).
Variable calc_free_energy :
  list (ndarray F) -> list (ndarray F) -> nat -> option (ndarray F) -> result F.
Variable spm_dot : ndarray F -> list (ndarray F) -> list Z -> result (ndarray F).
Variable softmax : ndarray F -> result (ndarray F).

Local Abbreviation sweep := (faster_sweep frecip sum_axes softmax).
Local Abbreviation iteration :=
  (faster_iteration fabs_diff frecip sum_axes calc_free_energy softmax).
Local Abbreviation passes :=
  (faster_passes fabs_diff frecip sum_axes calc_free_energy softmax).
Local Abbreviation while :=
  (faster_while fge fabs_diff frecip sum_axes calc_free_energy softmax).
Local Abbreviation setup :=
  (faster_setup log_eps uniform get_joint_likelihood calc_free_energy).
Local Abbreviation faster :=
  (_run_vanilla_fpi_faster fge fabs_diff frecip log_eps uniform sum_axes
     get_joint_likelihood calc_free_energy spm_dot softmax).

(** When the first inner loop is over, [factor] is the last factor of the
    order (or what it was, for an empty order). *)
Lemma multiply_in_last (qs : list (ndarray F)) :
  forall (order : list nat) (L L' : ndarray F) (factor factor' : option nat),
    rfold (multiply_in qs) order (L, factor) = ok (L', factor') ->
    factor' = match last order with
              | Some f => Some f
              | None => factor
              end.
Proof.
  induction order as [|f order IH]; intros L L' factor factor' Hfold.
  - inversion Hfold. done.
  - cbn [rfold] in Hfold.
    destruct (multiply_in qs (L, factor) f) as [e|[L1 f1]] eqn:Hstep; [done|].
    cbn [rbind] in Hfold. apply IH in Hfold.
    assert (f1 = Some f).
    { unfold multiply_in in Hstep.
      destruct (py_getitem qs (Z.of_nat f)) as [e|q]; [done|].
      cbn [rbind] in Hstep.
      destruct (axis_shape L q f) as [e|s]; [done|]. cbn [rbind] in Hstep.
      destruct (nd_reshape q s) as [e|x]; [done|]. cbn [rbind] in Hstep.
      destruct (nd_imul L x) as [e|L2]; [done|]. cbn [rbind] in Hstep.
      by inversion Hstep. }
    subst f1. rewrite Hfold, (last_cons f order). by destruct (last order).
Qed.

(** The second inner loop writes [qs[factor]] and nothing else. *)
Lemma marginal_out_frame (L : ndarray F) (prior : list (ndarray F))
    (n_factors : nat) (factor : option nat) (qs : list (ndarray F)) (f : nat)
    (qs' : list (ndarray F)) :
  marginal_out frecip sum_axes softmax L prior n_factors factor qs f = ok qs' ->
  length qs' = length qs /\
  forall i : nat, Some i <> factor -> qs' !! i = qs !! i.
Proof.
  unfold marginal_out. intros Hm.
  destruct factor as [factor|]; [|done].
  destruct (py_getitem qs (Z.of_nat factor)) as [e|q]; [done|].
  cbn [rbind] in Hm.
  destruct (axis_shape L q factor) as [e|s]; [done|]. cbn [rbind] in Hm.
  destruct (nd_reshape (nd_map frecip q) s) as [e|x]; [done|].
  cbn [rbind] in Hm.
  destruct (nd_mul L x) as [e|temp]; [done|]. cbn [rbind] in Hm.
  destruct (sum_axes temp _) as [e|qL]; [done|]. cbn [rbind] in Hm.
  destruct (py_getitem prior (Z.of_nat factor)) as [e|p]; [done|].
  cbn [rbind] in Hm.
  destruct (nd_add qL p) as [e|y]; [done|]. cbn [rbind] in Hm.
  destruct (softmax y) as [e|q_new]; [done|]. cbn [rbind] in Hm.
  destruct (decide (factor < length qs)); [|done].
  inversion Hm. split; [by rewrite length_insert|].
  intros i Hi. apply list_lookup_insert_ne. congruence.
Qed.

(** One sweep over a factor order changes the marginal of the last factor
    of the order and no other. *)
Lemma faster_sweep_frame (likelihood : ndarray F) (prior : list (ndarray F))
    (n_factors : nat) (qs : list (ndarray F)) (factor : option nat)
    (order : list nat) (qs' : list (ndarray F)) (factor' : option nat) :
  sweep likelihood prior n_factors (qs, factor) order = ok (qs', factor') ->
  length qs' = length qs /\
  forall i : nat, Some i <> last order -> qs' !! i = qs !! i.
Proof.
  unfold faster_sweep. intros Hs.
  destruct (rfold (multiply_in qs) order (likelihood, factor)) as [e|[L f1]]
    eqn:Hfirst; [done|].
  cbn [rbind] in Hs.
  destruct (rfold (marginal_out frecip sum_axes softmax L prior n_factors f1)
              order qs) as [e|qs1] eqn:Hsecond; [done|].
  cbn [rbind] in Hs. inversion Hs; subst qs1 f1. clear Hs.
  apply multiply_in_last in Hfirst.
  destruct order as [|f order].
  { inversion Hsecond. done. }
  destruct (last (f :: order)) as [g|] eqn:Hlast.
  2:{ by rewrite last_None in Hlast. }
  subst factor'.
  apply (rfold_frame _ (fun i => Some i <> Some g)) in Hsecond; [done|].
  intros vals x vals' Hstep. by apply marginal_out_frame in Hstep.
Qed.

Lemma last_seq (n : nat) : last (seq 0 (S n)) = Some n.
Proof. rewrite seq_S. by rewrite last_snoc. Qed.

Lemma last_reverse_seq (n : nat) : last (reverse (seq 0 (S n))) = Some 0.
Proof. rewrite last_reverse. done. Qed.

(** One pass through the body of the [while] loop: only the marginals of
    the first and of the last factor can change. *)
Lemma faster_iteration_frame (likelihood : ndarray F) (prior : list (ndarray F))
    (n_factors : nat) (st st' : fpi_state F * option nat) :
  iteration likelihood prior n_factors st = ok st' ->
  length (st_qs (fst st')) = length (st_qs (fst st)) /\
  st_curr_iter (fst st') = (st_curr_iter (fst st) + 1)%Z /\
  forall i : nat, i <> 0 -> i <> n_factors - 1 ->
    st_qs (fst st') !! i = st_qs (fst st) !! i.
Proof.
  unfold faster_iteration. destruct st as [s factor]. intros Hit.
  cbn [rfold] in Hit.
  destruct (sweep likelihood prior n_factors (st_qs s, factor) (seq 0 n_factors))
    as [e|[qs1 f1]] eqn:H1; [done|].
  cbn [rbind] in Hit.
  destruct (sweep likelihood prior n_factors (qs1, f1) (reverse (seq 0 n_factors)))
    as [e|[qs2 f2]] eqn:H2; [done|].
  cbn [rbind ok] in Hit.
  destruct (calc_free_energy qs2 prior n_factors (Some likelihood)) as [e|vfe];
    [done|].
  cbn [rbind ok] in Hit. inversion Hit; subst st'. clear Hit.
  cbn [fst st_qs st_curr_iter].
  apply faster_sweep_frame in H1 as [Hl1 Hk1].
  apply faster_sweep_frame in H2 as [Hl2 Hk2].
  split; [congruence|]. split; [done|].
  intros i Hi0 Hin.
  destruct n_factors as [|n].
  - rewrite Hk2, Hk1; done.
  - rewrite Hk2, Hk1; [done| |].
    + rewrite last_seq. intros Heq. inversion Heq. lia.
    + rewrite last_reverse_seq. intros Heq. inversion Heq. lia.
Qed.
Lemma faster_passes_S n likelihood prior n_factors st :
  passes (S n) likelihood prior n_factors st =
    rbind (iteration likelihood prior n_factors st)
          (passes n likelihood prior n_factors).
Proof.
  unfold faster_passes. induction n as [|n IH].
  - simpl. by destruct (iteration _ _ _ _).
  - rewrite Nat.iter_succ. rewrite IH at 1.
    destruct (iteration likelihood prior n_factors st) as [e|st']; simpl; done.
Qed.

Lemma faster_while_S fuel likelihood prior n_factors num_iter dF_tol st :
  while (S fuel) likelihood prior n_factors num_iter dF_tol st =
    if fpi_continue fge num_iter dF_tol (fst st)
    then
      match iteration likelihood prior n_factors st with
      | inr st' => while fuel likelihood prior n_factors num_iter dF_tol st'
      | inl e => Some (inl e)
      end
    else Some (ok st).
Proof. reflexivity. Qed.

Lemma faster_while_bounded likelihood prior n_factors num_iter dF_tol :
  forall (bound : nat) (st : fpi_state F * option nat) (extra : nat),
    bound = Z.to_nat (num_iter - st_curr_iter (fst st)) ->
    exists n : nat,
      n <= bound /\
      while (S bound + extra) likelihood prior n_factors num_iter dF_tol st
        = Some (passes n likelihood prior n_factors st) /\
      match passes n likelihood prior n_factors st with
      | inr st' =>
          st_curr_iter (fst st') = (st_curr_iter (fst st) + Z.of_nat n)%Z /\
          fpi_continue fge num_iter dF_tol (fst st') = false
      | inl _ => True
      end.
Proof.
  induction bound as [|bound IH]; intros st extra Hb.
  - exists 0. split; [lia|].
    change (1 + extra) with (S extra). rewrite faster_while_S.
    rewrite (fpi_continue_done fge) by lia.
    split; [done|]. simpl. split; [lia|].
    apply fpi_continue_done. lia.
  - change (S (S bound) + extra) with (S (S bound + extra)).
    rewrite faster_while_S.
    destruct (fpi_continue fge num_iter dF_tol (fst st)) eqn:Hc.
    + apply fpi_continue_lt in Hc.
      destruct (iteration likelihood prior n_factors st) as [e|st'] eqn:Hit.
      * exists 1. split; [lia|].
        rewrite faster_passes_S, Hit. simpl. done.
      * destruct (faster_iteration_frame _ _ _ _ _ Hit) as (_ & Hk & _).
        destruct (IH st' extra) as (n & Hn & Hw & Hpost); [lia|].
        exists (S n). split; [lia|].
        rewrite faster_passes_S, Hit. simpl.
        split; [exact Hw|].
        destruct (passes n likelihood prior n_factors st') as [e|st2]; [done|].
        destruct Hpost as [Hcnt Hstop]. split; [lia|done].
    + exists 0. split; [lia|]. simpl. split; [done|]. split; [lia|done].
Qed.

(** The loop as a whole: only the marginals of the first and of the last
    factor can change. *)
Lemma faster_while_frame likelihood prior n_factors num_iter dF_tol :
  forall (fuel : nat) (st st' : fpi_state F * option nat),
    while fuel likelihood prior n_factors num_iter dF_tol st = Some (ok st') ->
    length (st_qs (fst st')) = length (st_qs (fst st)) /\
    forall i : nat, i <> 0 -> i <> n_factors - 1 ->
      st_qs (fst st') !! i = st_qs (fst st) !! i.
Proof.
  induction fuel as [|fuel IH]; intros st st' Hw; [done|].
  rewrite faster_while_S in Hw.
  destruct (fpi_continue fge num_iter dF_tol (fst st)).
  - destruct (iteration likelihood prior n_factors st) as [e|st1] eqn:Hit.
    { inversion Hw. }
    destruct (faster_iteration_frame _ _ _ _ _ Hit) as (Hl1 & _ & Hk1).
    destruct (IH _ _ Hw) as (Hl2 & Hk2).
    split; [congruence|]. intros i Hi0 Hin. rewrite Hk2, Hk1; done.
  - inversion Hw. done.
Qed.

(** The loop of [_run_vanilla_fpi_faster] comes to an end.  Whatever the
    arguments, [max(num_iter, 0) + 1] tests of the loop condition suffice for
    the call to return or raise; the loop makes [n <= max(num_iter, 0)]
    passes and ends either in an exception raised by a pass or in a state
    with [curr_iter = n] in which the condition is false. *)
Theorem run_vanilla_fpi_faster_terminates :
  forall (A obs : arrays F) (n_observations n_states : dims)
         (prior : option (list (ndarray F))) (num_iter : Z) (dF dF_tol : F)
         (extra : nat),
    let fuel := S (Z.to_nat num_iter) + extra in
    is_Some (faster fuel A obs n_observations n_states prior num_iter dF dF_tol) /\
    (forall (likelihood : ndarray F) (P : list (ndarray F)) (n_factors : nat)
            (qs : list (ndarray F)) (prev_vfe : F),
       let st := (FpiState qs prev_vfe dF 0, None) in
       exists n : nat,
         n <= Z.to_nat num_iter /\
         while fuel likelihood P n_factors num_iter dF_tol st
           = Some (passes n likelihood P n_factors st) /\
         match passes n likelihood P n_factors st with
         | inr st' =>
             st_curr_iter (fst st') = Z.of_nat n /\
             fpi_continue fge num_iter dF_tol (fst st') = false
         | inl _ => True
         end).
Proof.
  intros A obs n_observations n_states prior num_iter dF dF_tol extra fuel.
  assert (Hloop : forall (likelihood : ndarray F) (P : list (ndarray F))
                         (n_factors : nat) (qs : list (ndarray F)) (prev_vfe : F),
            let st := (FpiState qs prev_vfe dF 0, None) in
            exists n : nat,
              n <= Z.to_nat num_iter /\
              while fuel likelihood P n_factors num_iter dF_tol st
                = Some (passes n likelihood P n_factors st) /\
              match passes n likelihood P n_factors st with
              | inr st' =>
                  st_curr_iter (fst st') = Z.of_nat n /\
                  fpi_continue fge num_iter dF_tol (fst st') = false
              | inl _ => True
              end).
  { intros likelihood P n_factors qs prev_vfe st.
    destruct (faster_while_bounded likelihood P n_factors num_iter dF_tol
                (Z.to_nat num_iter) st extra) as (n & Hn & Hw & Hpost).
    { subst st. simpl. f_equal. lia. }
    exists n. split; [done|]. split; [exact Hw|].
    destruct (passes n likelihood P n_factors st); [done|].
    destruct Hpost as [Hcnt Hstop]. split; [|done].
    rewrite Hcnt. subst st. simpl. lia. }
  split; [|exact Hloop].
  unfold _run_vanilla_fpi_faster.
  destruct (dims_list n_observations) as [e|no]; [by eexists|].
  destruct (dims_list n_states) as [e|ns]; [by eexists|].
  destruct (setup A obs ns prior) as [e|[[[L q] P] v]]; [by eexists|].
  destruct (decide (length ns = 1)) as [Hone|Hmany]; [by eexists|].
  destruct (Hloop L P (length ns) q v) as (k & _ & Hw & _).
  rewrite Hw. destruct (passes k L P (length ns) _); by eexists.
Qed.

(** The marginals that [_run_vanilla_fpi_faster] never updates.  The second
    inner loop writes [qs[factor]] with the [factor] that the first inner
    loop left behind, so a sweep only rewrites the marginal of the last factor
    of its order: whenever the call returns an object array, it has one
    marginal per factor, and the marginal of every factor other than the first
    and the last is still the flat distribution it was initialised with. *)
Theorem run_vanilla_fpi_faster_middle_factors :
  forall (fuel : nat) (A obs : arrays F) (n_observations n_states : list nat)
         (prior : option (list (ndarray F))) (num_iter : Z) (dF dF_tol : F)
         (qs : list (ndarray F)),
    faster fuel A obs (DimList n_observations) (DimList n_states) prior
      num_iter dF dF_tol = Some (ok (ArrOfArr qs)) ->
    length qs = length n_states /\
    forall (i n : nat),
      0 < i -> i < length n_states - 1 -> n_states !! i = Some n ->
      qs !! i = Some (uniform n).
Proof.
  intros fuel A obs no ns prior num_iter dF dF_tol qs Hrun.
  unfold _run_vanilla_fpi_faster in Hrun. cbn [dims_list ok] in Hrun.
  destruct (setup A obs ns prior) as [e|[[[L q] P] v]] eqn:Hsetup;
    [by inversion Hrun|].
  assert (Hq : q = map uniform ns).
  { unfold faster_setup in Hsetup.
    destruct (get_joint_likelihood A obs ns) as [e|L0]; [done|].
    cbn [rbind] in Hsetup.
    destruct (calc_free_energy _ _ _ _) as [e|v0]; [done|].
    cbn [rbind] in Hsetup. by inversion Hsetup. }
  destruct (decide (length ns = 1)) as [Hone|Hmany].
  { inversion Hrun as [Hr].
    destruct (spm_dot L q [0%Z]) as [e|qL]; [done|]. cbn [rbind] in Hr.
    destruct (py_getitem P 0) as [e|p]; [done|]. cbn [rbind] in Hr.
    destruct (nd_add qL p) as [e|x]; [done|]. cbn [rbind] in Hr.
    destruct (softmax x) as [e|y]; done. }
  destruct (while fuel L P (length ns) num_iter dF_tol (FpiState q v dF 0, None))
    as [[e|st]|] eqn:Hw; try done.
  inversion Hrun; subst qs. clear Hrun.
  apply faster_while_frame in Hw as [Hlen Hkeep]. cbn [fst st_qs] in Hlen, Hkeep.
  subst q. rewrite length_map in Hlen. split; [done|].
  intros i n Hi0 Hin Hn. rewrite Hkeep by lia.
  rewrite list_lookup_fmap, Hn. done.
Qed.

(** No pass through the loop.  For more than one factor (or none), when
    [num_iter <= 0] or the initial [dF] is below the tolerance, the call
    returns the flat marginals it started from, provided steps 1 to 3
    succeed; one test of the loop condition is all it makes. *)
Theorem run_vanilla_fpi_faster_no_pass :
  forall (fuel : nat) (A obs : arrays F) (n_observations n_states : list nat)
         (prior : option (list (ndarray F))) (num_iter : Z) (dF dF_tol : F),
    (num_iter <= 0)%Z \/ fge dF dF_tol = false ->
    length n_states <> 1 ->
    is_ok (setup A obs n_states prior) = true ->
    faster (S fuel) A obs (DimList n_observations) (DimList n_states) prior
      num_iter dF dF_tol = Some (ok (ArrOfArr (map uniform n_states))).
Proof.
  intros fuel A obs no ns prior num_iter dF dF_tol Hstop Hmany Hsetup.
  unfold _run_vanilla_fpi_faster. cbn [dims_list ok].
  destruct (setup A obs ns prior) as [e|[[[L q] P] v]] eqn:Hs; [done|].
  assert (Hq : q = map uniform ns).
  { unfold faster_setup in Hs.
    destruct (get_joint_likelihood A obs ns) as [e|L0]; [done|].
    cbn [rbind] in Hs.
    destruct (calc_free_energy _ _ _ _) as [e|v0]; [done|].
    cbn [rbind] in Hs. by inversion Hs. }
  rewrite decide_False by done. rewrite faster_while_S.
  assert (Hc : fpi_continue fge num_iter dF_tol
                 (fst (FpiState q v dF 0, @None nat)) = false).
  { unfold fpi_continue. cbn [fst st_curr_iter st_dF].
    destruct Hstop as [Hle|Hlt].
    - by rewrite bool_decide_eq_false_2 by lia.
    - rewrite Hlt. apply andb_false_r. }
  rewrite Hc. cbn [fst st_qs]. by rewrite Hq.
Qed.

(** The single-factor shortcut.  With one factor the call makes no pass
    and no test of the loop condition (no fuel is needed, and [num_iter],
    [dF] and [dF_tol] play no part): what it returns is the numeric array
    [softmax(spm_dot(L, qs, [0]) + prior[0])], for the logarithm [L] of the
    joint likelihood and the flat [qs]; a prior that is passed in is used as
    it is, and the default is the logarithm of the flat distribution. *)
Theorem run_vanilla_fpi_faster_single_factor :
  forall (fuel : nat) (A obs : arrays F) (n_observations : list nat) (n : nat)
         (prior : option (list (ndarray F))) (num_iter : Z) (dF dF_tol : F)
         (L0 : ndarray F) (v : F),
    let P := default [log_eps (uniform n)] prior in
    get_joint_likelihood A obs [n] = ok L0 ->
    calc_free_energy [uniform n] P 1 None = ok v ->
    faster fuel A obs (DimList n_observations) (DimList [n]) prior
      num_iter dF dF_tol =
    Some (rbind (spm_dot (log_eps L0) [uniform n] [0%Z]) (fun qL =>
          rbind (py_getitem P 0) (fun p =>
          rbind (nd_add qL p) (fun x =>
          rbind (softmax x) (fun q => ok (Single q)))))).
Proof.
  intros fuel A obs no n prior num_iter dF dF_tol L0 v P HL Hv.
  unfold _run_vanilla_fpi_faster, faster_setup. cbn [dims_list ok].
  rewrite HL. cbn [rbind ok map length].
  assert (HP : match prior with
               | Some p => p
               | None => [log_eps (uniform n)]
               end = P) by (subst P; by destruct prior).
  rewrite HP, Hv. cbn [rbind ok]. by rewrite decide_True by done.
Qed.

(** Dimensions passed as an [int].  The docstring allows an [int] for
    [n_observations] and for [n_states], but the first two statements take
    [len()] of them: the call raises [TypeError] before anything is
    computed. *)
Theorem run_vanilla_fpi_faster_int_dims :
  forall (fuel : nat) (A obs : arrays F) (k : Z) (d : dims) (l : list nat)
         (prior : option (list (ndarray F))) (num_iter : Z) (dF dF_tol : F),
    faster fuel A obs (DimInt k) d prior num_iter dF dF_tol
      = Some (inl (TypeError "object of type 'int' has no len()")) /\
    faster fuel A obs (DimList l) (DimInt k) prior num_iter dF dF_tol
      = Some (inl (TypeError "object of type 'int' has no len()")).
Proof. intros. split; reflexivity. Qed.
End FasterProps.

(** ** The marginals of one pass of [run_vanilla_fpi] *)

Section MarginalProps.
Context {F : Type} `{Scalar F}.
Variable nd_div : ndarray F -> ndarray F -> result (ndarray F).
Variable einsum_keep : ndarray F -> nat -> nat -> result (ndarray F).
Variable softmax : ndarray F -> result (ndarray F).

Local Abbreviation marginal := (fpi_marginal nd_div einsum_keep softmax).

Lemma update_marginals_loop (LL : ndarray F) (prior : list (ndarray F))
    (n_factors : nat) :
  forall (xs : list (ndarray F)) (k : nat) (acc acc' : list (ndarray F)),
    k + length xs <= length acc ->
    rfold (fun qs' '(factor, qs_i) =>
             rbind (einsum_keep LL n_factors factor) (fun s =>
             rbind (nd_div s qs_i) (fun qL =>
             rbind (py_getitem prior (Z.of_nat factor)) (fun p =>
             rbind (nd_add qL p) (fun x =>
             rbind (softmax x) (fun q =>
             ok (<[factor := q]> qs')))))))
          (zip (seq k (length xs)) xs) acc = ok acc' ->
    length acc' = length acc /\
    (forall j : nat, j < k -> acc' !! j = acc !! j) /\
    forall (j : nat) (q : ndarray F), xs !! j = Some q ->
      exists y : ndarray F,
        marginal LL prior n_factors (k + j) q = ok y /\
        acc' !! (k + j) = Some y.
Proof.
  induction xs as [|x xs IH]; intros k acc acc' Hlen Hfold.
  - inversion Hfold. done.
  - cbn [length seq zip zip_with rfold] in Hfold. simpl in Hlen.
    destruct (einsum_keep LL n_factors k) as [e|s] eqn:Hs; [done|].
    cbn [rbind] in Hfold.
    destruct (nd_div s x) as [e|qL] eqn:HqL; [done|]. cbn [rbind] in Hfold.
    destruct (py_getitem prior (Z.of_nat k)) as [e|p] eqn:Hp; [done|].
    cbn [rbind] in Hfold.
    destruct (nd_add qL p) as [e|z] eqn:Hz; [done|]. cbn [rbind] in Hfold.
    destruct (softmax z) as [e|y] eqn:Hy; [done|]. cbn [rbind ok] in Hfold.
    destruct (IH (S k) (<[k := y]> acc) acc') as (Hl & Hbefore & Hin).
    { rewrite length_insert. lia. }
    { exact Hfold. }
    rewrite length_insert in Hl. split; [done|]. split.
    + intros j Hj. rewrite Hbefore by lia. apply list_lookup_insert_ne. lia.
    + intros j q Hq. destruct j as [|j]; simpl in Hq.
      * inversion Hq; subst q. exists y. rewrite Nat.add_0_r. split.
        -- unfold fpi_marginal. rewrite Hs. cbn [rbind].
           rewrite HqL. cbn [rbind]. rewrite Hp. cbn [rbind].
           rewrite Hz. cbn [rbind]. done.
        -- rewrite Hbefore by lia. apply list_lookup_insert_eq. lia.
      * destruct (Hin j q Hq) as (y' & Hm & Hy').
        exists y'. replace (k + S j) with (S k + j) by lia. done.
Qed.

(** The update of the marginals in one pass of [run_vanilla_fpi] is
    synchronous: when it succeeds, there is one new marginal per factor, and
    the new marginal of every factor is computed from the one tensor
    [LL_tensor] built before the loop and from the previous marginal of that
    factor; no new marginal enters the computation of another. *)
Theorem update_marginals_synchronous :
  forall (LL_tensor : ndarray F) (prior : list (ndarray F)) (n_factors : nat)
         (qs qs' : list (ndarray F)),
    update_marginals nd_div einsum_keep softmax LL_tensor prior n_factors qs
      = ok qs' ->
    length qs' = length qs /\
    forall (factor : nat) (qs_i : ndarray F),
      qs !! factor = Some qs_i ->
      exists q : ndarray F,
        marginal LL_tensor prior n_factors factor qs_i = ok q /\
        qs' !! factor = Some q.
Proof.
  intros LL prior n_factors qs qs' Hrun.
  unfold update_marginals, enumerate in Hrun.
  destruct (update_marginals_loop LL prior n_factors qs 0 qs qs')
    as (Hlen & _ & Hin); [simpl; lia|exact Hrun|].
  split; [done|]. intros factor qs_i Hq. exact (Hin factor qs_i Hq).
Qed.
End MarginalProps.

(** ** The formatting of observations and priors in [inference.py] *)

Lemma rmap_fmap {A B : Type} (f : A -> result B) (g : A -> B) (xs : list A) :
  Forall (fun x => f x = ok (g x)) xs -> rmap f xs = ok (map g xs).
Proof.
  induction 1 as [|x xs Hx _ IH]; [done|].
  simpl. by rewrite Hx, IH.
Qed.

Lemma rmap_length {A B : Type} (f : A -> result B) (xs : list A) (ys : list B) :
  rmap f xs = ok ys -> length ys = length xs.
Proof.
  revert ys. induction xs as [|x xs IH]; intros ys Hr.
  - by inversion Hr.
  - simpl in Hr. destruct (f x) as [e|y]; [done|]. cbn [rbind] in Hr.
    destruct (rmap f xs) as [e|ys']; [done|]. cbn [rbind] in Hr.
    inversion Hr. simpl. f_equal. by apply IH.
Qed.

(** A list comprehension of which every entry either succeeds or raises
    [IndexError], and one entry raises: the comprehension raises
    [IndexError]. *)
Lemma rmap_index_error {A B : Type} (f : A -> result B) (xs : list A) :
  Forall (fun x => is_ok (f x) = true \/ exists msg, f x = throw (IndexError msg)) xs ->
  Exists (fun x => is_ok (f x) = false) xs ->
  exists msg : string, rmap f xs = throw (IndexError msg).
Proof.
  induction 1 as [|x xs Hx _ IH]; intros Hex.
  - by apply Exists_nil in Hex.
  - simpl. destruct Hx as [Hx|[msg Hx]].
    + destruct (f x) as [e|y] eqn:Hfx; [done|]. cbn [rbind].
      apply Exists_cons in Hex as [Hex|Hex]; [by rewrite Hfx in Hex|].
      destruct (IH Hex) as [msg Hmsg]. exists msg. by rewrite Hmsg.
    + exists msg. by rewrite Hx.
Qed.

Section FormatProps.
Context {F : Type} `{Scalar F}.
Variable categorical : Type.
Variable to_numpy : categorical -> arrays F.
Variable values_squeeze : categorical -> ndarray F.
Variable factor_values_squeeze : categorical -> nat -> result (ndarray F).
Variable to_arr_of_arr : ndarray F -> list (ndarray F).
Variable to_categorical : list (ndarray F) -> categorical.
Variable kwargs : Type.
Variable run_fpi :
  arrays F -> arrays F -> list nat -> list nat -> option (list (ndarray F)) ->
  kwargs -> py F (list (ndarray F)).

Local Abbreviation observations := (process_observations categorical to_numpy).
Local Abbreviation priors :=
  (process_priors categorical values_squeeze factor_values_squeeze to_arr_of_arr).
Local Abbreviation update :=
  (update_posterior_states categorical to_numpy values_squeeze
     factor_values_squeeze to_arr_of_arr to_categorical kwargs run_fpi).

(** [np.eye(n)[i]] is the one-hot vector for [i] when [-n <= i < n], and an
    [IndexError] otherwise. *)
Lemma eye_row_one_hot (n : nat) (i : Z) :
  eye_row n i =
    if decide (- Z.of_nat n <= i < Z.of_nat n)%Z
    then ok (one_hot_at n i)
    else throw (IndexError "index is out of bounds for axis 0").
Proof.
  unfold eye_row, norm_index, one_hot_at.
  destruct (decide (0 <= i < Z.of_nat n)%Z) as [Hpos|Hnpos].
  - rewrite decide_True by lia. do 2 f_equal. apply map_ext. intros j.
    rewrite Z.mod_small by lia.
    destruct (decide (j = Z.to_nat i)), (decide (Z.of_nat j = i)); try done; lia.
  - destruct (decide (- Z.of_nat n <= i < 0)%Z) as [Hneg|Hnneg].
    + rewrite decide_True by lia. do 2 f_equal. apply map_ext. intros j.
      assert (Hmod : (i `mod` Z.of_nat n = Z.of_nat n + i)%Z).
      { symmetry. apply (Z.mod_unique_pos _ _ (-1)); lia. }
      rewrite Hmod.
      destruct (decide (j = Z.to_nat (Z.of_nat n + i))),
               (decide (Z.of_nat j = (Z.of_nat n + i)%Z)); try done; lia.
    + by rewrite decide_False by lia.
Qed.

Lemma process_observations_int_run (i : Z) (n_modalities n : nat)
    (rest : list nat) :
  observations (ObsInt i) n_modalities (n :: rest) =
    if decide (- Z.of_nat n <= i < Z.of_nat n)%Z
    then ok (Single (one_hot_at n i))
    else throw (IndexError "index is out of bounds for axis 0").
Proof.
  unfold process_observations.
  change (py_getitem (n :: rest) 0) with (ok n : result nat).
  cbn [rbind ok]. rewrite eye_row_one_hot.
  by destruct (decide (- Z.of_nat n <= i < Z.of_nat n)%Z).
Qed.

(** An observation given as an index.  [process_observations] turns it into
    the one-hot vector of the length of the first modality; a negative index
    counts from the end, an index outside [[-n, n)] raises [IndexError]; the
    number of modalities and the other dimensions play no part. *)
Theorem process_observations_int :
  forall (i : Z) (n_modalities n : nat) (rest : list nat),
    ((- Z.of_nat n <= i < Z.of_nat n)%Z ->
     observations (ObsInt i) n_modalities (n :: rest)
       = ok (Single (one_hot_at n i))) /\
    (~ (- Z.of_nat n <= i < Z.of_nat n)%Z ->
     exists msg : string,
       observations (ObsInt i) n_modalities (n :: rest)
         = throw (IndexError msg)).
Proof.
  intros i n_modalities n rest.
  rewrite process_observations_int_run. split; intros Hi.
  - by rewrite decide_True by done.
  - rewrite decide_False by done. by eexists.
Qed.

(** An observation given as a tuple of indices, one per modality.  When the
    tuple and the list of dimensions have an entry for each of the
    [n_modalities] modalities, and every index is within its dimension,
    [process_observations] returns one one-hot vector per modality, of the
    length of that modality; further entries of the tuple are ignored. *)
Theorem process_observations_tuple :
  forall (t : list Z) (n_modalities : nat) (n_observations : list nat),
    n_modalities <= length t ->
    n_modalities <= length n_observations ->
    (forall (m n : nat) (i : Z),
       m < n_modalities -> n_observations !! m = Some n -> t !! m = Some i ->
       (- Z.of_nat n <= i < Z.of_nat n)%Z) ->
    exists l : list (ndarray F),
      observations (ObsTuple t) n_modalities n_observations = ok (ArrOfArr l) /\
      length l = n_modalities /\
      forall (m n : nat) (i : Z),
        m < n_modalities -> n_observations !! m = Some n -> t !! m = Some i ->
        l !! m = Some (one_hot_at n i).
Proof.
  intros t nm nobs Ht Hn Hrange.
  set (g := fun m : nat =>
              one_hot_at (default 0 (nobs !! m)) (default 0%Z (t !! m)) : ndarray F).
  exists (map g (seq 0 nm)). split; [|split].
  - unfold process_observations. rewrite (rmap_fmap _ g); [done|].
    apply Forall_forall. intros m Hm. apply elem_of_seq in Hm.
    destruct (lookup_lt_is_Some_2 nobs m) as [n Hnm]; [lia|].
    destruct (lookup_lt_is_Some_2 t m) as [i Him]; [lia|].
    rewrite !py_getitem_nat, Hnm, Him. cbn [rbind ok].
    rewrite eye_row_one_hot.
    rewrite decide_True by (apply (Hrange m); (done || lia)).
    subst g. cbv beta. by rewrite Hnm, Him.
  - by rewrite length_map, length_seq.
  - intros m n i Hm Hnm Him. rewrite list_lookup_fmap.
    rewrite lookup_seq_lt by done. simpl. subst g. cbv beta.
    by rewrite Hnm, Him.
Qed.

(** A tuple with fewer entries than there are modalities raises
    [IndexError]. *)
Theorem process_observations_short_tuple :
  forall (t : list Z) (n_modalities : nat) (n_observations : list nat),
    length t < n_modalities ->
    exists msg : string,
      observations (ObsTuple t) n_modalities n_observations
        = throw (IndexError msg).
Proof.
  intros t nm nobs Ht. unfold process_observations.
  match goal with
  | |- context [rmap ?f (seq 0 nm)] =>
      destruct (rmap_index_error f (seq 0 nm)) as [msg Hmsg]
  end.
  - apply Forall_forall. intros m _.
    rewrite !py_getitem_nat.
    destruct (nobs !! m) as [n|]; [|right; by eexists].
    cbn [rbind ok].
    destruct (t !! m) as [i|]; [|right; by eexists].
    cbn [rbind ok]. rewrite eye_row_one_hot.
    destruct (decide _); [by left|right; by eexists].
  - apply Exists_exists. exists (length t). split.
    + apply elem_of_seq. lia.
    + rewrite !py_getitem_nat.
      destruct (nobs !! length t) as [n|]; [|done]. cbn [rbind ok].
      by rewrite lookup_ge_None_2 by lia.
  - exists msg. by rewrite Hmsg.
Qed.

(** A prior given as a [Categorical].  When [process_priors] returns, the
    prior has exactly [n_factors] entries, whatever the [Categorical] holds;
    a negative [n_factors] (a model tensor without axes) raises
    [ValueError]. *)
Theorem process_priors_categorical :
  forall (c : categorical) (n_factors : Z),
    ((n_factors < 0)%Z ->
     priors (PriorCategorical c) n_factors
       = throw (ValueError "negative dimensions are not allowed")) /\
    (forall l : list (ndarray F),
       priors (PriorCategorical c) n_factors = ok l ->
       (0 <= n_factors)%Z /\ length l = Z.to_nat n_factors).
Proof.
  intros c n. unfold process_priors. split.
  - intros Hneg. by rewrite decide_True by done.
  - intros l Hl.
    destruct (decide (n < 0)%Z) as [Hneg|Hpos]; [done|].
    destruct (decide (n = 1)%Z) as [->|Hne]; [by inversion Hl|].
    apply rmap_length in Hl. rewrite length_seq in Hl. split; [lia|done].
Qed.

(** Fixed-point iteration on a single model tensor and an observation given
    as an index: [run_fpi] is called once, with the tensor, the one-hot
    vector of length [A.shape[0]], the dimensions [[A.shape[0]]] and
    [A.shape[1:]] and no prior; what it returns or raises is what the call
    returns or raises, wrapped as a [Categorical] when [return_numpy] is
    false. *)
Theorem update_posterior_states_fpi_int_obs :
  forall (A : ndarray F) (no : nat) (nst : list nat) (i : Z)
         (return_numpy : bool) (kw : kwargs) (w : world F),
    shape A = no :: nst ->
    (- Z.of_nat no <= i < Z.of_nat no)%Z ->
    update (ModelNumpy (Single A)) (ObsInt i) None return_numpy (Const FPI) kw w =
      (let '(r, w') :=
         run_fpi (Single A) (Single (one_hot_at no i)) [no] nst None kw
           (World (heap w) (trace w ++ [Called "run_fpi"])) in
       (match r with
        | inr qs =>
            ok (if return_numpy
                then PosteriorNumpy qs
                else PosteriorCategorical (to_categorical qs))
        | inl e => inl e
        end, w')).
Proof.
  intros A no nst i return_numpy kw w Hs Hi.
  rewrite update_posterior_states_unfold.
  unfold preprocess, model_dims, shape0. rewrite Hs.
  cbn [rbind ok drop]. rewrite process_observations_int_run.
  rewrite decide_True by done. cbn [rbind ok py_is].
  rewrite bool_decide_eq_true_2 by done.
  unfold bind, emit. cbn [ok].
  destruct (run_fpi _ _ _ _ _ _ _) as [[e|qs] w']; [done|].
  by destruct return_numpy.
Qed.
End FormatProps.

(** ** More on the Dirichlet updates *)

Section SliceFacts.
Context {T : Type}.

Lemma sub_get_sub_set_same (r k : nat) (c v : list T) :
  length v = r -> (k + 1) * r <= length c ->
  sub_get r k (sub_set r k c v) = v.
Proof.
  intros Hv Hc. unfold sub_get, sub_set.
  rewrite drop_app_length' by (rewrite length_take; lia).
  rewrite take_app_length' by done. done.
Qed.

Lemma sub_set_sub_get (r k : nat) (c : list T) :
  (k + 1) * r <= length c ->
  sub_set r k c (sub_get r k c) = c.
Proof.
  intros Hc. unfold sub_get, sub_set.
  rewrite <- (take_drop (k * r) c) at 4.
  f_equal. rewrite <- (take_drop r (drop (k * r) c)) at 2.
  f_equal. rewrite drop_drop. f_equal. lia.
Qed.

(** Reading back the slice that was just assigned. *)
Lemma nd_axis2_get_set (a v : ndarray T) (n0 n1 n2 k : nat) (u : Z) (a' : ndarray T) :
  shape a = [n0; n1; n2] -> nd_wf a -> norm_index n2 u = Some k ->
  shape v = [n0; n1] -> length (data v) = n0 * n1 ->
  nd_axis2_set a u v = ok a' ->
  nd_axis2_get a' u = ok v.
Proof.
  intros Hs Hwf Hk Hsv Hlv Hset. unfold nd_axis2_set in Hset.
  rewrite Hs, Hk in Hset. rewrite decide_True in Hset by done.
  inversion Hset; subst a'. clear Hset.
  unfold nd_axis2_get. cbn [shape data]. rewrite ?Hs. rewrite Hk.
  change (size []) with 1.
  unfold nd_wf in Hwf. rewrite Hs in Hwf. simpl in Hwf.
  pose proof (norm_index_lt _ _ _ Hk) as Hlt.
  set (cs := chunks (n0 * n1) (n2 * 1) (data a)).
  set (vs := chunks (n0 * n1) 1 (data v)).
  assert (Hcs : Forall (fun c => length c = n2) cs).
  { eapply Forall_impl; [apply (chunks_lengths (n0 * n1) (n2 * 1))|].
    - rewrite Hwf. simpl. lia.
    - intros c Hc. simpl in Hc. lia. }
  assert (Hvs : Forall (fun c => length c = 1) vs).
  { apply (chunks_lengths (n0 * n1) 1). lia. }
  assert (Hlen_cs : length cs = n0 * n1) by apply length_chunks.
  assert (Hlen_vs : length vs = n0 * n1) by apply length_chunks.
  assert (Hnew : Forall (fun c => length c = n2 * 1)
                   (zip_with (sub_set 1 k) cs vs)).
  { apply Forall_lookup. intros j c Hj.
    apply lookup_zip_with_Some in Hj as (c0 & v0 & -> & Hc0 & Hv0).
    rewrite Forall_lookup in Hcs, Hvs.
    specialize (Hcs j c0 Hc0). specialize (Hvs j v0 Hv0).
    rewrite length_sub_set; simpl; lia. }
  replace (n0 * n1) with (length (zip_with (sub_set 1 k) cs vs)) at 1
    by (rewrite length_zip_with; lia).
  rewrite chunks_concat by done.
  assert (Hmap : map (sub_get 1 k) (zip_with (sub_set 1 k) cs vs)
                 = vs).
  { apply list_eq_same_length with (n0 * n1).
    - done.
    - rewrite length_map, length_zip_with. lia.
    - intros j x y Hj Hx Hy. rewrite list_lookup_fmap in Hx.
      destruct (zip_with (sub_set 1 k) cs vs !! j) as [c1|] eqn:Hc1;
        [|done].
      apply lookup_zip_with_Some in Hc1 as (c0 & v0 & -> & Hc0 & Hv0).
      rewrite Forall_lookup in Hcs, Hvs.
      specialize (Hcs j c0 Hc0). specialize (Hvs j v0 Hv0).
      simpl in Hx. rewrite sub_get_sub_set_same in Hx by (simpl; lia).
      congruence. }
  rewrite Hmap. subst vs. rewrite concat_chunks by (simpl; lia).
  destruct v as [sv dv]. simpl in *. by subst sv.
Qed.

(** Assigning to a slice what it holds changes nothing. *)
Lemma nd_axis2_set_get (a v : ndarray T) (n0 n1 n2 k : nat) (u : Z) :
  shape a = [n0; n1; n2] -> nd_wf a -> norm_index n2 u = Some k ->
  nd_axis2_get a u = ok v ->
  nd_axis2_set a u v = ok a.
Proof.
  intros Hs Hwf Hk Hget. unfold nd_axis2_get in Hget.
  rewrite Hs, Hk in Hget. inversion Hget; subst v. clear Hget.
  unfold nd_axis2_set. cbn [shape data]. rewrite Hs, Hk.
  rewrite decide_True by done. change (size []) with 1.
  unfold nd_wf in Hwf. rewrite Hs in Hwf. simpl in Hwf.
  pose proof (norm_index_lt _ _ _ Hk) as Hlt.
  set (cs := chunks (n0 * n1) (n2 * 1) (data a)).
  assert (Hcs : Forall (fun c => length c = n2) cs).
  { eapply Forall_impl; [apply (chunks_lengths (n0 * n1) (n2 * 1))|].
    - rewrite Hwf. simpl. lia.
    - intros c Hc. simpl in Hc. lia. }
  assert (Hlen_cs : length cs = n0 * n1) by apply length_chunks.
  assert (Hgets : Forall (fun c => length c = 1)
                    (map (sub_get 1 k) cs)).
  { apply Forall_fmap. eapply Forall_impl; [exact Hcs|].
    intros c Hc. cbv beta in Hc. unfold compose.
    apply length_sub_get. simpl. lia. }
  replace (n0 * n1) with (length (map (sub_get 1 k) cs)) at 1
    by (rewrite length_map; lia).
  rewrite chunks_concat by done.
  assert (Hzip : zip_with (sub_set 1 k) cs (map (sub_get 1 k) cs)
                 = cs).
  { apply list_eq_same_length with (n0 * n1).
    - done.
    - rewrite length_zip_with, length_map. lia.
    - intros j x y Hj Hx Hy.
      apply lookup_zip_with_Some in Hx as (c0 & v0 & -> & Hc0 & Hv0).
      rewrite list_lookup_fmap, Hc0 in Hv0. inversion Hv0; subst v0.
      rewrite Forall_lookup in Hcs. specialize (Hcs j c0 Hc0).
      rewrite sub_set_sub_get by (simpl; lia). congruence. }
  rewrite Hzip. subst cs. rewrite concat_chunks by (simpl; lia).
  destruct a as [sa da]. simpl in *. by subst sa.
Qed.
End SliceFacts.

Section TransValueProps.
Context {F : Type} `{Scalar F}.

(** One pass on the values is [trans_entry] on the tensor of the factor. *)
Lemma trans_step_entry (B : list (ndarray F)) (actions : list Z)
    (qs qs_prev : list (ndarray F)) (lr : F) (vals : list (ndarray F)) (i : Z)
    (k : nat) (b : ndarray F) (u : Z) (q q' v : ndarray F) :
  length B = length vals -> length actions = length vals ->
  length qs = length vals -> length qs_prev = length vals ->
  norm_index (length vals) i = Some k ->
  B !! k = Some b -> actions !! k = Some u -> qs !! k = Some q ->
  qs_prev !! k = Some q' -> vals !! k = Some v ->
  trans_step B actions qs qs_prev lr vals i =
    rbind (trans_entry lr b u q q' v) (fun v' => ok (<[k := v']> vals)).
Proof.
  intros HlB Hla Hlq Hlq' Hi Hb Hu Hq Hq' Hv.
  unfold trans_step, trans_entry.
  rewrite (py_getitem_norm qs i k q) by (by rewrite ?Hlq). cbn [rbind ok].
  rewrite (py_getitem_norm qs_prev i k q') by (by rewrite ?Hlq'). cbn [rbind ok].
  rewrite (py_getitem_norm B i k b) by (by rewrite ?HlB). cbn [rbind ok].
  rewrite (py_getitem_norm actions i k u) by (by rewrite ?Hla). cbn [rbind ok].
  destruct (nd_axis2_get b u) as [e|B_fu]; [done|]. cbn [rbind].
  destruct (nd_imul _ _) as [e|dfdb]; [done|]. cbn [rbind].
  rewrite (py_getitem_norm vals i k v) by done. cbn [rbind ok].
  destruct (nd_axis2_get v u) as [e|view]; [done|]. cbn [rbind].
  destruct (nd_iadd _ _) as [e|view']; [done|]. cbn [rbind].
  destruct (nd_axis2_set v u view') as [e|v']; [done|]. cbn [rbind].
  by rewrite Hi.
Qed.

(** [trans_entry] on tensors and beliefs of the right shapes: the slice of
    the action becomes what it was plus
    [lr * (outer(q, q_prev) * (B[:, :, u] > 0))], and every other slice
    stays. *)
Lemma trans_entry_value (lr : F) (b : ndarray F) (u : Z) (q q' v : ndarray F)
    (n0 n1 n2 ku : nat) :
  shape b = [n0; n1; n2] -> shape v = [n0; n1; n2] ->
  nd_wf b -> nd_wf v -> nd_wf q -> nd_wf q' ->
  shape q = [n0] -> shape q' = [n1] -> norm_index n2 u = Some ku ->
  exists (v' : ndarray F) (dv db : list F),
    trans_entry lr b u q q' v = ok v' /\
    shape v' = shape v /\ nd_wf v' /\
    nd_axis2_get v u = ok (NdArray [n0; n1] dv) /\ length dv = n0 * n1 /\
    nd_axis2_get b u = ok (NdArray [n0; n1] db) /\ length db = n0 * n1 /\
    nd_axis2_get v' u =
      ok (NdArray [n0; n1]
            (zip_with fadd dv
               (map (fmul lr)
                  (zip_with fmul (data (spm_cross q [q']))
                     (map (fun c : bool => if c then fone else fzero)
                        (map fgt0 db)))))) /\
    nd_axis2_set v u
      (NdArray [n0; n1]
         (zip_with fadd dv
            (map (fmul lr)
               (zip_with fmul (data (spm_cross q [q']))
                  (map (fun c : bool => if c then fone else fzero)
                     (map fgt0 db)))))) = ok v' /\
    (forall u' : Z,
       norm_index n2 u' <> Some ku -> nd_axis2_get v' u' = nd_axis2_get v u').
Proof.
  intros Hsb Hsv Hwb Hwv Hwq Hwq' Hsq Hsq' Hku.
  destruct (nd_axis2_get_3d b n0 n1 n2 ku u Hsb Hwb Hku) as (db & Hgetb & Hldb).
  destruct (nd_axis2_get_3d v n0 n1 n2 ku u Hsv Hwv Hku) as (dv & Hgetv & Hldv).
  assert (Hwd : nd_wf (spm_cross q [q'])).
  { apply spm_cross_wf; [done|]. simpl. by rewrite bool_decide_eq_true_2. }
  assert (Hsd : shape (spm_cross q [q']) = [n0; n1]).
  { unfold spm_cross, outer2. simpl. by rewrite Hsq, Hsq'. }
  assert (Hld : length (data (spm_cross q [q'])) = n0 * n1).
  { unfold nd_wf in Hwd. rewrite Hwd, Hsd. simpl. lia. }
  set (new := NdArray [n0; n1]
                (zip_with fadd dv
                   (map (fmul lr)
                      (zip_with fmul (data (spm_cross q [q']))
                         (map (fun c : bool => if c then fone else fzero)
                            (map fgt0 db)))))).
  assert (Hlnew : length (data new) = n0 * n1).
  { subst new. cbn [data].
    rewrite length_zip_with, length_map, length_zip_with, !length_map. lia. }
  destruct (nd_axis2_set_3d v new n0 n1 n2 ku u Hsv Hwv Hku eq_refl Hlnew)
    as (v' & Hset & Hsv' & Hwv' & Hframe).
  exists v', dv, db.
  split.
  { unfold trans_entry. rewrite Hgetb. cbn [rbind ok].
    unfold nd_imul. rewrite nd_izip_same.
    2:{ unfold nd_wf, astype_float, nd_gt0, nd_map. cbn [shape data].
        rewrite !length_map, Hldb. simpl. lia. }
    2:{ by rewrite Hsd. }
    cbn [rbind ok]. rewrite Hgetv. cbn [rbind ok].
    unfold nd_iadd. rewrite nd_izip_same.
    2:{ unfold nd_wf, nd_scale, nd_map. cbn [shape data].
        rewrite Hsd, length_map, length_zip_with.
        unfold astype_float, nd_gt0, nd_map. cbn [data].
        rewrite !length_map, Hldb, Hld. simpl. lia. }
    2:{ by rewrite Hsd. }
    cbn [rbind ok shape data]. exact Hset. }
  split; [done|]. split; [done|]. split; [done|]. split; [done|].
  split; [done|]. split; [done|]. split; [|split; [exact Hset|done]].
  apply (nd_axis2_get_set v new n0 n1 n2 ku u v'); done.
Qed.
End TransValueProps.

Section TransMore.
Context {F : Type} `{Scalar F}.

Lemma holds_of_read (w : world F) (p : loc) (items : list loc)
    (vals : list (ndarray F)) :
  obj_items (heap w) p = Some items -> read_obj (heap w) p = Some vals ->
  holds (heap w) p items vals.
Proof.
  intros Hitems Hread.
  apply read_obj_holds in Hread as [items' [Hp Hvals]].
  apply obj_items_Some in Hitems.
  assert (items' = items) by congruence. by subst items'.
Qed.

(** The slice that [update_state_likelihood_dirichlet] rewrites.  For a
    store in which [pB] is an object array of pairwise distinct tensors,
    arguments of the right shapes and a selection that names no factor
    twice, and as soon as [x * 1 = x] and [x * 0 = 0]: in the returned [qB],
    the slice [[:, :, actions[f]]] of every selected factor is that slice of
    [pB[f]] plus [lr] times the outer product of [qs[f]] and [qs_prev[f]],
    masked to zero wherever the slice of [B[f]] is not positive. *)
Theorem update_state_likelihood_dirichlet_slice :
  forall (pB : loc) (B : list (ndarray F)) (actions : list Z)
         (qs qs_prev : list (ndarray F)) (lr : F) (factors : option (list Z))
         (w : world F) (items : list loc) (pBv : list (ndarray F))
         (sel : list nat),
    (forall x : F, fmul x fone = x) ->
    (forall x : F, fmul x fzero = fzero) ->
    obj_items (heap w) pB = Some items ->
    NoDup items ->
    read_obj (heap w) pB = Some pBv ->
    trans_args_ok pBv B actions qs qs_prev = true ->
    selection (length pBv) factors = Some sel ->
    NoDup sel ->
    exists (qB : loc) (w' : world F) (qBv : list (ndarray F)),
      update_state_likelihood_dirichlet pB B actions qs qs_prev lr factors w
        = (ok qB, w') /\
      read_obj (heap w') qB = Some qBv /\
      length qBv = length pBv /\
      forall (f : nat) (p b : ndarray F) (u : Z) (q q' : ndarray F),
        f ∈ sel ->
        pBv !! f = Some p -> B !! f = Some b -> actions !! f = Some u ->
        qs !! f = Some q -> qs_prev !! f = Some q' ->
        exists v pv bv : ndarray F,
          qBv !! f = Some v /\
          nd_axis2_get p u = ok pv /\
          nd_axis2_get b u = ok bv /\
          nd_axis2_get v u = ok (obs_rule lr pv bv (spm_cross q [q'])).
Proof.
  intros pB B actions qs qs_prev lr factors w items pBv sel Hone Hzero Hitems
    Hnd Hread Hok Hsel Hnds.
  destruct (trans_args_ok_inv _ _ _ _ _ Hok) as (HlB & Hla & Hlq & Hlq' & Hall).
  pose proof (holds_of_read w pB items pBv Hitems Hread) as Hholds.
  set (g := fun (k : nat) (v0 : ndarray F) =>
              match B !! k, actions !! k, qs !! k, qs_prev !! k with
              | Some b, Some u, Some q, Some q' =>
                  match trans_entry lr b u q q' v0 with
                  | inr v' => v'
                  | inl _ => v0
                  end
              | _, _, _, _ => v0
              end).
  destruct (rfold_update (length pBv) (trans_step B actions qs qs_prev lr)
              pBv eq_refl g)
    with (sel := default (py_range (length pBv)) factors) (ks := sel)
    as (vals' & Hfold & Hlen' & Hres); try done.
  { intros vals i k p Hlen Hi Hp Hv.
    pose proof (norm_index_lt _ _ _ Hi) as Hk.
    destruct (lookup_lt_is_Some_2 B k) as [b Hb]; [lia|].
    destruct (lookup_lt_is_Some_2 actions k) as [u Hu]; [lia|].
    destruct (lookup_lt_is_Some_2 qs k) as [q Hq]; [lia|].
    destruct (lookup_lt_is_Some_2 qs_prev k) as [q' Hq']; [lia|].
    destruct (Hall k p b u q q' Hp Hb Hu Hq Hq')
      as (Hwp & Hwb & Hwq & Hwq' & Hsb & n0 & n1 & n2 & Hsp & Hsq & Hsq' & [ku Hku]).
    rewrite (trans_step_entry B actions qs qs_prev lr vals i k b u q q' p);
      try done; try lia.
    2:{ by rewrite Hlen. }
    destruct (trans_entry_value lr b u q q' p n0 n1 n2 ku)
      as (v' & dv & db & Hentry & _); try done.
    { by rewrite Hsb. }
    subst g. cbv beta. rewrite Hb, Hu, Hq, Hq', Hentry. done. }
  destruct (update_trans_run pB B actions qs qs_prev lr factors w items pBv
              vals' Hholds Hnd Hfold)
    as (qB & w' & Hrun & Hread' & Hext & Hfresh).
  exists qB, w', vals'. split; [done|]. split; [done|]. split; [done|].
  intros f p b u q q' Hin Hp Hb Hu Hq Hq'.
  destruct (Hall f p b u q q' Hp Hb Hu Hq Hq')
    as (Hwp & Hwb & Hwq & Hwq' & Hsb & n0 & n1 & n2 & Hsp & Hsq & Hsq' & [ku Hku]).
  destruct (trans_entry_value lr b u q q' p n0 n1 n2 ku)
    as (v' & dv & db & Hentry & _ & _ & Hgetp & Hldv & Hgetb & Hldb & Hslice
        & _); try done.
  { by rewrite Hsb. }
  exists v', (NdArray [n0; n1] dv), (NdArray [n0; n1] db).
  split.
  { rewrite (Hres f p Hp). rewrite bool_decide_eq_true_2 by done.
    subst g. cbv beta. by rewrite Hb, Hu, Hq, Hq', Hentry. }
  split; [done|]. split; [done|].
  rewrite Hslice. unfold obs_rule. cbn [shape data].
  by rewrite masked_data.
Qed.

(** A learning rate of zero in [update_state_likelihood_dirichlet].  For a
    store in which [pB] is an object array of pairwise distinct tensors,
    arguments of the right shapes and any selection of existing factors, and
    as soon as [0 * x = 0] and [x + 0 = x]: the call returns an object array
    whose tensors are those of [pB], entry for entry. *)
Theorem update_state_likelihood_dirichlet_lr_zero :
  forall (pB : loc) (B : list (ndarray F)) (actions : list Z)
         (qs qs_prev : list (ndarray F)) (factors : option (list Z))
         (w : world F) (items : list loc) (pBv : list (ndarray F))
         (sel : list nat),
    (forall x : F, fmul fzero x = fzero) ->
    (forall x : F, fadd x fzero = x) ->
    obj_items (heap w) pB = Some items ->
    NoDup items ->
    read_obj (heap w) pB = Some pBv ->
    trans_args_ok pBv B actions qs qs_prev = true ->
    selection (length pBv) factors = Some sel ->
    exists (qB : loc) (w' : world F),
      update_state_likelihood_dirichlet pB B actions qs qs_prev fzero factors w
        = (ok qB, w') /\
      read_obj (heap w') qB = Some pBv.
Proof.
  intros pB B actions qs qs_prev factors w items pBv sel Hmul Hadd Hitems Hnd
    Hread Hok Hsel.
  destruct (trans_args_ok_inv _ _ _ _ _ Hok) as (HlB & Hla & Hlq & Hlq' & Hall).
  pose proof (holds_of_read w pB items pBv Hitems Hread) as Hholds.
  destruct (rfold_preserve (length pBv) (trans_step B actions qs qs_prev fzero)
              pBv eq_refl (fun _ v0 v => v = v0))
    with (sel := default (py_range (length pBv)) factors) (ks := sel)
    as (vals' & Hfold & Hlen' & Hres); try done.
  { intros vals i k p v Hlen Hi Hp Hv ->.
    pose proof (norm_index_lt _ _ _ Hi) as Hk.
    destruct (lookup_lt_is_Some_2 B k) as [b Hb]; [lia|].
    destruct (lookup_lt_is_Some_2 actions k) as [u Hu]; [lia|].
    destruct (lookup_lt_is_Some_2 qs k) as [q Hq]; [lia|].
    destruct (lookup_lt_is_Some_2 qs_prev k) as [q' Hq']; [lia|].
    destruct (Hall k p b u q q' Hp Hb Hu Hq Hq')
      as (Hwp & Hwb & Hwq & Hwq' & Hsb & n0 & n1 & n2 & Hsp & Hsq & Hsq' & [ku Hku]).
    exists p. split; [|done].
    rewrite (trans_step_entry B actions qs qs_prev fzero vals i k b u q q' p);
      try done; try lia.
    2:{ by rewrite Hlen. }
    destruct (trans_entry_value fzero b u q q' p n0 n1 n2 ku)
      as (v' & dv & db & Hentry & Hsv' & Hwv' & Hgetp & Hldv & Hgetb & Hldb
          & Hslice & Hset & Hframe); try done.
    { by rewrite Hsb. }
    rewrite Hentry. cbn [rbind ok]. do 2 f_equal.
    rewrite zero_rate_data in Hset; try done.
    2:{ rewrite length_zip_with, !length_map, Hldv, Hldb.
        assert (Hwd : nd_wf (spm_cross q [q'])).
        { apply spm_cross_wf; [done|]. simpl.
          by rewrite bool_decide_eq_true_2. }
        unfold nd_wf in Hwd. rewrite Hwd. unfold spm_cross, outer2. simpl.
        rewrite Hsq, Hsq'. simpl. lia. }
    rewrite (nd_axis2_set_get p _ n0 n1 n2 ku u Hsp Hwp Hku Hgetp) in Hset.
    by inversion Hset. }
  assert (vals' = pBv).
  { apply list_eq_same_length with (length pBv); try done.
    intros k x y Hk Hx Hy. destruct (Hres k y Hy) as (v & Hv & -> & _).
    congruence. }
  subst vals'.
  destruct (update_trans_run pB B actions qs qs_prev fzero factors w items pBv
              pBv Hholds Hnd Hfold)
    as (qB & w' & Hrun & Hread' & _).
  by exists qB, w'.
Qed.
End TransMore.

Section PriorMore.
Context {F : Type} `{Scalar F}.

Lemma zero_rate_masked (m : list bool) (dv dq : list F) :
  (forall x : F, fmul fzero x = fzero) ->
  (forall x : F, fadd x fzero = x) ->
  length dv <= length dq -> length dv <= length m ->
  zip_with (fun '(b, x) y => if b : bool then fadd x (fmul fzero y) else x)
    (zip m dv) dq = dv.
Proof.
  intros Hmul Hadd. revert m dq.
  induction dv as [|x dv IH]; intros m dq Hq Hm.
  - by destruct m.
  - destruct m as [|b m]; destruct dq as [|y dq]; simpl in *; try lia.
    rewrite IH by lia. destruct b; by rewrite ?Hmul, ?Hadd.
Qed.

(** The loop of [update_state_prior_dirichlet] on the values, for arguments
    of the right shapes, cannot fail, and keeps the shape of every vector. *)
Lemma prior_fold_ok (pDv qs : list (ndarray F)) (lr : F) (sel : list Z)
    (ks : list nat) :
  prior_args_ok pDv qs = true ->
  mapM (norm_index (length pDv)) sel = Some ks ->
  exists vals' : list (ndarray F),
    rfold (prior_step pDv qs lr) sel pDv = ok vals' /\
    length vals' = length pDv.
Proof.
  intros Hok Hsel.
  destruct (prior_args_ok_inv _ _ Hok) as (Hlenq & Hall).
  destruct (rfold_preserve (length pDv) (prior_step pDv qs lr) pDv eq_refl
              (fun (_ : nat) (p v : ndarray F) =>
                 shape v = shape p /\ length (data v) = length (data p)))
    with (sel := sel) (ks := ks) as (vals' & Hfold & Hlen' & _); try done.
  - intros vals i k p v Hlen Hi Hp Hv (Hsv & Hlv).
    destruct (lookup_lt_is_Some_2 qs k) as [q Hq].
    { rewrite Hlenq. by eapply lookup_lt_Some. }
    destruct (Hall k p q Hp Hq) as (Hwp & Hwq & Hsq).
    assert (Hlq : length (data q) = length (data p)).
    { unfold nd_wf in Hwp, Hwq. by rewrite Hwp, Hwq, Hsq. }
    eexists. split.
    { exact (prior_step_value pDv qs lr vals i k p q v Hok Hlen Hi Hp Hq Hv
               Hsv Hlv). }
    cbn [shape data]. split; [done|].
    rewrite length_zip_with, length_zip_with, length_map. lia.
  - by exists vals'.
Qed.

(** The whole call, given the outcome of the loop on the values: the
    references of the result besides its values. *)
Lemma update_prior_run_items (pD : loc) (qs : list (ndarray F)) (lr : F)
    (factors : option (list Z)) (w : world F) (items : list loc)
    (pDv vals' : list (ndarray F)) :
  holds (heap w) pD items pDv -> NoDup items ->
  rfold (prior_step pDv qs lr) (default (py_range (length pDv)) factors) pDv
    = ok vals' ->
  exists (qD : loc) (items' : list loc) (w' : world F),
    update_state_prior_dirichlet pD qs lr factors w = (ok qD, w') /\
    holds (heap w') qD items' vals' /\
    extends w w' /\
    heap w !! qD = None /\
    Forall (fun l' => heap w !! l' = None) items' /\
    NoDup items' /\ length items' = length items.
Proof.
  intros Hholds Hnd Hfold.
  pose proof (holds_length _ _ _ _ Hholds) as Hlen.
  unfold update_state_prior_dirichlet.
  assert (Hload : load_obj pD w = (ok items, w)).
  { unfold load_obj. destruct Hholds as [Hp _]. by rewrite Hp. }
  rewrite (bind_eq _ _ _ _ _ Hload). cbn [ok].
  destruct (deepcopy_spec w pD items pDv Hholds)
    as (q & items' & w1 & Hcopy & Hholds1 & Hext1 & Hq & Hfresh & Hnd').
  rewrite (bind_eq _ _ _ _ _ Hcopy). cbn [ok]. rewrite Hlen.
  destruct (for_each_refines (update_prior_body pD qs lr q)
              (prior_step pDv qs lr)
              (fun w' vals => extends w w' /\ holds (heap w') q items' vals)
              (fun w' vals i vals'0 =>
                 update_prior_body_refines pD items pDv qs lr w q items' w' vals
                   i vals'0 Hholds Hfresh (Hnd' Hnd))
              _ w1 pDv vals' (conj Hext1 Hholds1) Hfold)
    as (w2 & Hloop & Hext2 & Hholds2).
  rewrite (bind_eq _ _ _ _ _ Hloop). cbn [ok]. unfold ret.
  exists q, items', w2. split; [done|]. split; [done|]. split; [done|].
  split; [done|]. split; [done|]. split; [by apply Hnd'|].
  rewrite (holds_length _ _ _ _ Hholds1). done.
Qed.

(** A learning rate of zero in [update_state_prior_dirichlet].  For a store
    in which [pD] is an object array of pairwise distinct vectors, beliefs of
    the shapes of these vectors and any selection of existing factors, and as
    soon as [0 * x = 0] and [x + 0 = x]: the call returns an object array
    whose vectors are those of [pD], entry for entry. *)
Theorem update_state_prior_dirichlet_lr_zero :
  forall (pD : loc) (qs : list (ndarray F)) (factors : option (list Z))
         (w : world F) (items : list loc) (pDv : list (ndarray F))
         (sel : list nat),
    (forall x : F, fmul fzero x = fzero) ->
    (forall x : F, fadd x fzero = x) ->
    obj_items (heap w) pD = Some items ->
    NoDup items ->
    read_obj (heap w) pD = Some pDv ->
    prior_args_ok pDv qs = true ->
    selection (length pDv) factors = Some sel ->
    exists (qD : loc) (w' : world F),
      update_state_prior_dirichlet pD qs fzero factors w = (ok qD, w') /\
      read_obj (heap w') qD = Some pDv.
Proof.
  intros pD qs factors w items pDv sel Hmul Hadd Hitems Hnd Hread Hok Hsel.
  destruct (prior_args_ok_inv _ _ Hok) as (Hlenq & Hall).
  pose proof (holds_of_read w pD items pDv Hitems Hread) as Hholds.
  destruct (rfold_preserve (length pDv) (prior_step pDv qs fzero) pDv eq_refl
              (fun _ v0 v => v = v0))
    with (sel := default (py_range (length pDv)) factors) (ks := sel)
    as (vals' & Hfold & Hlen' & Hres); try done.
  { intros vals i k p v Hlen Hi Hp Hv ->.
    destruct (lookup_lt_is_Some_2 qs k) as [q Hq].
    { rewrite Hlenq. by eapply lookup_lt_Some. }
    destruct (Hall k p q Hp Hq) as (Hwp & Hwq & Hsq).
    assert (Hlq : length (data q) = length (data p)).
    { unfold nd_wf in Hwp, Hwq. by rewrite Hwp, Hwq, Hsq. }
    exists p. split; [|done].
    rewrite (prior_step_value pDv qs fzero vals i k p q p); try done.
    rewrite zero_rate_masked; try done; rewrite ?length_map; try lia.
    by destruct p. }
  assert (vals' = pDv).
  { apply list_eq_same_length with (length pDv); try done.
    intros k x y Hk Hx Hy. destruct (Hres k y Hy) as (v & Hv & -> & _).
    congruence. }
  subst vals'.
  destruct (update_prior_run pD qs fzero factors w items pDv pDv Hholds Hnd Hfold)
    as (qD & w' & Hrun & Hread' & _).
  by exists qD, w'.
Qed.

(** What [update_state_prior_dirichlet] returns is a deep copy.  For a
    store in which [pD] is an object array of pairwise distinct vectors,
    beliefs of the shapes of these vectors and any selection of existing
    factors: the object array returned and every vector in it are objects
    that did not exist before the call, one per factor and pairwise
    distinct; the result shares nothing with [pD]. *)
Theorem update_state_prior_dirichlet_fresh :
  forall (pD : loc) (qs : list (ndarray F)) (lr : F) (factors : option (list Z))
         (w : world F) (items : list loc) (pDv : list (ndarray F))
         (sel : list nat),
    obj_items (heap w) pD = Some items ->
    NoDup items ->
    read_obj (heap w) pD = Some pDv ->
    prior_args_ok pDv qs = true ->
    selection (length pDv) factors = Some sel ->
    exists (qD : loc) (w' : world F) (items' : list loc),
      update_state_prior_dirichlet pD qs lr factors w = (ok qD, w') /\
      obj_items (heap w') qD = Some items' /\
      length items' = length items /\
      NoDup items' /\
      heap w !! qD = None /\
      Forall (fun l' : loc => heap w !! l' = None /\ (l' ∉ items) /\ l' <> pD)
        items'.
Proof.
  intros pD qs lr factors w items pDv sel Hitems Hnd Hread Hok Hsel.
  pose proof (holds_of_read w pD items pDv Hitems Hread) as Hholds.
  destruct (prior_fold_ok pDv qs lr _ sel Hok Hsel) as (vals' & Hfold & _).
  destruct (update_prior_run_items pD qs lr factors w items pDv vals' Hholds
              Hnd Hfold)
    as (qD & items' & w' & Hrun & Hholds' & _ & HqD & Hfresh & Hnd' & Hlen).
  exists qD, w', items'. split; [done|].
  split; [apply obj_items_Some; by destruct Hholds'|].
  split; [done|]. split; [done|]. split; [done|].
  eapply Forall_impl; [exact Hfresh|]. intros l' Hl'. cbv beta in Hl'.
  split; [done|]. destruct Hholds as [HpD Hall]. split.
  - intros Hin. apply list_elem_of_lookup in Hin as [j Hj].
    destruct (Forall2_lookup_l _ _ _ _ _ Hall Hj) as (v & _ & Hv). congruence.
  - intros ->. congruence.
Qed.
Lemma mapM_None_split {A B : Type} (f : A -> option B) (l : list A) :
  mapM f l = None ->
  exists (good : list A) (bad : A) (rest : list A) (ks : list B),
    l = good ++ bad :: rest /\ mapM f good = Some ks /\ f bad = None.
Proof.
  induction l as [|x l IH]; intros Hnone; [done|].
  cbn [mapM] in Hnone.
  destruct (f x) as [y|] eqn:Hx.
  - destruct (mapM f l) as [ys|] eqn:Hl; [done|].
    destruct (IH eq_refl) as (good & bad & rest & ks & -> & Hgood & Hbad).
    exists (x :: good), bad, rest, (y :: ks). split; [done|]. split; [|done].
    cbn [mapM]. by rewrite Hx, Hgood.
  - exists [], x, l, []. done.
Qed.

Lemma for_each_app {A : Type} (xs ys : list A) (body : A -> py F unit)
    (w : world F) :
  for_each (xs ++ ys) body w
    = bind (for_each xs body) (fun _ => for_each ys body) w.
Proof.
  revert w. induction xs as [|x xs IH]; intros w; [done|].
  cbn [app for_each]. unfold bind.
  destruct (body x w) as [[e|[]] w1]; [done|]. rewrite IH. done.
Qed.

(** A factor that does not exist.  For a store in which [pD] is an object
    array of pairwise distinct vectors and beliefs of the shapes of these
    vectors: when the list [factors] holds an index outside [[-n, n)], the
    call raises [IndexError]; the factors named before it have been updated,
    but in the copy: every object that existed before the call, [pD] and its
    vectors among them, is as it was. *)
Theorem update_state_prior_dirichlet_bad_factor :
  forall (pD : loc) (qs : list (ndarray F)) (lr : F) (factors : list Z)
         (w : world F) (items : list loc) (pDv : list (ndarray F)),
    obj_items (heap w) pD = Some items ->
    NoDup items ->
    read_obj (heap w) pD = Some pDv ->
    prior_args_ok pDv qs = true ->
    selection (length pDv) (Some factors) = None ->
    exists (msg : string) (w' : world F),
      update_state_prior_dirichlet pD qs lr (Some factors) w
        = (inl (IndexError msg), w') /\
      (forall l : loc, is_Some (heap w !! l) -> heap w' !! l = heap w !! l) /\
      read_obj (heap w') pD = Some pDv /\
      trace w' = trace w.
Proof.
  intros pD qs lr factors w items pDv Hitems Hnd Hread Hok Hsel.
  pose proof (holds_of_read w pD items pDv Hitems Hread) as Hholds.
  pose proof (holds_length _ _ _ _ Hholds) as Hlen.
  change (mapM (norm_index (length pDv)) factors = None) in Hsel.
  destruct (mapM_None_split _ _ Hsel) as (good & bad & rest & ks & -> & Hgood & Hbad).
  destruct (prior_fold_ok pDv qs lr good ks Hok Hgood) as (vals1 & Hfold & _).
  unfold update_state_prior_dirichlet.
  assert (Hload : load_obj pD w = (ok items, w)).
  { unfold load_obj. destruct Hholds as [Hp _]. by rewrite Hp. }
  rewrite (bind_eq _ _ _ _ _ Hload). cbn [ok].
  destruct (deepcopy_spec w pD items pDv Hholds)
    as (q & items' & w1 & Hcopy & Hholds1 & Hext1 & Hq & Hfresh & Hnd').
  rewrite (bind_eq _ _ _ _ _ Hcopy). cbn [ok].
  change (default (py_range (length items)) (Some (good ++ bad :: rest)))
    with (good ++ bad :: rest).
  destruct (for_each_refines (update_prior_body pD qs lr q)
              (prior_step pDv qs lr)
              (fun w' vals => extends w w' /\ holds (heap w') q items' vals)
              (fun w' vals i vals'0 =>
                 update_prior_body_refines pD items pDv qs lr w q items' w' vals
                   i vals'0 Hholds Hfresh (Hnd' Hnd))
              good w1 pDv vals1 (conj Hext1 Hholds1) Hfold)
    as (w2 & Hloop & Hext2 & Hholds2).
  pose proof (holds_extends _ _ _ _ _ Hholds Hext2) as [HpD2 _].
  exists "index out of range", w2.
  split.
  { unfold bind at 1. rewrite for_each_app.
    rewrite (bind_eq _ _ _ _ _ Hloop). cbn [ok for_each].
    unfold bind at 1. unfold update_prior_body at 1.
    unfold bind at 1. unfold obj_getitem at 1. unfold bind at 1.
    unfold obj_getref at 1. unfold bind at 1. unfold load_obj at 1.
    rewrite HpD2. cbn [ok]. unfold lift at 1, py_getitem.
    by rewrite Hlen, Hbad. }
  destruct Hext2 as [Hframe Htrace].
  split; [done|]. split; [|done].
  by apply (read_obj_extends w w2 pD pDv Hread).
Qed.
End PriorMore.

(** ** A modality that is named more than once *)

Section FoldCount.
Context {V : Type}.
Variable n : nat.
Variable step : list V -> Z -> result (list V).

(** Every pass replaces the current entry [v] at [k] by [g k v]: the loop
    applies [g k] to the entry at [k] once for every occurrence of [k] in the
    selection. *)
Lemma rfold_iter (g : nat -> V -> V) (Inv : nat -> V -> Prop) :
  (forall (k : nat) (v : V), Inv k v -> Inv k (g k v)) ->
  (forall (vals : list V) (i : Z) (k : nat) (v : V),
     length vals = n -> norm_index n i = Some k -> vals !! k = Some v ->
     Inv k v -> step vals i = ok (<[k := g k v]> vals)) ->
  forall (sel : list Z) (ks : list nat) (vals : list V),
    mapM (norm_index n) sel = Some ks ->
    length vals = n ->
    (forall (k : nat) (v : V), vals !! k = Some v -> Inv k v) ->
    exists vals' : list V,
      rfold step sel vals = ok vals' /\ length vals' = n /\
      forall (k : nat) (v : V), vals !! k = Some v ->
        vals' !! k = Some (Nat.iter (count_occ Nat.eq_dec ks k) (g k) v).
Proof.
  intros Hinv Hstep sel.
  induction sel as [|i sel IH]; intros ks vals Hsel Hlen HI.
  - inversion Hsel; subst ks. exists vals. done.
  - cbn [mapM] in Hsel.
    destruct (norm_index n i) as [k0|] eqn:Hi; [|done].
    destruct (mapM (norm_index n) sel) as [ks'|] eqn:Hsel'; [|done].
    inversion Hsel; subst ks. clear Hsel.
    pose proof (norm_index_lt _ _ _ Hi) as Hk0.
    destruct (lookup_lt_is_Some_2 vals k0) as [v0 Hv0]; [lia|].
    pose proof (Hstep vals i k0 v0 Hlen Hi Hv0 (HI k0 v0 Hv0)) as Hrun.
    destruct (IH ks' (<[k0 := g k0 v0]> vals) eq_refl)
      as (vals' & Hfold & Hlen' & Hres).
    { by rewrite length_insert. }
    { intros k v Hv. destruct (decide (k = k0)) as [->|Hne].
      - rewrite list_lookup_insert_eq in Hv by lia.
        inversion Hv; subst v. apply Hinv. by apply HI.
      - rewrite list_lookup_insert_ne in Hv by done. by apply HI. }
    exists vals'. cbn [rfold]. rewrite Hrun. cbn [rbind ok].
    split; [done|]. split; [done|].
    intros k v Hv. destruct (decide (k = k0)) as [->|Hne].
    + assert (v = v0) by congruence. subst v.
      rewrite count_occ_cons_eq by done. rewrite Nat.iter_succ_r.
      apply Hres. apply list_lookup_insert_eq. lia.
    + rewrite count_occ_cons_neq by done.
      apply Hres. by rewrite list_lookup_insert_ne.
Qed.
End FoldCount.

Section ObsMore.
Context {F : Type} `{Scalar F}.
Variable observation : Type.
Variable process_observation :
  observation -> nat -> list nat -> result (list (ndarray F)).

Local Abbreviation update_obs :=
  (update_obs_likelihood_dirichlet observation process_observation).

(** Repetitions in [modalities].  For a store in which [pA] is an object
    array of tensors, an observation that [process_observation] accepts,
    arguments of the right shapes and any selection of existing modalities,
    and as soon as [x * 1 = x] and [x * 0 = 0]: [qA[m]] is [pA[m]] with the
    masked increment [lr * delta] added once for every time [m] occurs in
    the selection (not at all for a modality that is not named). *)
Theorem update_obs_likelihood_dirichlet_repeated :
  forall (pA : loc) (A : list (ndarray F)) (obs : observation)
         (qs : list (ndarray F)) (lr : F) (modalities : option (list Z))
         (w : world F) (pAv obsv : list (ndarray F)) (sel : list nat),
    (forall x : F, fmul x fone = x) ->
    (forall x : F, fmul x fzero = fzero) ->
    read_obj (heap w) pA = Some pAv ->
    process_observation obs (length pAv)
      (map (fun a : ndarray F => hd 0 (shape a)) pAv) = ok obsv ->
    obs_args_ok pAv A obsv qs = true ->
    selection (length pAv) modalities = Some sel ->
    exists (qA : loc) (w' : world F) (qAv : list (ndarray F)),
      update_obs pA A obs qs lr modalities w = (ok qA, w') /\
      read_obj (heap w') qA = Some qAv /\
      length qAv = length pAv /\
      forall (m : nat) (p a o : ndarray F),
        pAv !! m = Some p -> A !! m = Some a -> obsv !! m = Some o ->
        qAv !! m =
          Some (Nat.iter (count_occ Nat.eq_dec sel m)
                  (fun v => obs_rule lr v a (spm_cross o qs)) p).
Proof.
  intros pA A obs qs lr modalities w pAv obsv sel Hone Hzero Hread Hobs Hok Hsel.
  destruct (obs_args_ok_inv _ _ _ _ Hok) as (HlenA & Hlenobs & Hqs & Hall).
  set (g := fun (k : nat) (v : ndarray F) =>
              match A !! k, obsv !! k with
              | Some a, Some o => obs_rule lr v a (spm_cross o qs)
              | _, _ => v
              end).
  set (Inv := fun (k : nat) (v : ndarray F) =>
                exists p, pAv !! k = Some p /\ shape v = shape p /\ nd_wf v).
  destruct (rfold_iter (length pAv) (obs_step A obsv qs lr) g Inv)
    with (sel := default (py_range (length pAv)) modalities) (ks := sel)
         (vals := pAv)
    as (vals' & Hfold & Hlen' & Hres); try done.
  { intros k v (p & Hp & Hsv & Hwv).
    exists p. split; [done|].
    destruct (lookup_lt_is_Some_2 A k) as [a Ha].
    { rewrite HlenA. by eapply lookup_lt_Some. }
    destruct (lookup_lt_is_Some_2 obsv k) as [o Ho].
    { rewrite Hlenobs. by eapply lookup_lt_Some. }
    destruct (Hall k p a o Hp Ha Ho) as (Hwp & Hwa & Hwo & Hsa & Hsd & Hne).
    subst g. cbv beta. rewrite Ha, Ho. unfold obs_rule. cbn [shape].
    split; [done|]. unfold nd_wf. cbn [shape data].
    rewrite length_zip_with, length_zip_with.
    pose proof (spm_cross_wf o qs Hwo Hqs) as Hwd.
    unfold nd_wf in Hwv, Hwd, Hwa. rewrite Hwv, Hwd, Hwa, Hsa, Hsd, Hsv. lia. }
  { intros vals i k v Hlen Hi Hv (p & Hp & Hsv & Hwv).
    destruct (lookup_lt_is_Some_2 A k) as [a Ha].
    { rewrite HlenA. by eapply lookup_lt_Some. }
    destruct (lookup_lt_is_Some_2 obsv k) as [o Ho].
    { rewrite Hlenobs. by eapply lookup_lt_Some. }
    rewrite (obs_step_value pAv A obsv qs lr vals i k p v a o); try done.
    subst g. cbv beta. rewrite Ha, Ho. unfold obs_rule.
    by rewrite masked_data, Hsv. }
  { intros k v Hv. exists v. split; [done|]. split; [done|].
    destruct (lookup_lt_is_Some_2 A k) as [a Ha].
    { rewrite HlenA. by eapply lookup_lt_Some. }
    destruct (lookup_lt_is_Some_2 obsv k) as [o Ho].
    { rewrite Hlenobs. by eapply lookup_lt_Some. }
    by destruct (Hall k v a o Hv Ha Ho) as (Hwp & _). }
  destruct (update_obs_run observation process_observation pA A obs qs lr
              modalities w pAv obsv vals' Hread
              (obs_args_shapes _ _ _ _ Hok) Hobs Hfold)
    as (qA & w' & Hrun & Hread' & _).
  exists qA, w', vals'. split; [done|]. split; [done|]. split; [done|].
  intros m p a o Hp Ha Ho. rewrite (Hres m p Hp).
  f_equal. subst g. cbv beta. by rewrite Ha, Ho.
Qed.
End ObsMore.

(** ** Model reduction of object arrays *)

Lemma ix_norm_in_range (idxs : list (list Z)) :
  forall sh : list nat,
    Forall2 (fun idx n => Forall (fun i => (0 <= i < Z.of_nat n)%Z) idx)
      idxs (take (length idxs) sh) ->
    ix_norm sh idxs = ok (map (map Z.to_nat) idxs).
Proof.
  induction idxs as [|idx idxs IH]; intros sh Hall; [by destruct sh|].
  destruct sh as [|n sh]; [by inversion Hall|].
  simpl in Hall. apply Forall2_cons in Hall as [Hidx Hall].
  cbn [ix_norm map].
  assert (Hnorm : mapM (norm_index n) idx = Some (map Z.to_nat idx)).
  { clear -Hidx. induction Hidx as [|i l Hi _ IH]; [done|].
    cbn [mapM]. rewrite IH. unfold norm_index at 1.
    by rewrite decide_True by done. }
  rewrite Hnorm. by rewrite (IH sh Hall).
Qed.

(** Open-mesh indexing with levels that exist: one axis of the result for
    every list of levels, as long as that list, and the remaining axes as
    they were; the result is well formed when the array is. *)
Lemma nd_ix_in_range {T : Type} (a : ndarray T) (idxs : list (list Z)) :
  Forall2 (fun idx n => Forall (fun i => (0 <= i < Z.of_nat n)%Z) idx)
    idxs (take (length idxs) (shape a)) ->
  exists b : ndarray T,
    nd_ix a idxs = ok b /\
    shape b = map length idxs ++ drop (length idxs) (shape a) /\
    (nd_wf a -> nd_wf b).
Proof.
  intros Hall. unfold nd_ix. rewrite (ix_norm_in_range idxs (shape a) Hall).
  cbn [rbind ok]. eexists. split; [reflexivity|].
  rewrite length_map.
  assert (Hlen : map length (map (map Z.to_nat) idxs) = map length idxs).
  { rewrite <- list_fmap_compose. apply list_fmap_ext.
    intros i x _. simpl. by rewrite length_map. }
  split; [by cbn [shape]; rewrite Hlen|].
  intros Hwf. unfold nd_wf. cbn [shape data].
  rewrite ix_data_length.
  - by rewrite length_map.
  - exact Hwf.
  - rewrite length_map. clear -Hall.
    revert Hall. generalize (take (length idxs) (shape a)).
    induction idxs as [|idx idxs IH]; intros l Hall.
    + inversion Hall. constructor.
    + inversion Hall as [|? n ? l' Hidx Hrest]; subst.
      cbn [map]. constructor; [|by apply IH].
      apply Forall_fmap. eapply Forall_impl; [exact Hidx|].
      intros i Hi. simpl in *. lia.
Qed.

Lemma requested_getitem (levels : list pyitem) (f : nat) :
  forallb is_list levels = true -> f < length levels ->
  rbind (py_getitem levels (Z.of_nat f)) set_of_item = ok (requested levels f).
Proof.
  intros Hlist Hf. rewrite py_getitem_nat. unfold requested.
  destruct (lookup_lt_is_Some_2 levels f Hf) as [item Hitem].
  rewrite Hitem. cbn [rbind ok].
  rewrite forallb_forall in Hlist.
  specialize (Hlist item). destruct item as [i|l]; [|done].
  discriminate Hlist. apply list_elem_of_In. by eapply list_elem_of_lookup_2.
Qed.

(** The levels kept on every axis of a list of dimensions, as the
    comprehension over [enumerate(dims)] computes them. *)
Lemma levels_kept_list (levels : list pyitem) (ds : list nat) :
  forallb is_list levels = true -> length ds <= length levels ->
  rmap (fun '(f, n) =>
          rbind (py_getitem levels (Z.of_nat f)) (fun item =>
          rbind (set_of_item item) (fun remove =>
          ok (levels_kept n remove))))
       (enumerate ds)
    = ok (map (fun '(f, n) => levels_kept n (requested levels f)) (enumerate ds)).
Proof.
  intros Hlist Hlen. apply rmap_fmap. apply Forall_forall.
  intros [f n] Hin. apply list_elem_of_lookup in Hin as [i Hi].
  unfold enumerate in Hi. apply lookup_zip_with_Some in Hi
    as (f' & n' & Heq & Hf & Hn). inversion Heq; subst f' n'.
  apply lookup_seq in Hf as [-> Hlt]. simpl in Hlt. rewrite Nat.add_0_l.
  pose proof (requested_getitem levels i Hlist ltac:(lia)) as Hreq.
  cbv beta iota.
  destruct (py_getitem levels (Z.of_nat i)) as [e|item]; [done|].
  cbn [rbind] in Hreq |- *. by rewrite Hreq.
Qed.

Lemma enumerate_lookup {A : Type} (l : list A) (i : nat) (x : A) :
  l !! i = Some x -> enumerate l !! i = Some (i, x).
Proof.
  intros Hx. unfold enumerate. apply lookup_zip_with_Some.
  exists i, x. split; [done|]. split; [|done].
  apply lookup_seq. split; [done|]. by eapply lookup_lt_Some.
Qed.

Lemma insert_first_None {A : Type} (done : list A) (a : A) (n : nat) :
  <[length done := Some a]> (map Some done ++ replicate (S n) None)
    = map Some (done ++ [a]) ++ replicate n None.
Proof.
  rewrite insert_app_r_alt by (rewrite length_map; lia).
  rewrite length_map, Nat.sub_diag. simpl.
  by rewrite map_app, <- app_assoc.
Qed.

Lemma omap_id_Some {A : Type} (l : list A) : omap id (map Some l) = l.
Proof. induction l as [|x l IH]; [done|]. simpl. f_equal. exact IH. Qed.

Section ModelReduction.
Context {F : Type}.
Variable norm_dist : ndarray F -> ndarray F.
Variable norm_dist_obj_arr : list (ndarray F) -> list (ndarray F).

Local Abbreviation prune_A := (_prune_A norm_dist norm_dist_obj_arr).
Local Abbreviation prune_B := (_prune_B norm_dist norm_dist_obj_arr).

(** The loop of [_prune_B] over the factors, for a request in the
    documented form: it never raises, indexes every factor once, and fills
    the slot of factor [f] with [B[f]] reduced by its own levels. *)
Lemma prune_B_loop_keep (sl al : list pyitem) (slices : list (list Z)) :
  forallb is_list sl = true ->
  forall (xs done : list (ndarray F)) (w : world F),
    length done + length xs <= length sl ->
    forallb is_transition xs = true ->
    (forall (i : nat) (B : ndarray F) (n0 n1 nc : nat),
       xs !! i = Some B -> shape B = [n0; n1; nc] ->
       slices !! (length done + i)
         = Some (levels_kept nc (requested al (length done + i)))) ->
    exists news : list (ndarray F),
      for_fold (zip (seq (length done) (length xs)) xs)
        (prune_B_step sl slices)
        (map Some done ++ replicate (length xs) None) w
        = (ok (map Some (done ++ news)),
           World (heap w) (trace w ++ replicate (length xs) Sliced)) /\
      length news = length xs /\
      forall (i : nat) (B : ndarray F) (ns nc : nat),
        xs !! i = Some B -> shape B = [ns; ns; nc] ->
        exists a : ndarray F,
          news !! i = Some a /\
          nd_ix B [levels_kept ns (requested sl (length done + i));
                   levels_kept ns (requested sl (length done + i));
                   levels_kept nc (requested al (length done + i))] = ok a /\
          shape a = [length (levels_kept ns (requested sl (length done + i)));
                     length (levels_kept ns (requested sl (length done + i)));
                     length (levels_kept nc (requested al (length done + i)))] /\
          (nd_wf B -> nd_wf a).
Proof.
  intros Hlist xs. induction xs as [|B xs IH]; intros done w Hlen Hsh Hsl.
  - exists []. simpl. rewrite !app_nil_r. split; [by destruct w|].
    split; [done|]. intros i B ns nc Hi. done.
  - simpl in Hlen. cbn [forallb] in Hsh.
    apply andb_true_iff in Hsh as [HB Hsh].
    unfold is_transition in HB.
    destruct (shape B) as [|ns [|n1 [|nc [|? ?]]]] eqn:HshB; try done.
    apply bool_decide_eq_true in HB as <-.
    set (k := length done) in *.
    pose proof (requested_getitem sl k Hlist ltac:(lia)) as Hreq.
    pose proof (Hsl 0 B ns ns nc eq_refl HshB) as Hsl0.
    rewrite Nat.add_0_r in Hsl0.
    destruct (nd_ix_in_range B
                [levels_kept ns (requested sl k);
                 levels_kept ns (requested sl k);
                 levels_kept nc (requested al k)]) as (a & Ha & Hsa & Hwa).
    { rewrite HshB. simpl. repeat constructor; apply levels_kept_range. }
    rewrite HshB in Hsa. simpl in Hsa.
    destruct (IH (done ++ [a]) (World (heap w) (trace w ++ [Sliced])))
      as (news & Hrun & Hnews & Hres).
    { rewrite length_app. simpl. lia. }
    { done. }
    { intros i B' n0 n1 nc' Hi HshB'. rewrite length_app. simpl.
      replace (length done + 1 + i) with (k + S i) by lia.
      by apply (Hsl (S i) B' n0 n1 nc'). }
    exists (a :: news).
    split.
    { cbn [length seq zip zip_with for_fold].
      unfold bind at 1. unfold prune_B_step at 1.
      unfold shape0. rewrite HshB. rewrite bind_lift_ok.
      destruct (py_getitem sl (Z.of_nat k)) as [e|item] eqn:Hitem; [done|].
      cbn [rbind] in Hreq. rewrite bind_lift_ok. rewrite Hreq.
      rewrite bind_lift_ok. rewrite py_getitem_nat, Hsl0. rewrite bind_lift_ok.
      unfold slice. unfold bind at 1. unfold bind at 1. unfold emit at 1.
      unfold ok at 1. unfold lift at 1. cbv beta iota.
      rewrite Ha. unfold ret at 1. unfold ok at 1. cbv beta iota.
      rewrite length_app in Hrun. simpl in Hrun.
      replace (length done + 1) with (S k) in Hrun by lia.
      subst k. rewrite insert_first_None.
      etransitivity; [exact Hrun|].
      cbn [heap trace]. by rewrite <- !app_assoc. }
    split; [simpl; by rewrite Hnews|].
    intros i B' ns' nc' Hi HshB'.
    destruct i as [|i].
    + simpl in Hi. inversion Hi; subst B'. rewrite HshB in HshB'.
      inversion HshB'; subst ns' nc'. rewrite Nat.add_0_r.
      exists a. by repeat split.
    + simpl in Hi. destruct (Hres i B' ns' nc' Hi HshB') as (a' & Ha' & Hix & Hs' & Hw').
      rewrite length_app in Hix, Hs'. simpl in Hix, Hs'.
      replace (length done + 1 + i) with (k + S i) in Hix, Hs' by lia.
      exists a'. by repeat split.
Qed.

(** What [_prune_B] does to a multi-factor model.  For a request in the
    documented form (one list of state levels and one list of control levels
    per factor, every factor a tensor of shape [(ns, ns, nc)]) and without the
    Dirichlet flag, the call does not raise: it indexes every factor once,
    normalises once with [norm_dist_obj_arr], and what is normalised holds,
    for every factor [f], the tensor [B[f]] reduced by the levels requested
    for [f] and no others: its shape is [(k, k, c)] for the numbers of states
    and of controls of [f] that are kept. *)
Theorem prune_B_obj_shapes :
  forall (Bs : list (ndarray F)) (sl al : list pyitem) (w : world F),
    prune_B_args_ok Bs sl al = true ->
    exists r : list (ndarray F),
      prune_B (ObjModel Bs) sl al false w =
        (ok (ObjModel (norm_dist_obj_arr r)),
         World (heap w)
           (trace w ++ replicate (length Bs) Sliced ++ [Normalized])) /\
      length r = length Bs /\
      forall (f : nat) (B : ndarray F) (ns nc : nat) (ls la : list Z),
        Bs !! f = Some B -> shape B = [ns; ns; nc] ->
        sl !! f = Some (PList ls) -> al !! f = Some (PList la) ->
        exists a : ndarray F,
          r !! f = Some a /\
          nd_ix B [levels_kept ns ls; levels_kept ns ls; levels_kept nc la]
            = ok a /\
          shape a = [length (levels_kept ns ls); length (levels_kept ns ls);
                     length (levels_kept nc la)] /\
          (nd_wf B -> nd_wf a).
Proof.
  intros Bs sl al w Hok. unfold prune_B_args_ok in Hok.
  apply andb_true_iff in Hok as [Hok Htr].
  apply andb_true_iff in Hok as [Hok Hlal].
  apply andb_true_iff in Hok as [Hok Hlsl].
  apply andb_true_iff in Hok as [Hsl Hal].
  apply bool_decide_eq_true in Hlal, Hlsl.
  set (ncs := map (fun B : ndarray F => nth 2 (shape B) 0) Bs).
  assert (Hncs : rmap shape2 Bs = ok ncs).
  { apply rmap_fmap. apply Forall_forall. intros B HB.
    rewrite forallb_forall in Htr.
    specialize (Htr B (proj1 (list_elem_of_In _ _) HB)).
    unfold is_transition in Htr. unfold shape2.
    by destruct (shape B) as [|n0 [|n1 [|nc [|? ?]]]]. }
  set (slices := map (fun '(f, n) => levels_kept n (requested al f))
                   (enumerate ncs)).
  assert (Hslices : slices_to_keep_list Bs al = ok slices).
  { unfold slices_to_keep_list. rewrite Hncs. cbn [rbind ok].
    apply levels_kept_list; [done|]. subst ncs. by rewrite length_map. }
  destruct (prune_B_loop_keep sl al slices Hsl Bs [] w)
    as (r & Hrun & Hlen & Hres).
  { simpl. lia. }
  { done. }
  { intros i B n0 n1 nc Hi HshB. simpl. subst slices.
    rewrite list_lookup_fmap.
    rewrite (enumerate_lookup ncs i nc); [done|].
    subst ncs. rewrite list_lookup_fmap, Hi. simpl. by rewrite HshB. }
  exists r. split.
  { unfold _prune_B. rewrite Hslices. rewrite bind_lift_ok.
    rewrite Hsl. unfold py_assert. rewrite bind_lift_ok.
    unfold enumerate. simpl in Hrun.
    rewrite (bind_eq _ _ _ _ _ Hrun).
    unfold normalize_obj_arr, bind, emit, ret. simpl.
    rewrite omap_id_Some. by rewrite <- app_assoc. }
  split; [done|].
  intros f B ns nc ls la Hf HshB Hls Hla.
  destruct (Hres f B ns nc Hf HshB) as (a & Ha & Hix & Hsa & Hwa).
  simpl in Hix, Hsa. unfold requested in Hix, Hsa.
  rewrite Hls, Hla in Hix, Hsa. by exists a.
Qed.

(** The loop of [_prune_A] over the modalities, for a request in the
    documented form. *)
Lemma prune_A_loop_keep (ol : list pyitem) (cols : list (list Z))
    (nss : list nat) :
  forallb is_list ol = true ->
  Forall2 (fun col n => Forall (fun i => (0 <= i < Z.of_nat n)%Z) col) cols nss ->
  forall (xs done : list (ndarray F)) (w : world F),
    length done + length xs <= length ol ->
    Forall (fun A : ndarray F => shape A <> [] /\ drop 1 (shape A) = nss) xs ->
    exists news : list (ndarray F),
      for_fold (zip (seq (length done) (length xs)) xs)
        (prune_A_step ol cols)
        (map Some done ++ replicate (length xs) None) w
        = (ok (map Some (done ++ news)),
           World (heap w) (trace w ++ replicate (length xs) Sliced)) /\
      length news = length xs /\
      forall (i : nat) (A : ndarray F) (no : nat),
        xs !! i = Some A -> shape A = no :: nss ->
        exists a : ndarray F,
          news !! i = Some a /\
          nd_ix A (levels_kept no (requested ol (length done + i)) :: cols)
            = ok a /\
          shape a = length (levels_kept no (requested ol (length done + i)))
                    :: map length cols /\
          (nd_wf A -> nd_wf a).
Proof.
  intros Hlist Hcols xs.
  induction xs as [|A xs IH]; intros done w Hlen Hsh.
  - exists []. simpl. rewrite !app_nil_r. split; [by destruct w|].
    split; [done|]. intros i A no Hi. done.
  - simpl in Hlen. apply Forall_cons in Hsh as [[HA Hdrop] Hsh].
    destruct (shape A) as [|no rest] eqn:HshA; [done|].
    simpl in Hdrop. rewrite drop_0 in Hdrop. subst rest.
    set (k := length done) in *.
    pose proof (requested_getitem ol k Hlist ltac:(lia)) as Hreq.
    pose proof (Forall2_length _ _ _ Hcols) as Hlc.
    destruct (nd_ix_in_range A (levels_kept no (requested ol k) :: cols))
      as (a & Ha & Hsa & Hwa).
    { rewrite HshA. simpl. rewrite Hlc, firstn_all.
      constructor; [apply levels_kept_range|done]. }
    rewrite HshA in Hsa. simpl in Hsa.
    rewrite Hlc, drop_all, app_nil_r in Hsa.
    destruct (IH (done ++ [a]) (World (heap w) (trace w ++ [Sliced])))
      as (news & Hrun & Hnews & Hres).
    { rewrite length_app. simpl. lia. }
    { done. }
    exists (a :: news).
    split.
    { cbn [length seq zip zip_with for_fold].
      unfold bind at 1. unfold prune_A_step at 1.
      unfold shape0. rewrite HshA. rewrite bind_lift_ok.
      destruct (py_getitem ol (Z.of_nat k)) as [e|item] eqn:Hitem; [done|].
      cbn [rbind] in Hreq. rewrite bind_lift_ok. rewrite Hreq.
      rewrite bind_lift_ok.
      unfold slice. unfold bind at 1. unfold bind at 1. unfold emit at 1.
      unfold ok at 1. unfold lift at 1. cbv beta iota.
      rewrite Ha. unfold ret at 1. unfold ok at 1. cbv beta iota.
      rewrite length_app in Hrun. simpl in Hrun.
      replace (length done + 1) with (S k) in Hrun by lia.
      subst k. rewrite insert_first_None.
      etransitivity; [exact Hrun|].
      cbn [heap trace]. by rewrite <- !app_assoc. }
    split; [simpl; by rewrite Hnews|].
    intros i A' no' Hi HshA'.
    destruct i as [|i].
    + simpl in Hi. inversion Hi; subst A'. rewrite HshA in HshA'.
      inversion HshA'; subst no'. rewrite Nat.add_0_r.
      exists a. by repeat split.
    + simpl in Hi. destruct (Hres i A' no' Hi HshA') as (a' & Ha' & Hix & Hs' & Hw').
      rewrite length_app in Hix, Hs'. simpl in Hix, Hs'.
      replace (length done + 1 + i) with (k + S i) in Hix, Hs' by lia.
      exists a'. by repeat split.
Qed.

(** What [_prune_A] does to a multi-modality model.  For a request in the
    documented form (one list of observation levels per modality, one list of
    state levels per factor, every modality a tensor over the state axes of
    the first one) and without the Dirichlet flag, the call does not raise:
    it indexes every modality once, normalises once with
    [norm_dist_obj_arr], and what is normalised holds, for every modality
    [m], the tensor [A[m]] reduced by the observation levels requested for
    [m] on its first axis and by the state levels requested for factor [f] on
    axis [f + 1]. *)
Theorem prune_A_obj_shapes :
  forall (As : list (ndarray F)) (nss : list nat) (ol sl : list pyitem)
         (w : world F),
    prune_A_args_ok As nss ol sl = true ->
    exists (r : list (ndarray F)) (cols : list (list Z)),
      prune_A (ObjModel As) ol sl false w =
        (ok (ObjModel (norm_dist_obj_arr r)),
         World (heap w)
           (trace w ++ replicate (length As) Sliced ++ [Normalized])) /\
      length r = length As /\
      length cols = length nss /\
      (forall (f ns : nat) (ls : list Z),
         nss !! f = Some ns -> sl !! f = Some (PList ls) ->
         cols !! f = Some (levels_kept ns ls)) /\
      forall (m : nat) (A : ndarray F) (no : nat) (lo : list Z),
        As !! m = Some A -> shape A = no :: nss ->
        ol !! m = Some (PList lo) ->
        exists a : ndarray F,
          r !! m = Some a /\
          nd_ix A (levels_kept no lo :: cols) = ok a /\
          shape a = length (levels_kept no lo) :: map length cols /\
          (nd_wf A -> nd_wf a).
Proof.
  intros As nss ol sl w Hok. unfold prune_A_args_ok in Hok.
  apply andb_true_iff in Hok as [Hok Hall].
  apply andb_true_iff in Hok as [Hok Hlsl].
  apply andb_true_iff in Hok as [Hok Hlol].
  apply andb_true_iff in Hok as [Hol Hsl].
  apply bool_decide_eq_true in Hlol, Hlsl.
  assert (Hshapes : Forall (fun A : ndarray F =>
                              shape A <> [] /\ drop 1 (shape A) = nss) As).
  { apply Forall_forall. intros A HA.
    rewrite forallb_forall in Hall.
    specialize (Hall A (proj1 (list_elem_of_In _ _) HA)).
    apply andb_true_iff in Hall as [Hne Hdr].
    apply bool_decide_eq_true in Hne, Hdr. done. }
  set (cols := map (fun '(f, n) => levels_kept n (requested sl f))
                 (enumerate nss)).
  assert (Hcols : columns_to_keep (ObjModel As) sl = ok cols).
  { unfold columns_to_keep. destruct As as [|A_0 As']; [simpl in Hlol; lia|].
    apply Forall_cons in Hshapes as [[_ ->] _].
    by apply levels_kept_list. }
  assert (Hrange : Forall2
            (fun col n => Forall (fun i => (0 <= i < Z.of_nat n)%Z) col)
            cols nss).
  { subst cols. apply Forall2_fmap_l. apply Forall2_lookup. intros i.
    unfold enumerate. rewrite lookup_zip_with.
    destruct (nss !! i) as [n|] eqn:Hn.
    - rewrite (proj2 (lookup_seq 0 (length nss) i i)
                 (conj eq_refl (lookup_lt_Some _ _ _ Hn))).
      simpl. constructor. apply levels_kept_range.
    - destruct (seq 0 (length nss) !! i); simpl; constructor. }
  destruct (prune_A_loop_keep ol cols nss Hol Hrange As [] w)
    as (r & Hrun & Hlen & Hres).
  { simpl. lia. }
  { done. }
  exists r, cols. split.
  { unfold _prune_A. rewrite Hcols. rewrite bind_lift_ok.
    rewrite Hol. unfold py_assert. rewrite bind_lift_ok.
    unfold enumerate. simpl in Hrun.
    rewrite (bind_eq _ _ _ _ _ Hrun).
    unfold normalize_obj_arr, bind, emit, ret. simpl.
    rewrite omap_id_Some. by rewrite <- app_assoc. }
  split; [done|].
  split.
  { subst cols. rewrite length_map. unfold enumerate.
    rewrite length_zip_with, length_seq. lia. }
  split.
  { intros f ns ls Hf Hls. subst cols. rewrite list_lookup_fmap.
    rewrite (enumerate_lookup nss f ns Hf). simpl.
    unfold requested. by rewrite Hls. }
  intros m A no lo Hm HshA Hlo.
  destruct (Hres m A no Hm HshA) as (a & Ha & Hix & Hsa & Hwa).
  simpl in Hix, Hsa. unfold requested in Hix, Hsa.
  rewrite Hlo in Hix, Hsa. by exists a.
Qed.
End ModelReduction.

(** ** Runs on example data *)

(** C7, as stated, fails: with the Dirichlet flag set, [_prune_prior] returns
    (the empty factorization) when the request removes every level of every
    factor, and [_prune_A] has indexed the model before it raises. *)
Lemma prune_dirichlet_counterexample :
  _prune_prior Examples.no_norm (ObjPrior [Examples.two_levels])
    [PList [0; 1]%Z] true Examples.empty_world
  = (ok (ObjReduced []),
     World ∅ [Printed (prune_warning 0); Sliced]) /\
  _prune_A Examples.no_norm Examples.no_norm_all
    (PlainModel Examples.square_model) [PInt 0] [PInt 1] true
    Examples.empty_world
  = (inl (NotImplementedError prune_A_msg), World ∅ [Sliced]).
Proof. split; vm_compute; reflexivity. Qed.

Lemma prune_dirichlet_flag_witness :
  fst (_prune_prior Examples.no_norm (PlainPrior Examples.two_levels)
         [PInt 0] true Examples.empty_world)
  = inl (NotImplementedError prune_prior_msg) /\
  fst (_prune_prior Examples.no_norm
         (ObjPrior [Examples.two_levels; Examples.two_levels])
         [PList [0; 1]%Z; PList [0]%Z] true Examples.empty_world)
  = inl (NotImplementedError prune_prior_msg).
Proof.
  pose proof (prune_dirichlet_flag Examples.no_norm Examples.no_norm_all)
    as (_ & Hplain & Hobj).
  split.
  - apply (Hplain Examples.two_levels [PInt 0] Examples.empty_world).
    reflexivity.
  - destruct (Hobj [Examples.two_levels; Examples.two_levels]
                [PList [0; 1]%Z; PList [0]%Z] Examples.empty_world)
      as (_ & evs & _ & _ & _ & Hres).
    apply Hres. reflexivity.
Defined.

Lemma prune_prior_plain_all_levels_silent_witness :
  _prune_prior Examples.no_norm (PlainPrior Examples.two_levels)
    [PInt 0; PInt 1] false Examples.empty_world
  = (ok (PlainReduced (Examples.no_norm (NdArray [0] []))),
     World ∅ (trace Examples.empty_world ++ [Sliced; Normalized])).
Proof.
  apply (prune_prior_plain_all_levels_silent Examples.no_norm
           Examples.two_levels 2 [] [PInt 0; PInt 1] Examples.empty_world).
  - reflexivity.
  - reflexivity.
  - intros i Hi.
    assert (Hcases : i = 0%Z \/ i = 1%Z) by lia.
    destruct Hcases as [-> | ->].
    + apply elem_of_cons. by left.
    + apply elem_of_cons. right. apply elem_of_cons. by left.
Defined.

Lemma update_posterior_states_stub_methods_witness :
  update_posterior_states unit Examples.no_categorical Examples.no_values
    Examples.no_factor_values Examples.wrap Examples.forget unit
    Examples.uniform_fpi (ModelNumpy (Single Examples.square_model)) (ObsInt 0)
    None true (Const VMP) tt Examples.empty_world
  = (inl (NotImplementedError "VMP is not implemented"), Examples.empty_world).
Proof.
  etransitivity.
  - apply (update_posterior_states_stub_methods unit Examples.no_categorical
             Examples.no_values Examples.no_factor_values Examples.wrap
             Examples.forget unit Examples.uniform_fpi VMP).
    apply elem_of_cons. by left.
  - vm_compute. reflexivity.
Defined.

Lemma update_obs_likelihood_dirichlet_spec_witness :
  exists (qA : loc) (w' : world Z),
    update_obs_likelihood_dirichlet (list Z) Examples.one_hots 1%positive
      Examples.A_models [0; 1]%Z Examples.beliefs 3%Z (Some [0%Z])
      Examples.pA_world = (ok qA, w') /\
    read_obj (heap w') qA
      = Some [NdArray [2; 2] [4; 1; 1; 1]%Z; NdArray [2; 2] [5; 0; 0; 5]%Z] /\
    read_obj (heap w') 1%positive = Some Examples.pA_values.
Proof.
  destruct (update_obs_likelihood_dirichlet_spec (list Z) Examples.one_hots
              1%positive Examples.A_models [0; 1]%Z Examples.beliefs 3%Z
              (Some [0%Z]) Examples.pA_world Examples.pA_values
              [Examples.one_hot 2 0; Examples.one_hot 2 1] [0])
    as (qA & w' & qAv & Hrun & Hread & Hlen & Hvals & _ & _ & _ & Hinput & _).
  - intros x. simpl. lia.
  - intros x. simpl. lia.
  - reflexivity.
  - vm_compute. reflexivity.
  - vm_compute. reflexivity.
  - vm_compute. reflexivity.
  - vm_compute. reflexivity.
  - apply NoDup_singleton.
  - exists qA, w'. split; [exact Hrun|]. split; [|exact Hinput].
    rewrite Hread. f_equal.
    pose proof (Hvals 0 _ _ _ eq_refl eq_refl eq_refl) as H0.
    pose proof (Hvals 1 _ _ _ eq_refl eq_refl eq_refl) as H1.
    destruct qAv as [|x [|y [|z qAv]]]; try discriminate Hlen.
    simpl in H0, H1. inversion H0. inversion H1. reflexivity.
Defined.

Lemma update_obs_likelihood_dirichlet_lr_zero_witness :
  exists (qA : loc) (w' : world Z),
    update_obs_likelihood_dirichlet (list Z) Examples.one_hots 1%positive
      Examples.A_models [0; 1]%Z Examples.beliefs fzero (Some [0; 0; -1]%Z)
      Examples.pA_world = (ok qA, w') /\
    read_obj (heap w') qA = Some Examples.pA_values.
Proof.
  apply (update_obs_likelihood_dirichlet_lr_zero (list Z) Examples.one_hots
           1%positive Examples.A_models [0; 1]%Z Examples.beliefs
           (Some [0; 0; -1]%Z) Examples.pA_world Examples.pA_values
           [Examples.one_hot 2 0; Examples.one_hot 2 1] [0; 0; 1]).
  - intros x. simpl. lia.
  - intros x. simpl. lia.
  - vm_compute. reflexivity.
  - vm_compute. reflexivity.
  - vm_compute. reflexivity.
  - vm_compute. reflexivity.
Defined.

Lemma update_state_prior_dirichlet_spec_witness :
  exists (qD : loc) (w' : world Z),
    update_state_prior_dirichlet 1%positive Examples.pD_beliefs 2%Z None
      Examples.pD_world = (ok qD, w') /\
    read_obj (heap w') qD = Some [Examples.vec [3; 0; 4]%Z; Examples.vec [0; 22]%Z] /\
    read_obj (heap w') 1%positive = Some Examples.pD_values.
Proof.
  destruct (update_state_prior_dirichlet_spec 1%positive Examples.pD_beliefs
              2%Z None Examples.pD_world [2%positive; 3%positive]
              Examples.pD_values [0; 1])
    as (qD & w' & qDv & Hrun & Hread & Hlen & Hvals & _ & _ & Hinput & _).
  - reflexivity.
  - vm_compute. reflexivity.
  - apply NoDup_cons. split; [|apply NoDup_singleton].
    intros Hin. apply list_elem_of_singleton in Hin. discriminate Hin.
  - vm_compute. reflexivity.
  - vm_compute. reflexivity.
  - vm_compute. reflexivity.
  - exists qD, w'. split; [exact Hrun|]. split; [|exact Hinput].
    rewrite Hread. f_equal.
    assert (Hnd : NoDup [0; 1]).
    { apply NoDup_cons. split; [|apply NoDup_singleton].
      intros Hin. apply list_elem_of_singleton in Hin. discriminate Hin. }
    destruct (Hvals 0 _ _ eq_refl eq_refl) as (v0 & Hv0 & _ & _ & _ & _ & _ & Hsel0).
    destruct (Hvals 1 _ _ eq_refl eq_refl) as (v1 & Hv1 & _ & _ & _ & _ & _ & Hsel1).
    rewrite (Hsel0 Hnd) in Hv0 by (apply elem_of_cons; by left).
    rewrite (Hsel1 Hnd) in Hv1
      by (apply elem_of_cons; right; apply elem_of_cons; by left).
    destruct qDv as [|x [|y [|z qDv]]]; try discriminate Hlen.
    simpl in Hv0, Hv1. inversion Hv0. inversion Hv1. reflexivity.
Defined.

Lemma update_state_likelihood_dirichlet_frame_witness :
  exists (qB : loc) (w' : world Z) (v : ndarray Z),
    update_state_likelihood_dirichlet 1%positive Examples.B_models [1%Z]
      [Examples.vec [1; 10]%Z] [Examples.vec [1; 100]%Z] 1%Z None
      Examples.pB_world = (ok qB, w') /\
    read_obj (heap w') qB = Some [v] /\
    nd_axis2_get v 0
      = nd_axis2_get (NdArray [2; 2; 2] [1; 2; 3; 4; 5; 6; 7; 8]%Z) 0 /\
    read_obj (heap w') 1%positive = Some Examples.pB_values.
Proof.
  destruct (update_state_likelihood_dirichlet_frame 1%positive Examples.B_models
              [1%Z] [Examples.vec [1; 10]%Z] [Examples.vec [1; 100]%Z] 1%Z None
              Examples.pB_world [2%positive] Examples.pB_values [0])
    as (qB & w' & qBv & Hrun & Hread & Hlen & Hvals & _ & _ & Hinput & _).
  - vm_compute. reflexivity.
  - apply NoDup_singleton.
  - vm_compute. reflexivity.
  - vm_compute. reflexivity.
  - vm_compute. reflexivity.
  - destruct (Hvals 0 _ 1%Z eq_refl eq_refl) as (v & Hv & _ & Hslices & _).
    exists qB, w', v. split; [exact Hrun|].
    destruct qBv as [|x [|y qBv]]; try discriminate Hlen.
    simpl in Hv. inversion Hv; subst x.
    split; [exact Hread|]. split; [|exact Hinput].
    apply Hslices. vm_compute. discriminate.
Defined.

Lemma prune_prior_plain_kept_levels_witness :
  exists (kept : list Z) (d : list Z),
    _prune_prior Examples.no_norm (PlainPrior Examples.two_levels) [PInt 0]
      false Examples.empty_world =
      (ok (PlainReduced (Examples.no_norm (NdArray [length kept] d))),
       World ∅ ([] ++ [Sliced; Normalized])) /\
    (forall i : Z, i ∈ kept <-> (0 <= i < 2)%Z /\ PInt i ∉ [PInt 0]).
Proof.
  destruct (prune_prior_plain_kept_levels Examples.no_norm Examples.two_levels
              2 [PInt 0] Examples.empty_world)
    as (kept & d & Hrun & _ & Hkept & _).
  - reflexivity.
  - reflexivity.
  - reflexivity.
  - exists kept, d. split; [exact Hrun|exact Hkept].
Defined.

Lemma prune_prior_plain_request_as_set_witness :
  _prune_prior Examples.no_norm (PlainPrior Examples.two_levels)
    [PInt 0; PInt 0; PInt (-1)] false Examples.empty_world =
  _prune_prior Examples.no_norm (PlainPrior Examples.two_levels)
    [PInt 5; PInt 0] false Examples.empty_world.
Proof.
  apply (prune_prior_plain_request_as_set Examples.no_norm Examples.two_levels
           2 []).
  - reflexivity.
  - reflexivity.
  - reflexivity.
  - intros i Hi. rewrite !elem_of_cons, !elem_of_nil.
    assert (Hcases : i = 0%Z \/ i = 1%Z) by lia.
    destruct Hcases as [-> | ->].
    + split; intros _; [right|]; by left.
    + split; intros Hin.
      * destruct Hin as [Hin|[Hin|[Hin|[]]]]; discriminate Hin.
      * destruct Hin as [Hin|[Hin|[]]]; discriminate Hin.
Defined.

Lemma prune_prior_obj_drops_factors_witness :
  exists (r : list (option (ndarray Z))) (evs : list event),
    _prune_prior Examples.no_norm
      (ObjPrior [Examples.two_levels; Examples.two_levels])
      [PList [0; 1]%Z; PList [0]%Z] false Examples.empty_world
      = (ok (ObjReduced r), World ∅ ([] ++ evs)) /\
    List.filter is_printed evs = [Printed (prune_warning 0)] /\
    length r = 1.
Proof.
  destruct (prune_prior_obj_drops_factors Examples.no_norm
              [Examples.two_levels; Examples.two_levels]
              [PList [0; 1]%Z; PList [0]%Z] Examples.empty_world)
    as (r & evs & Hrun & Hpr & Hlen & _).
  - reflexivity.
  - exists r, evs. split; [exact Hrun|]. split; [exact Hpr|exact Hlen].
Defined.

Lemma prune_B_plain_shape_witness :
  exists (states slices : list Z) (a : ndarray Z),
    _prune_B Examples.no_norm Examples.no_norm_all (PlainModel Examples.cube)
      [PInt 0] [] false Examples.empty_world =
      (ok (PlainModel (Examples.no_norm a)),
       World ∅ ([] ++ [Sliced; Normalized])) /\
    shape a = [length states; length states; length slices] /\
    (forall i : Z, i ∈ states <-> (0 <= i < 2)%Z /\ PInt i ∉ [PInt 0]).
Proof.
  destruct (prune_B_plain_shape Examples.no_norm Examples.no_norm_all
              Examples.cube 2 2 [PInt 0] [] Examples.empty_world)
    as (states & slices & a & Hrun & Hshape & _ & _ & _ & Hstates & _).
  - reflexivity.
  - reflexivity.
  - reflexivity.
  - reflexivity.
  - exists states, slices, a.
    split; [exact Hrun|]. split; [exact Hshape|exact Hstates].
Defined.

Lemma run_vanilla_fpi_faster_middle_factors_witness :
  exists qs : list (ndarray Z),
    _run_vanilla_fpi_faster Examples.geb Examples.abs_diff Examples.same
      Examples.unlogged Examples.flat Examples.sum_ones Examples.joint_ones
      Examples.zero_energy Examples.dot_first Examples.soft_id 3
      (Single (Examples.ones [2; 2])) (Single (Examples.flat 2))
      (DimList [2]) (DimList Examples.three_factors) None 2%Z 1%Z 0%Z
      = Some (ok (ArrOfArr qs)) /\
    length qs = 3 /\
    qs !! 1 = Some (Examples.flat 2).
Proof.
  assert (Hrun : exists qs : list (ndarray Z),
            _run_vanilla_fpi_faster Examples.geb Examples.abs_diff Examples.same
              Examples.unlogged Examples.flat Examples.sum_ones
              Examples.joint_ones Examples.zero_energy Examples.dot_first
              Examples.soft_id 3
              (Single (Examples.ones [2; 2])) (Single (Examples.flat 2))
              (DimList [2]) (DimList Examples.three_factors) None 2%Z 1%Z 0%Z
              = Some (ok (ArrOfArr qs))).
  { eexists. vm_compute. reflexivity. }
  destruct Hrun as [qs Hrun].
  destruct (run_vanilla_fpi_faster_middle_factors Examples.geb
              Examples.abs_diff Examples.same Examples.unlogged Examples.flat
              Examples.sum_ones Examples.joint_ones Examples.zero_energy
              Examples.dot_first Examples.soft_id 3
              (Single (Examples.ones [2; 2])) (Single (Examples.flat 2))
              [2] Examples.three_factors None 2%Z 1%Z 0%Z qs Hrun)
    as [Hlen Hmid].
  exists qs. split; [exact Hrun|]. split; [exact Hlen|].
  apply (Hmid 1 2); [lia|simpl; lia|reflexivity].
Defined.

Lemma run_vanilla_fpi_faster_no_pass_witness :
  _run_vanilla_fpi_faster Examples.geb Examples.abs_diff Examples.same
    Examples.unlogged Examples.flat Examples.sum_ones Examples.joint_ones
    Examples.zero_energy Examples.dot_first Examples.soft_id 1
    (Single (Examples.ones [2; 2])) (Single (Examples.flat 2))
    (DimList [2]) (DimList [2; 3]) None 0%Z 1%Z 0%Z
  = Some (ok (ArrOfArr (map Examples.flat [2; 3]))).
Proof.
  apply (run_vanilla_fpi_faster_no_pass Examples.geb Examples.abs_diff
           Examples.same Examples.unlogged Examples.flat Examples.sum_ones
           Examples.joint_ones Examples.zero_energy Examples.dot_first
           Examples.soft_id 0).
  - left. lia.
  - simpl. lia.
  - reflexivity.
Defined.

Lemma run_vanilla_fpi_faster_single_factor_witness :
  _run_vanilla_fpi_faster Examples.geb Examples.abs_diff Examples.same
    Examples.unlogged Examples.flat Examples.sum_ones Examples.joint_ones
    Examples.zero_energy Examples.dot_first Examples.soft_id 0
    (Single (Examples.ones [2; 2])) (Single (Examples.flat 2))
    (DimList [2]) (DimList [2]) (Some [Examples.vec [5; 7]%Z]) 10%Z 1%Z 0%Z
  = Some (ok (Single (Examples.vec [6; 8]%Z))).
Proof.
  etransitivity.
  - apply (run_vanilla_fpi_faster_single_factor Examples.geb Examples.abs_diff
             Examples.same Examples.unlogged Examples.flat Examples.sum_ones
             Examples.joint_ones Examples.zero_energy Examples.dot_first
             Examples.soft_id 0 (Single (Examples.ones [2; 2]))
             (Single (Examples.flat 2)) [2] 2 (Some [Examples.vec [5; 7]%Z])
             10%Z 1%Z 0%Z (Examples.ones [2]) 0%Z).
    + reflexivity.
    + reflexivity.
  - vm_compute. reflexivity.
Defined.

Lemma update_marginals_synchronous_witness :
  exists qs' : list (ndarray Z),
    update_marginals Examples.div_first Examples.einsum_ones Examples.soft_id
      (Examples.ones [2; 3]) [Examples.flat 2; Examples.flat 3] 2
      [Examples.flat 2; Examples.flat 3] = ok qs' /\
    length qs' = 2 /\
    exists q : ndarray Z,
      fpi_marginal Examples.div_first Examples.einsum_ones Examples.soft_id
        (Examples.ones [2; 3]) [Examples.flat 2; Examples.flat 3] 2 1
        (Examples.flat 3) = ok q /\
      qs' !! 1 = Some q.
Proof.
  assert (Hrun : exists qs' : list (ndarray Z),
            update_marginals Examples.div_first Examples.einsum_ones
              Examples.soft_id (Examples.ones [2; 3])
              [Examples.flat 2; Examples.flat 3] 2
              [Examples.flat 2; Examples.flat 3] = ok qs').
  { eexists. vm_compute. reflexivity. }
  destruct Hrun as [qs' Hrun].
  destruct (update_marginals_synchronous Examples.div_first
              Examples.einsum_ones Examples.soft_id (Examples.ones [2; 3])
              [Examples.flat 2; Examples.flat 3] 2
              [Examples.flat 2; Examples.flat 3] qs' Hrun) as [Hlen Hall].
  exists qs'. split; [exact Hrun|]. split; [exact Hlen|].
  apply (Hall 1 (Examples.flat 3)). reflexivity.
Defined.

Lemma process_observations_tuple_witness :
  exists l : list (ndarray Z),
    process_observations unit Examples.no_categorical (ObsTuple [0; -1]%Z) 2
      [2; 3] = ok (ArrOfArr l) /\
    length l = 2 /\
    l !! 1 = Some (one_hot_at 3 (-1)).
Proof.
  destruct (process_observations_tuple unit Examples.no_categorical
              [0; -1]%Z 2 [2; 3]) as (l & Hrun & Hlen & Hall).
  - simpl. lia.
  - simpl. lia.
  - intros m n i Hm Hn Hi.
    destruct m as [|[|m]]; [| |lia]; simpl in Hn, Hi;
      inversion Hn; inversion Hi; lia.
  - exists l. split; [exact Hrun|]. split; [exact Hlen|].
    apply (Hall 1 3 (-1)%Z); [lia|reflexivity|reflexivity].
Defined.

Lemma process_observations_short_tuple_witness :
  exists msg : string,
    process_observations unit Examples.no_categorical (ObsTuple [0%Z]) 2 [2; 3]
      = throw (IndexError msg).
Proof.
  apply (process_observations_short_tuple unit Examples.no_categorical
           [0%Z] 2 [2; 3]).
  simpl. lia.
Defined.

Lemma update_posterior_states_fpi_int_obs_witness :
  update_posterior_states unit Examples.no_categorical Examples.no_values
    Examples.no_factor_values Examples.wrap Examples.forget unit
    Examples.uniform_fpi (ModelNumpy (Single Examples.square_model))
    (ObsInt (-1)) None true (Const FPI) tt Examples.empty_world
  = (ok (PosteriorNumpy [NdArray [2] [1; 1]%Z]),
     World ∅ [Called "run_fpi"]).
Proof.
  etransitivity.
  - apply (update_posterior_states_fpi_int_obs unit Examples.no_categorical
             Examples.no_values Examples.no_factor_values Examples.wrap
             Examples.forget unit Examples.uniform_fpi Examples.square_model
             2 [2] (-1)%Z true tt Examples.empty_world).
    + reflexivity.
    + lia.
  - vm_compute. reflexivity.
Defined.

Lemma update_state_likelihood_dirichlet_slice_witness :
  exists (qB : loc) (w' : world Z) (v : ndarray Z),
    update_state_likelihood_dirichlet 1%positive Examples.B_models [1%Z]
      [Examples.vec [1; 10]%Z] [Examples.vec [1; 100]%Z] 1%Z None
      Examples.pB_world = (ok qB, w') /\
    read_obj (heap w') qB = Some [v] /\
    nd_axis2_get v 1 = ok (NdArray [2; 2] [3; 104; 16; 8]%Z).
Proof.
  destruct (update_state_likelihood_dirichlet_slice 1%positive Examples.B_models
              [1%Z] [Examples.vec [1; 10]%Z] [Examples.vec [1; 100]%Z] 1%Z None
              Examples.pB_world [2%positive] Examples.pB_values [0])
    as (qB & w' & qBv & Hrun & Hread & Hlen & Hvals).
  - intros x. simpl. lia.
  - intros x. simpl. lia.
  - vm_compute. reflexivity.
  - apply NoDup_singleton.
  - vm_compute. reflexivity.
  - vm_compute. reflexivity.
  - vm_compute. reflexivity.
  - apply NoDup_singleton.
  - destruct (Hvals 0 _ _ 1%Z _ _ ltac:(apply elem_of_cons; by left)
                eq_refl eq_refl eq_refl eq_refl eq_refl)
      as (v & pv & bv & Hv & Hpv & Hbv & Hslice).
    exists qB, w', v. split; [exact Hrun|].
    destruct qBv as [|x [|y qBv]]; try discriminate Hlen.
    simpl in Hv. inversion Hv; subst x.
    split; [exact Hread|].
    rewrite Hslice.
    vm_compute in Hpv. inversion Hpv; subst pv.
    vm_compute in Hbv. inversion Hbv; subst bv.
    vm_compute. reflexivity.
Defined.

Lemma update_state_likelihood_dirichlet_lr_zero_witness :
  exists (qB : loc) (w' : world Z),
    update_state_likelihood_dirichlet 1%positive Examples.B_models [1%Z]
      [Examples.vec [1; 10]%Z] [Examples.vec [1; 100]%Z] fzero
      (Some [0; -1; 0]%Z) Examples.pB_world = (ok qB, w') /\
    read_obj (heap w') qB = Some Examples.pB_values.
Proof.
  apply (update_state_likelihood_dirichlet_lr_zero 1%positive Examples.B_models
           [1%Z] [Examples.vec [1; 10]%Z] [Examples.vec [1; 100]%Z]
           (Some [0; -1; 0]%Z) Examples.pB_world [2%positive]
           Examples.pB_values [0; 0; 0]).
  - intros x. simpl. lia.
  - intros x. simpl. lia.
  - vm_compute. reflexivity.
  - apply NoDup_singleton.
  - vm_compute. reflexivity.
  - vm_compute. reflexivity.
  - vm_compute. reflexivity.
Defined.

Lemma update_state_prior_dirichlet_lr_zero_witness :
  exists (qD : loc) (w' : world Z),
    update_state_prior_dirichlet 1%positive Examples.pD_beliefs fzero
      (Some [1; 1; -2]%Z) Examples.pD_world = (ok qD, w') /\
    read_obj (heap w') qD = Some Examples.pD_values.
Proof.
  apply (update_state_prior_dirichlet_lr_zero 1%positive Examples.pD_beliefs
           (Some [1; 1; -2]%Z) Examples.pD_world [2%positive; 3%positive]
           Examples.pD_values [1; 1; 0]).
  - intros x. simpl. lia.
  - intros x. simpl. lia.
  - vm_compute. reflexivity.
  - apply NoDup_cons. split; [|apply NoDup_singleton].
    intros Hin. apply list_elem_of_singleton in Hin. discriminate Hin.
  - vm_compute. reflexivity.
  - vm_compute. reflexivity.
  - vm_compute. reflexivity.
Defined.

Lemma update_state_prior_dirichlet_fresh_witness :
  exists (qD : loc) (w' : world Z) (items' : list loc),
    update_state_prior_dirichlet 1%positive Examples.pD_beliefs 2%Z None
      Examples.pD_world = (ok qD, w') /\
    obj_items (heap w') qD = Some items' /\
    length items' = 2 /\
    NoDup items' /\
    Forall (fun l' : loc => (l' ∉ [2%positive; 3%positive]) /\ l' <> 1%positive)
      items'.
Proof.
  destruct (update_state_prior_dirichlet_fresh 1%positive Examples.pD_beliefs
              2%Z None Examples.pD_world [2%positive; 3%positive]
              Examples.pD_values [0; 1])
    as (qD & w' & items' & Hrun & Hitems & Hlen & Hnd & _ & Hfresh).
  - vm_compute. reflexivity.
  - apply NoDup_cons. split; [|apply NoDup_singleton].
    intros Hin. apply list_elem_of_singleton in Hin. discriminate Hin.
  - vm_compute. reflexivity.
  - vm_compute. reflexivity.
  - vm_compute. reflexivity.
  - exists qD, w', items'. split; [exact Hrun|]. split; [exact Hitems|].
    split; [exact Hlen|]. split; [exact Hnd|].
    eapply Forall_impl; [exact Hfresh|]. intros l' (_ & Hni & Hne). by split.
Defined.

Lemma update_state_prior_dirichlet_bad_factor_witness :
  exists (msg : string) (w' : world Z),
    update_state_prior_dirichlet 1%positive Examples.pD_beliefs 2%Z
      (Some [0; 2]%Z) Examples.pD_world = (inl (IndexError msg), w') /\
    read_obj (heap w') 1%positive = Some Examples.pD_values.
Proof.
  destruct (update_state_prior_dirichlet_bad_factor 1%positive
              Examples.pD_beliefs 2%Z [0; 2]%Z Examples.pD_world
              [2%positive; 3%positive] Examples.pD_values)
    as (msg & w' & Hrun & _ & Hinput & _).
  - vm_compute. reflexivity.
  - apply NoDup_cons. split; [|apply NoDup_singleton].
    intros Hin. apply list_elem_of_singleton in Hin. discriminate Hin.
  - vm_compute. reflexivity.
  - vm_compute. reflexivity.
  - vm_compute. reflexivity.
  - exists msg, w'. split; [exact Hrun|exact Hinput].
Defined.

Lemma update_obs_likelihood_dirichlet_repeated_witness :
  exists (qA : loc) (w' : world Z),
    update_obs_likelihood_dirichlet (list Z) Examples.one_hots 1%positive
      Examples.A_models [0; 1]%Z Examples.beliefs 3%Z (Some [0; 0]%Z)
      Examples.pA_world = (ok qA, w') /\
    read_obj (heap w') qA
      = Some [NdArray [2; 2] [7; 1; 1; 1]%Z; NdArray [2; 2] [5; 0; 0; 5]%Z].
Proof.
  destruct (update_obs_likelihood_dirichlet_repeated (list Z) Examples.one_hots
              1%positive Examples.A_models [0; 1]%Z Examples.beliefs 3%Z
              (Some [0; 0]%Z) Examples.pA_world Examples.pA_values
              [Examples.one_hot 2 0; Examples.one_hot 2 1] [0; 0])
    as (qA & w' & qAv & Hrun & Hread & Hlen & Hvals).
  - intros x. simpl. lia.
  - intros x. simpl. lia.
  - vm_compute. reflexivity.
  - vm_compute. reflexivity.
  - vm_compute. reflexivity.
  - vm_compute. reflexivity.
  - exists qA, w'. split; [exact Hrun|].
    rewrite Hread. f_equal.
    pose proof (Hvals 0 _ _ _ eq_refl eq_refl eq_refl) as H0.
    pose proof (Hvals 1 _ _ _ eq_refl eq_refl eq_refl) as H1.
    destruct qAv as [|x [|y [|z qAv]]]; try discriminate Hlen.
    simpl in H0, H1. inversion H0. inversion H1. reflexivity.
Defined.
Lemma prune_B_dirichlet_flag_witness :
  fst (_prune_B Examples.no_norm Examples.no_norm_all (PlainModel Examples.cube)
         [PInt 0] [] true Examples.empty_world)
    = inl (NotImplementedError prune_A_msg) /\
  trace (snd (_prune_B Examples.no_norm Examples.no_norm_all
                (PlainModel Examples.cube) [PInt 0] [] true
                Examples.empty_world))
    = [] ++ replicate 1 Sliced.
Proof.
  destruct (prune_B_dirichlet_flag Examples.no_norm Examples.no_norm_all
              (PlainModel Examples.cube) [PInt 0] [] Examples.empty_world)
    as (Hres & _ & k & Htrace & _ & Hk).
  split.
  - rewrite Hres. vm_compute. reflexivity.
  - rewrite Htrace. rewrite Hk; [reflexivity|]. vm_compute. reflexivity.
Defined.

Lemma prune_A_plain_shape_witness :
  exists (rows columns : list Z) (a : ndarray Z),
    _prune_A Examples.no_norm Examples.no_norm_all
      (PlainModel Examples.square_model) [] [PInt 1] false Examples.empty_world =
      (ok (PlainModel (Examples.no_norm a)),
       World ∅ ([] ++ [Sliced; Normalized])) /\
    shape a = [length rows; length columns] /\
    (forall i : Z, i ∈ columns <-> (0 <= i < 2)%Z /\ PInt i ∉ [PInt 1]).
Proof.
  destruct (prune_A_plain_shape Examples.no_norm Examples.no_norm_all
              Examples.square_model 2 2 [] [PInt 1] Examples.empty_world)
    as (rows & columns & a & Hrun & Hshape & _ & _ & _ & _ & Hcolumns).
  - reflexivity.
  - reflexivity.
  - reflexivity.
  - reflexivity.
  - exists rows, columns, a.
    split; [exact Hrun|]. split; [exact Hshape|exact Hcolumns].
Defined.

Lemma process_priors_categorical_witness :
  process_priors unit Examples.no_values Examples.no_factor_values
    Examples.wrap (PriorCategorical tt) (-1)
  = throw (ValueError "negative dimensions are not allowed") /\
  length [Examples.vec [1%Z]; Examples.vec [1%Z]] = Z.to_nat 2.
Proof.
  destruct (process_priors_categorical unit Examples.no_values
              Examples.no_factor_values Examples.wrap tt (-1)) as [Hneg _].
  destruct (process_priors_categorical unit Examples.no_values
              Examples.no_factor_values Examples.wrap tt 2) as [_ Hlen].
  split.
  - apply Hneg. lia.
  - apply (Hlen [Examples.vec [1%Z]; Examples.vec [1%Z]]). reflexivity.
Defined.

Lemma process_observations_int_witness :
  process_observations unit Examples.no_categorical (ObsInt (-1)) 1 [2]
    = ok (Single (one_hot_at 2 (-1))) /\
  exists msg : string,
    process_observations unit Examples.no_categorical (ObsInt 2) 1 [2]
      = throw (IndexError msg).
Proof.
  split.
  - apply (process_observations_int unit Examples.no_categorical (-1) 1 2 []).
    lia.
  - apply (process_observations_int unit Examples.no_categorical 2 1 2 []).
    lia.
Defined.

Lemma prune_B_obj_shapes_witness :
  exists (r : list (ndarray Z)) (a : ndarray Z),
    _prune_B Examples.no_norm Examples.no_norm_all
      (ObjModel [Examples.cube; NdArray [1; 1; 2] [9; 10]%Z])
      [PList [0%Z]; PList []] [PList []; PList [1%Z]] false
      Examples.empty_world =
      (ok (ObjModel (Examples.no_norm_all r)),
       World ∅ ([] ++ replicate 2 Sliced ++ [Normalized])) /\
    r !! 0 = Some a /\
    shape a = [length (levels_kept 2 [0%Z]); length (levels_kept 2 [0%Z]);
               length (levels_kept 2 [])].
Proof.
  destruct (prune_B_obj_shapes Examples.no_norm Examples.no_norm_all
              [Examples.cube; NdArray [1; 1; 2] [9; 10]%Z]
              [PList [0%Z]; PList []] [PList []; PList [1%Z]]
              Examples.empty_world)
    as (r & Hrun & _ & Hres).
  - reflexivity.
  - destruct (Hres 0 Examples.cube 2 2 [0%Z] [] eq_refl eq_refl eq_refl eq_refl)
      as (a & Ha & _ & Hsa & _).
    exists r, a. split; [exact Hrun|]. split; [exact Ha|exact Hsa].
Defined.

Lemma prune_A_obj_shapes_witness :
  exists (r : list (ndarray Z)) (cols : list (list Z)) (a : ndarray Z),
    _prune_A Examples.no_norm Examples.no_norm_all
      (ObjModel [Examples.square_model; NdArray [3; 2] [1; 2; 3; 4; 5; 6]%Z])
      [PList [1%Z]; PList []] [PList [0%Z]] false Examples.empty_world =
      (ok (ObjModel (Examples.no_norm_all r)),
       World ∅ ([] ++ replicate 2 Sliced ++ [Normalized])) /\
    cols !! 0 = Some (levels_kept 2 [0%Z]) /\
    r !! 1 = Some a /\
    shape a = length (levels_kept 3 []) :: map length cols.
Proof.
  destruct (prune_A_obj_shapes Examples.no_norm Examples.no_norm_all
              [Examples.square_model; NdArray [3; 2] [1; 2; 3; 4; 5; 6]%Z]
              [2] [PList [1%Z]; PList []] [PList [0%Z]] Examples.empty_world)
    as (r & cols & Hrun & _ & _ & Hcols & Hres).
  - reflexivity.
  - destruct (Hres 1 (NdArray [3; 2] [1; 2; 3; 4; 5; 6]%Z) 3 []
                eq_refl eq_refl eq_refl) as (a & Ha & _ & Hsa & _).
    exists r, cols, a. split; [exact Hrun|].
    split; [exact (Hcols 0 2 [0%Z] eq_refl eq_refl)|].
    split; [exact Ha|exact Hsa].
Defined.
